(** * ShardedModelV2: a shallow embedding of
    [colossalai/zero/sharded_model/sharded_model_v2.py]

    The orchestrator object ([self]) is a record; every method is a function
    in a small state-and-exception monad over that record.  A Python
    exception leaves the mutations made before it in place, so a computation
    always returns the final state together with either a value or the
    exception raised.

    Python floats (the two gradient factors, and the values stored in a
    tensor) are taken through an arithmetic interface [PyFloat].  Its
    instance for the interpreter is IEEE binary64: the two factors are
    binary64 numbers, and what is proved of their product is proved of the
    rounded binary64 operations.  The precision of a tensor (float16 /
    float32) is a tag on the tensor; a conversion to a precision rounds every
    value to it ([fcast]), and the element-wise division and addition of a
    tensor are the [fdiv] and [fadd] of the interface, whatever the instance.
    The precision of a parameter is that of its data.  A second instance,
    the rationals, rounds nothing: it is not the arithmetic of the program
    and serves only to write concrete orchestrators on which the theorems,
    proved for every instance, are exercised.  Tensors are flat sequences of
    values: shapes are not tracked, only the number of elements. *)

From Stdlib Require Import ZArith List Bool Lia String QArith Qpower Floats Uint63.
Import ListNotations.

Local Open Scope Z_scope.

(** ** Python outcomes *)

Inductive exn : Type :=
| AssertionError (msg : string)
| AttributeError
| NotImplementedError
| ZeroDivisionError
| ValueError
| TypeError
| RuntimeError
| IndexError
| UserError (msg : string).

Inductive outcome (A : Type) : Type :=
| Return (a : A)
| Raise (e : exn).

Arguments Return {A} a.
Arguments Raise {A} e.

(** A method of an object of type [S]: the state after the call, and what the
    call returned or raised. *)
Definition M (S A : Type) : Type := S -> S * outcome A.

Definition ret {S A : Type} (a : A) : M S A := fun s => (s, Return a).

Definition raise {S A : Type} (e : exn) : M S A := fun s => (s, Raise e).

Definition bind {S A B : Type} (c : M S A) (k : A -> M S B) : M S B :=
  fun s =>
    match c s with
    | (s', Return a) => k a s'
    | (s', Raise e) => (s', Raise e)
    end.

Definition get {S : Type} : M S S := fun s => (s, Return s).

Definition modify {S : Type} (f : S -> S) : M S unit := fun s => (f s, Return tt).

Definition lift {S A : Type} (o : outcome A) : M S A := fun s => (s, o).

Definition when {S : Type} (b : bool) (c : M S unit) : M S unit :=
  if b then c else ret tt.

Declare Scope py_scope.
Delimit Scope py_scope with py.
Notation "x <- c ;; k" := (bind c (fun x => k))
  (at level 61, c at next level, right associativity) : py_scope.
Notation "c ;; k" := (bind c (fun _ => k))
  (at level 61, right associativity) : py_scope.
Local Open Scope py_scope.

(** [for x in xs: body(x)], stopping at the first exception. *)
Fixpoint for_each {S A : Type} (xs : list A) (body : A -> M S unit) : M S unit :=
  match xs with
  | [] => ret tt
  | x :: rest => body x ;; for_each rest body
  end.

(** [for p in ps: body(p)] where the body mutates the object [p] itself: the
    objects visited before an exception keep their mutations, the one that
    raised keeps what was done to it so far, the rest are untouched. *)
Fixpoint for_objects {P : Type} (body : P -> P * outcome unit) (ps : list P)
  : list P * outcome unit :=
  match ps with
  | [] => ([], Return tt)
  | p :: rest =>
      match body p with
      | (p', Return _) =>
          let (rest', r) := for_objects body rest in (p' :: rest', r)
      | (p', Raise e) => (p' :: rest, Raise e)
      end
  end.

(** ** Python float arithmetic *)

(** The precision of a tensor. *)
Inductive dtype : Type := float16 | float32.

(** The numbers of the program: Python floats, and the values a tensor
    holds.  [fcast dt x] is [x] as a tensor of precision [dt] stores it. *)
Class PyFloat (F : Type) : Type := {
  float_of_int : Z -> F;
  fadd : F -> F -> F;
  fmul : F -> F -> F;
  fdiv : F -> F -> F;
  feqb : F -> F -> bool;
  fltb : F -> F -> bool;
  fcast : dtype -> F -> F
}.

(** [float(z)]: the binary64 number nearest to the integer, ties to even.
    (Past the largest float Python raises [OverflowError]; the conversion
    here gives the infinity.) *)
Definition binary64_of_int (z : Z) : float :=
  SF2Prim (binary_normalize prec emax z 0 false).

(** A binary64 number rounded to the format of precision [p] and exponent
    bound [e] (nearest, ties to even; overflow gives an infinity, underflow
    a subnormal or a zero), and held again as a binary64 number, which every
    number of a narrower format is. *)
Definition binary64_round_to (p e : Z) (x : float) : float :=
  match Prim2SF x with
  | S754_finite s m ex =>
      match binary_round p e s m ex with
      | S754_finite s' m' e' => SF2Prim (binary_round prec emax s' m' e')
      | y => SF2Prim y
      end
  | _ => x
  end.

(** [t.to(dt)] on one value: IEEE binary16 for [float16], binary32 for
    [float32]. *)
Definition binary64_cast (dt : dtype) (x : float) : float :=
  match dt with
  | float16 => binary64_round_to 11 16 x
  | float32 => binary64_round_to 24 128 x
  end.

(** IEEE 754 binary64, the arithmetic of a Python [float]. *)
#[export] Instance binary64 : PyFloat float := {
  float_of_int := binary64_of_int;
  fadd := PrimFloat.add;
  fmul := PrimFloat.mul;
  fdiv := PrimFloat.div;
  feqb := PrimFloat.eqb;
  fltb := PrimFloat.ltb;
  fcast := binary64_cast
}.

(** The real number a binary64 number stands for, when it is finite. *)
Definition binary64_value (x : float) : option Q :=
  match Prim2SF x with
  | S754_zero _ => Some 0%Q
  | S754_finite s m e => Some (inject_Z (cond_Zopp s (Zpos m)) * 2 ^ e)%Q
  | _ => None
  end.

(** The quotient of [z] by [x] needs no rounding: some binary64 number times
    [x] is [z], as real numbers. *)
Definition exact_quotient (z x : float) : Prop :=
  exists q : float,
    match binary64_value x, binary64_value q, binary64_value z with
    | Some vx, Some vq, Some vz => (vx * vq == vz)%Q
    | _, _, _ => False
    end.

Definition Qltb (x y : Q) : bool := negb (Qle_bool y x).

(** Rational arithmetic, in which nothing is ever rounded: not the
    arithmetic of the interpreter, but an idealisation of it, used for the
    concrete objects the theorems are exercised on. *)
#[export] Instance exact : PyFloat Q := {
  float_of_int := inject_Z;
  fadd := Qplus;
  fmul := Qmult;
  fdiv := Qdiv;
  feqb := Qeq_bool;
  fltb := Qltb;
  fcast := fun _ x => x
}.

(** [x / y] on Python numbers: a zero divisor raises instead of giving an
    infinity. *)
Definition py_truediv {F : Type} `{PyFloat F} (x y : F) : outcome F :=
  if feqb y (float_of_int 0) then Raise ZeroDivisionError else Return (fdiv x y).

(** ** Data model *)

Inductive device : Type := cuda | cpu.

Definition dtype_eqb (a b : dtype) : bool :=
  match a, b with
  | float16, float16 | float32, float32 => true
  | _, _ => false
  end.

Definition device_eqb (a b : device) : bool :=
  match a, b with
  | cuda, cuda | cpu, cpu => true
  | _, _ => false
  end.

Definition element_size (d : dtype) : Z :=
  match d with float16 => 2 | float32 => 4 end.

(** A worker group: [dist.get_rank(group)] and [dist.get_world_size(group)]. *)
Record ProcessGroup : Type := mkProcessGroup {
  pg_rank : Z;
  pg_size : Z
}.

Section Model.

Context {F : Type} {PF : PyFloat F}.

(** A [torch.Tensor], flattened. *)
Record Tensor : Type := mkTensor {
  t_dtype : dtype;
  t_device : device;
  t_requires_grad : bool;
  t_values : list F
}.

Definition numel (t : Tensor) : nat := List.length (t_values t).

(** [t.data]: the same storage, detached from autodiff. *)
Definition Tensor_data (t : Tensor) : Tensor :=
  mkTensor (t_dtype t) (t_device t) false (t_values t).

(** [t.data = d]: [t] takes the storage, precision and placement of [d] and
    keeps its own autodiff flag. *)
Definition Tensor_set_data (t d : Tensor) : Tensor :=
  mkTensor (t_dtype d) (t_device d) (t_requires_grad t) (t_values d).

(** [t.cpu()] *)
Definition Tensor_cpu (t : Tensor) : Tensor :=
  mkTensor (t_dtype t) cpu (t_requires_grad t) (t_values t).

(** [t.to(dt)]: every value is converted to the precision [dt], which
    rounds it, or overflows, when [dt] is narrower. *)
Definition Tensor_to (dt : dtype) (t : Tensor) : Tensor :=
  mkTensor dt (t_device t) (t_requires_grad t) (map (fcast dt) (t_values t)).

(** [t.clone()] under [torch.no_grad()] *)
Definition Tensor_clone (t : Tensor) : Tensor :=
  mkTensor (t_dtype t) (t_device t) false (t_values t).

(** [t.div_(f)] *)
Definition Tensor_div_ (t : Tensor) (f : F) : Tensor :=
  mkTensor (t_dtype t) (t_device t) (t_requires_grad t)
    (map (fun x => fdiv x f) (t_values t)).

(** [t.view_as(other)]: a view with the shape of [other], which must have as
    many elements. *)
Definition Tensor_view_as (t other : Tensor) : outcome Tensor :=
  if Nat.eqb (numel t) (numel other) then Return t else Raise RuntimeError.

Fixpoint add_values (xs ys : list F) : list F :=
  match xs, ys with
  | x :: xs', y :: ys' => fadd x y :: add_values xs' ys'
  | _, _ => []
  end.

(** [t.add_(other)]: in place, element by element; both operands live on the
    same device. *)
Definition Tensor_add_ (t other : Tensor) : outcome Tensor :=
  if device_eqb (t_device t) (t_device other)
  then Return (mkTensor (t_dtype t) (t_device t) (t_requires_grad t)
                 (add_values (t_values t) (t_values other)))
  else Raise RuntimeError.

(** [torch.empty_like(t)] followed by [free_storage]: a placeholder of the
    same precision and placement that holds no memory. *)
Definition empty_freed_like (t : Tensor) : Tensor :=
  mkTensor (t_dtype t) (t_device t) false [].

(** Modelled from the spec: [cast_tensor_to_fp32] of [_utils], which is not
    part of the module: "an upcast-to-full-precision copy" of its argument.
    The values of a reduced-precision tensor are all representable in full
    precision, so they are unchanged. *)
Definition cast_tensor_to_fp32 (t : Tensor) : Tensor :=
  mkTensor float32 (t_device t) false (t_values t).

(** Modelled from the spec: [chunk_and_pad] of [_utils]: "splits it into
    worker-count equal contiguous chunks padding the final chunk with zeros
    if the tensor length is not evenly divisible"; every chunk has
    ceil(L / n) elements. *)
Definition pad_to (c : nat) (xs : list F) : list F :=
  xs ++ repeat (float_of_int 0) (c - List.length xs).

Definition chunk_and_pad (t : Tensor) (num_chunks : Z) : list Tensor :=
  let n := Z.to_nat num_chunks in
  let c := Nat.div (numel t + n - 1) n in
  map (fun i => mkTensor (t_dtype t) (t_device t) (t_requires_grad t)
                  (pad_to c (firstn c (skipn (i * c) (t_values t)))))
      (seq 0 n).

(** The sharded tensor of a parameter ([ShardedTensor]): the locally resident
    data and whether it is one slice or the whole tensor. *)
Record ShardedTensor : Type := mkShardedTensor {
  payload : Tensor;
  is_sharded : bool
}.

(** [st.reset_payload(t)] *)
Definition reset_payload (st : ShardedTensor) (t : Tensor) : ShardedTensor :=
  mkShardedTensor t (is_sharded st).

(** The ShardRecord of a parameter ([param.col_attr]). *)
Record ShardedParamV2 : Type := mkShardedParamV2 {
  sharded_data_tensor : ShardedTensor;
  fp16_grad : option Tensor;
  fp32_grad : option Tensor;
  offload_grad : bool;
  bwd_count : Z
}.

Definition param_is_sharded (a : ShardedParamV2) : bool :=
  is_sharded (sharded_data_tensor a).

(** A [torch.nn.Parameter].  [col_attr] is [None] when the attribute is
    absent ([hasattr(param, 'col_attr')] is false); [p_grad] is [param.grad]. *)
Record nn_Parameter : Type := mkParameter {
  p_requires_grad : bool;
  p_data : Tensor;
  p_grad : option Tensor;
  col_attr : option ShardedParamV2
}.

(** [param.dtype]: the precision of the data the parameter holds. *)
Definition p_dtype (p : nn_Parameter) : dtype := t_dtype (p_data p).

Definition set_col_attr (p : nn_Parameter) (a : ShardedParamV2) : nn_Parameter :=
  mkParameter (p_requires_grad p) (p_data p) (p_grad p) (Some a).

Definition set_p_grad (p : nn_Parameter) (g : Tensor) : nn_Parameter :=
  mkParameter (p_requires_grad p) (p_data p) (Some g) (col_attr p).

Definition set_p_data (p : nn_Parameter) (d : Tensor) : nn_Parameter :=
  mkParameter (p_requires_grad p) d (p_grad p) (col_attr p).

Definition set_sharded_data_tensor (a : ShardedParamV2) (st : ShardedTensor)
  : ShardedParamV2 :=
  mkShardedParamV2 st (fp16_grad a) (fp32_grad a) (offload_grad a) (bwd_count a).

Definition set_fp16_grad (a : ShardedParamV2) (g : option Tensor) : ShardedParamV2 :=
  mkShardedParamV2 (sharded_data_tensor a) g (fp32_grad a) (offload_grad a) (bwd_count a).

Definition set_fp32_grad (a : ShardedParamV2) (g : option Tensor) : ShardedParamV2 :=
  mkShardedParamV2 (sharded_data_tensor a) (fp16_grad a) g (offload_grad a) (bwd_count a).

Definition set_offload_grad (a : ShardedParamV2) (b : bool) : ShardedParamV2 :=
  mkShardedParamV2 (sharded_data_tensor a) (fp16_grad a) (fp32_grad a) b (bwd_count a).

Definition set_bwd_count (a : ShardedParamV2) (n : Z) : ShardedParamV2 :=
  mkShardedParamV2 (sharded_data_tensor a) (fp16_grad a) (fp32_grad a) (offload_grad a) n.

(** [p.col_attr]: an [AttributeError] when the attribute is absent. *)
Definition get_col_attr (p : nn_Parameter) : outcome ShardedParamV2 :=
  match col_attr p with
  | Some a => Return a
  | None => Raise AttributeError
  end.

(** An exported state dict: names and tensors, in order. *)
Definition StateDict : Type := list (string * Tensor).

(** The wrapped [nn.Module]: whether it is an [nn.ModuleList], its registered
    sub-modules (by name), its parameters in [module.parameters()] order, and
    its state-dict export ([nn.Module.state_dict], possibly overridden or
    hooked by the user's module): from the data of the parameters, in order,
    to the exported dictionary, or an exception. *)
Record nn_Module : Type := mk_nn_Module {
  is_ModuleList : bool;
  submodules : list string;
  parameters : list nn_Parameter;
  module_state_dict : list Tensor -> outcome StateDict
}.

Definition set_parameters (m : nn_Module) (ps : list nn_Parameter) : nn_Module :=
  mk_nn_Module (is_ModuleList m) (submodules m) ps (module_state_dict m).

(** Modelled from the spec: the shard strategy ([BaseShardStrategy]), a
    collaborator outside the module: "[shard(tensors, group)] converts each
    given tensor's record to the sharded, rank-local representation;
    [gather(tensors, group)] produces the reconstructed full tensor".  What a
    strategy does to one record is its own business and stays a parameter. *)
Record BaseShardStrategy : Type := mkShardStrategy {
  shard_tensor : ShardedTensor -> ProcessGroup -> ShardedTensor;
  gather_tensor : ShardedTensor -> ProcessGroup -> ShardedTensor
}.

(** Modelled from the spec: the memory tracker ([MemStatsCollector]), not part
    of the module.  [start_collection] / [finish_collection] bracket the
    sampling window; a sample is recorded only inside the window;
    [overall_cuda] is the ordered sequence of total-usage samples. *)
Record MemStatsCollector : Type := mkMemStatsCollector {
  start_flag : bool;
  model_data_cuda : list Z;
  overall_cuda : list Z;
  sampling_cnter : Z
}.

Definition new_MemStatsCollector : MemStatsCollector :=
  mkMemStatsCollector false [] [] 0.

Definition start_collection (c : MemStatsCollector) : MemStatsCollector :=
  mkMemStatsCollector true (model_data_cuda c) (overall_cuda c) (sampling_cnter c).

Definition finish_collection (c : MemStatsCollector) : MemStatsCollector :=
  mkMemStatsCollector false (model_data_cuda c) (overall_cuda c) (sampling_cnter c).

Definition reset_sampling_cnter (c : MemStatsCollector) : MemStatsCollector :=
  mkMemStatsCollector (start_flag c) (model_data_cuda c) (overall_cuda c) 0.

(** One reading: memory held by the model's own tensors, and everything else. *)
Definition sample_memstats (model_data non_model_data : Z) (c : MemStatsCollector)
  : MemStatsCollector :=
  if start_flag c
  then mkMemStatsCollector true
         (model_data_cuda c ++ [model_data])
         (overall_cuda c ++ [model_data + non_model_data])
         (sampling_cnter c + 1)
  else c.

(** Python's [max] of a sequence: a [ValueError] on the empty one. *)
Definition py_max (xs : list Z) : outcome Z :=
  match xs with
  | [] => Raise ValueError
  | x :: rest => Return (fold_left Z.max rest x)
  end.

(** Modelled from the spec: the reduce-scatter bucketer
    ([ReduceScatterBucketer]), not part of the module.  A queued entry is one
    gradient's chunk set, the group, and the parameter its completion callback
    is bound to ([functools.partial(self._reduce_scatter_callback, param)]);
    a parameter is named by its position in [module.parameters()].  A bucket
    groups the entries of one (dtype, chunk size). *)
Record BucketEntry : Type := mkBucketEntry {
  e_chunks : list Tensor;
  e_group : ProcessGroup;
  e_param : nat
}.

Record Bucket : Type := mkBucket {
  b_dtype : dtype;
  b_chunk_numel : nat;
  b_entries : list BucketEntry
}.

Record ReduceScatterBucketer : Type := mkReduceScatterBucketer {
  bucket_size_mb : Z;
  buckets : list Bucket
}.

Definition entry_bytes (e : BucketEntry) : Z :=
  match e_chunks e with
  | [] => 0
  | c :: _ => Z.of_nat (List.length (e_chunks e)) * Z.of_nat (numel c) * element_size (t_dtype c)
  end.

Definition bucket_bytes (b : Bucket) : Z :=
  fold_right (fun e acc => entry_bytes e + acc) 0 (b_entries b).

Definition bucket_capacity (r : ReduceScatterBucketer) : Z :=
  bucket_size_mb r * 1024 * 1024.

Definition entry_key (e : BucketEntry) : dtype * nat :=
  match e_chunks e with
  | [] => (float32, 0%nat)
  | c :: _ => (t_dtype c, numel c)
  end.

Definition bucket_matches (k : dtype * nat) (b : Bucket) : bool :=
  dtype_eqb (fst k) (b_dtype b) && Nat.eqb (snd k) (b_chunk_numel b).

(** The orchestrator. *)
Record ShardedModelV2 : Type := mkShardedModelV2 {
  module : nn_Module;
  shard_param : bool;
  process_group : ProcessGroup;
  reduce_scatter_process_group : ProcessGroup;
  world_size : Z;
  rank : Z;
  shard_strategy : BaseShardStrategy;
  _use_memory_tracer : bool;
  _memstats_collector : option MemStatsCollector;
  _iter_cnter : Z;
  fp32_reduce_scatter : bool;
  _cpu_offload : bool;
  gradient_predivide_factor : F;
  gradient_postdivide_factor : F;
  reducer : ReduceScatterBucketer;
  _require_backward_grad_sync : bool;
  _cuda_margin_space : Z;
  reuse_fp16_shard : bool
}.

Definition set_module (s : ShardedModelV2) (m : nn_Module) : ShardedModelV2 :=
  mkShardedModelV2 m (shard_param s) (process_group s)
    (reduce_scatter_process_group s) (world_size s) (rank s) (shard_strategy s)
    (_use_memory_tracer s) (_memstats_collector s) (_iter_cnter s)
    (fp32_reduce_scatter s) (_cpu_offload s) (gradient_predivide_factor s)
    (gradient_postdivide_factor s) (reducer s) (_require_backward_grad_sync s)
    (_cuda_margin_space s) (reuse_fp16_shard s).

Definition set_memstats_collector (s : ShardedModelV2) (c : option MemStatsCollector)
  : ShardedModelV2 :=
  mkShardedModelV2 (module s) (shard_param s) (process_group s)
    (reduce_scatter_process_group s) (world_size s) (rank s) (shard_strategy s)
    (_use_memory_tracer s) c (_iter_cnter s)
    (fp32_reduce_scatter s) (_cpu_offload s) (gradient_predivide_factor s)
    (gradient_postdivide_factor s) (reducer s) (_require_backward_grad_sync s)
    (_cuda_margin_space s) (reuse_fp16_shard s).

Definition set_iter_cnter (s : ShardedModelV2) (n : Z) : ShardedModelV2 :=
  mkShardedModelV2 (module s) (shard_param s) (process_group s)
    (reduce_scatter_process_group s) (world_size s) (rank s) (shard_strategy s)
    (_use_memory_tracer s) (_memstats_collector s) n
    (fp32_reduce_scatter s) (_cpu_offload s) (gradient_predivide_factor s)
    (gradient_postdivide_factor s) (reducer s) (_require_backward_grad_sync s)
    (_cuda_margin_space s) (reuse_fp16_shard s).

Definition set_reducer (s : ShardedModelV2) (r : ReduceScatterBucketer) : ShardedModelV2 :=
  mkShardedModelV2 (module s) (shard_param s) (process_group s)
    (reduce_scatter_process_group s) (world_size s) (rank s) (shard_strategy s)
    (_use_memory_tracer s) (_memstats_collector s) (_iter_cnter s)
    (fp32_reduce_scatter s) (_cpu_offload s) (gradient_predivide_factor s)
    (gradient_postdivide_factor s) r (_require_backward_grad_sync s)
    (_cuda_margin_space s) (reuse_fp16_shard s).

Definition set_require_backward_grad_sync (s : ShardedModelV2) (b : bool) : ShardedModelV2 :=
  mkShardedModelV2 (module s) (shard_param s) (process_group s)
    (reduce_scatter_process_group s) (world_size s) (rank s) (shard_strategy s)
    (_use_memory_tracer s) (_memstats_collector s) (_iter_cnter s)
    (fp32_reduce_scatter s) (_cpu_offload s) (gradient_predivide_factor s)
    (gradient_postdivide_factor s) (reducer s) b
    (_cuda_margin_space s) (reuse_fp16_shard s).

Definition set_cuda_margin_space (s : ShardedModelV2) (m : Z) : ShardedModelV2 :=
  mkShardedModelV2 (module s) (shard_param s) (process_group s)
    (reduce_scatter_process_group s) (world_size s) (rank s) (shard_strategy s)
    (_use_memory_tracer s) (_memstats_collector s) (_iter_cnter s)
    (fp32_reduce_scatter s) (_cpu_offload s) (gradient_predivide_factor s)
    (gradient_postdivide_factor s) (reducer s) (_require_backward_grad_sync s)
    m (reuse_fp16_shard s).

Definition module_parameters (s : ShardedModelV2) : list nn_Parameter :=
  parameters (module s).

Definition set_module_parameters (s : ShardedModelV2) (ps : list nn_Parameter)
  : ShardedModelV2 :=
  set_module s (set_parameters (module s) ps).

(** ** The environment of the module *)

(** The collective primitive: what this worker receives from a reduce-scatter
    of the given chunk set over the group (the sum, over the workers, of the
    chunk of this worker's rank).  It depends on the other workers. *)
Variable reduce_scatter : list Tensor -> ProcessGroup -> Tensor.

(** [colo_cuda_memory_capacity()]: the capacity of the device, in bytes. *)
Variable colo_cuda_memory_capacity : Z.

(** [gpc.get_group(ParallelMode.DATA)]: the data-parallel group of the global
    context. *)
Variable gpc_data_group : ProcessGroup.

(** ** Construction *)

(** Modelled from the spec: [get_gradient_predivide_factor] of [_utils], not
    part of the module: "the largest factor <= sqrt(worker-count) that evenly
    divides worker-count, defaulting to 1 if none exists". *)
Fixpoint largest_factor_upto (n : Z) (k : nat) : Z :=
  match k with
  | O => 1
  | S k' => if n mod Z.of_nat k =? 0 then Z.of_nat k else largest_factor_upto n k'
  end.

Definition get_gradient_predivide_factor (n : Z) : F :=
  float_of_int (largest_factor_upto n (Z.to_nat (Z.sqrt n))).

(** The first loop of [__init__]: the sharding flag of every parameter, or
    the assertion on the first one without a ShardRecord. *)
Fixpoint collect_sharded (ps : list nn_Parameter) : outcome (list bool) :=
  match ps with
  | [] => Return []
  | p :: rest =>
      match col_attr p with
      | None =>
          Raise (AssertionError
                   "You must use ZeroInitContext to init your module first.")
      | Some a =>
          match collect_sharded rest with
          | Return l => Return (param_is_sharded a :: l)
          | Raise e => Raise e
          end
      end
  end.

(** Python's [all] *)
Definition all (bs : list bool) : bool := forallb (fun b => b) bs.

Fixpoint dict_get (d : list (string * string)) (k : string) : option string :=
  match d with
  | [] => None
  | (k', v) :: rest => if String.eqb k k' then Some v else dict_get rest k
  end.

(** [offload_config.get('device', None) == 'cpu' if offload_config else False] *)
Definition cpu_offload_of (offload_config : option (list (string * string))) : bool :=
  match offload_config with
  | None | Some [] => false
  | Some d =>
      match dict_get d "device" with
      | Some v => String.eqb v "cpu"
      | None => false
      end
  end.

(** [param.col_attr.offload_grad = self._cpu_offload] *)
Definition init_offload_grad (b : bool) (p : nn_Parameter) : nn_Parameter :=
  match col_attr p with
  | Some a => set_col_attr p (set_offload_grad a b)
  | None => p
  end.

(** [ShardedModelV2.__init__].  The hooks it registers on the module and the
    streams it creates carry no state of their own here.  The module it is
    given is the one the orchestrator keeps: the [offload_grad] it writes
    into the records is seen through [module]. *)
Definition __init__
    (module0 : nn_Module)
    (shard_strategy0 : BaseShardStrategy)
    (process_group0 : option ProcessGroup)
    (reduce_scatter_process_group0 : option ProcessGroup)
    (reduce_scatter_bucket_size_mb : Z)
    (fp32_reduce_scatter0 : bool)
    (offload_config : option (list (string * string)))
    (gradient_predivide_factor0 : option F)
    (use_memory_tracer : bool)
    (reuse_fp16_shard0 : bool)
  : outcome ShardedModelV2 :=
  match collect_sharded (parameters module0) with
  | Raise e => Raise e
  | Return sharded =>
      let unsharded := map negb sharded in
      if negb (all sharded || all unsharded)
      then Raise (AssertionError
             "Parameters must be all sharded or all unsharded! Parameters are partially sharded now.")
      else
        let pg := match process_group0 with
                  | Some g => g
                  | None => gpc_data_group
                  end in
        let rs_pg := match reduce_scatter_process_group0 with
                     | Some g => g
                     | None => pg
                     end in
        let n := pg_size pg in
        let collector := if use_memory_tracer then Some new_MemStatsCollector
                         else None in
        let offload := cpu_offload_of offload_config in
        let module1 := set_parameters module0
                         (map (init_offload_grad offload) (parameters module0)) in
        let pre := match gradient_predivide_factor0 with
                   | Some f => f
                   | None => get_gradient_predivide_factor n
                   end in
        match py_truediv (float_of_int n) pre with
        | Raise e => Raise e
        | Return post =>
            Return (mkShardedModelV2 module1 (all sharded) pg rs_pg n (pg_rank pg)
                      shard_strategy0 use_memory_tracer collector 0
                      fp32_reduce_scatter0 offload pre post
                      (mkReduceScatterBucketer reduce_scatter_bucket_size_mb [])
                      true 0 reuse_fp16_shard0)
        end
  end.

(** ** Parameters as objects *)

(** The parameter at a position of [module.parameters()]. *)
Definition get_param (i : nat) : M ShardedModelV2 nn_Parameter :=
  fun self =>
    match nth_error (module_parameters self) i with
    | Some p => (self, Return p)
    | None => (self, Raise IndexError)
    end.

Fixpoint list_set {A : Type} (i : nat) (x : A) (l : list A) : list A :=
  match l, i with
  | [], _ => []
  | _ :: rest, O => x :: rest
  | y :: rest, S i' => y :: list_set i' x rest
  end.

Definition put_param (i : nat) (p : nn_Parameter) : M ShardedModelV2 unit :=
  modify (fun self => set_module_parameters self (list_set i p (module_parameters self))).

(** ** The reduction-completion callback *)

(** [_reduce_scatter_callback(param, reduced_grad)].  [view(-1)] flattens,
    which changes nothing of a flat tensor. *)
Definition _reduce_scatter_callback (param : nat) (reduced_grad : Tensor)
  : M ShardedModelV2 unit :=
  self <- get ;;
  let reduced_grad :=
    if fltb (float_of_int 1) (gradient_postdivide_factor self)
    then Tensor_div_ reduced_grad (gradient_postdivide_factor self)
    else reduced_grad in
  p <- get_param param ;;
  a <- lift (get_col_attr p) ;;
  if reuse_fp16_shard self
  then put_param param
         (set_col_attr p
            (set_sharded_data_tensor a
               (mkShardedTensor (Tensor_data reduced_grad) true)))
  else put_param param
         (set_col_attr p (set_fp16_grad a (Some (Tensor_data reduced_grad)))).

(** ** The bucketer's operations *)

Definition run_entry (e : BucketEntry) : M ShardedModelV2 unit :=
  _reduce_scatter_callback (e_param e) (reduce_scatter (e_chunks e) (e_group e)).

Definition clear_bucket (b : Bucket) : Bucket :=
  mkBucket (b_dtype b) (b_chunk_numel b) [].

(** The entries waiting in the buckets, in the order a flush serves them. *)
Definition pending (s : ShardedModelV2) : list BucketEntry :=
  flat_map b_entries (buckets (reducer s)).

(** [reducer.flush()]: the collective of every non-empty bucket is issued, and
    the callbacks of its entries run in the order they were queued. *)
Definition reducer_flush : M ShardedModelV2 unit :=
  self <- get ;;
  modify (fun s => set_reducer s
            (mkReduceScatterBucketer (bucket_size_mb (reducer s))
               (map clear_bucket (buckets (reducer s))))) ;;
  for_each (pending self) run_entry.

(** [reducer.free()]: the buffers of all buckets are released. *)
Definition reducer_free : M ShardedModelV2 unit :=
  modify (fun s => set_reducer s
            (mkReduceScatterBucketer (bucket_size_mb (reducer s)) [])).

Fixpoint queue_entry (cap : Z) (e : BucketEntry) (bs : list Bucket)
  : list Bucket * list BucketEntry :=
  match bs with
  | [] => ([mkBucket (fst (entry_key e)) (snd (entry_key e)) [e]], [])
  | b :: rest =>
      if bucket_matches (entry_key e) b
      then if cap <? bucket_bytes b + entry_bytes e
           then (mkBucket (b_dtype b) (b_chunk_numel b) [e] :: rest, b_entries b)
           else (mkBucket (b_dtype b) (b_chunk_numel b) (b_entries b ++ [e]) :: rest, [])
      else let (rest', flushed) := queue_entry cap e rest in (b :: rest', flushed)
  end.

(** [reducer.reduce_scatter_async(chunks, group, callback_fn)]: the chunk set
    joins the bucket of its (dtype, chunk size); a bucket it would overflow
    is flushed first. *)
Definition reduce_scatter_async (chunks : list Tensor) (group : ProcessGroup)
    (param : nat) : M ShardedModelV2 unit :=
  self <- get ;;
  let r := reducer self in
  let (bs, flushed) :=
    queue_entry (bucket_capacity r) (mkBucketEntry chunks group param) (buckets r) in
  modify (fun s => set_reducer s (mkReduceScatterBucketer (bucket_size_mb r) bs)) ;;
  for_each flushed run_entry.

(** ** The gradient-completion callback *)

(** [_grad_post_backward_hook(param, grad)].  Waiting on a stream and
    recording a stream order the two queues and change no state. *)
Definition _grad_post_backward_hook (param : nat) (grad : option Tensor)
  : M ShardedModelV2 (option Tensor) :=
  match grad with
  | None => ret None
  | Some grad =>
      if t_requires_grad grad
      then raise (AssertionError
             "ShardedModel only works with gradients that don't require gradients")
      else
        self <- get ;;
        if negb (_require_backward_grad_sync self) then ret None
        else
          let new_grad := Tensor_clone grad in
          new_grad <-
            (if fp32_reduce_scatter self
             then p <- get_param param ;;
                  ret (Tensor_set_data new_grad
                         (Tensor_to (p_dtype p) (Tensor_data new_grad)))
             else ret new_grad) ;;
          let new_grad :=
            if fltb (float_of_int 1) (gradient_predivide_factor self)
            then Tensor_div_ new_grad (gradient_predivide_factor self)
            else new_grad in
          let orig_grad_data := Tensor_data new_grad in
          (if 1 <? world_size self
           then reduce_scatter_async
                  (chunk_and_pad orig_grad_data
                     (pg_size (reduce_scatter_process_group self)))
                  (reduce_scatter_process_group self) param
           else _reduce_scatter_callback param new_grad) ;;
          ret (Some (empty_freed_like grad))
  end.

(** ** The memory tracker of the orchestrator *)

Definition collector_truthy (s : ShardedModelV2) : bool :=
  match _memstats_collector s with Some _ => true | None => false end.

Definition on_collector (f : MemStatsCollector -> MemStatsCollector)
  : M ShardedModelV2 unit :=
  modify (fun s => set_memstats_collector s (option_map f (_memstats_collector s))).

(** [_update_memstats] *)
Definition _update_memstats : M ShardedModelV2 unit :=
  self <- get ;;
  when ((_iter_cnter self =? 0) && collector_truthy self)
       (on_collector finish_collection) ;;
  self <- get ;;
  match _memstats_collector self with
  | Some c =>
      on_collector reset_sampling_cnter ;;
      peak <- lift (py_max (overall_cuda c)) ;;
      modify (fun s => set_cuda_margin_space s (colo_cuda_memory_capacity - peak))
  | None => ret tt
  end ;;
  modify (fun s => set_iter_cnter s (_iter_cnter s + 1)).

(** ** End-of-backward reconciliation *)

(** Evaluating [p.col_attr] for every parameter, in order. *)
Fixpoint check_col_attrs (ps : list nn_Parameter) : outcome unit :=
  match ps with
  | [] => Return tt
  | p :: rest =>
      match col_attr p with
      | Some _ => check_col_attrs rest
      | None => Raise AttributeError
      end
  end.

(** Applying an operation of the strategy, in place, to the sharded tensor of
    every parameter whose record is selected. *)
Definition on_sharded_tensors (sel : ShardedParamV2 -> bool)
    (op : ShardedTensor -> ShardedTensor) (ps : list nn_Parameter)
  : list nn_Parameter :=
  map (fun p =>
         match col_attr p with
         | Some a =>
             if sel a
             then set_col_attr p (set_sharded_data_tensor a (op (sharded_data_tensor a)))
             else p
         | None => p
         end) ps.

(** The safety net: the tensors not sharded at this point are collected and
    handed to [shard_strategy.shard]. *)
Definition shard_unsharded : M ShardedModelV2 unit :=
  self <- get ;;
  lift (check_col_attrs (module_parameters self)) ;;
  modify (fun s => set_module_parameters s
            (on_sharded_tensors (fun a => negb (param_is_sharded a))
               (fun st => shard_tensor (shard_strategy s) st (process_group s))
               (module_parameters s))).

Definition set_attr (a : ShardedParamV2) : M nn_Parameter unit :=
  modify (fun p => set_col_attr p a).

(** The body of the last loop of [_post_backward_operations], as a method of
    the parameter it visits.  In reuse mode [grad_payload] is the payload
    object of the sharded tensor itself, so moving its data to the host moves
    the payload.  Without reuse, a record whose [fp16_grad] is [None] has
    nothing to upcast: the helper, or else the first use of its result,
    raises before anything of the parameter but the counter is written. *)
Definition reconcile_param (sync reuse : bool) : M nn_Parameter unit :=
  p <- get ;;
  a <- lift (get_col_attr p) ;;
  let a := set_bwd_count a 0 in
  set_attr a ;;
  if negb (p_requires_grad p) then ret tt
  else if negb sync then ret tt
  else
    grad_payload <-
      (if reuse then ret (payload (sharded_data_tensor a))
       else match fp16_grad a with
            | Some g => ret (cast_tensor_to_fp32 g)
            | None => raise TypeError
            end) ;;
    let grad_payload :=
      if offload_grad a
      then Tensor_set_data grad_payload (Tensor_cpu (Tensor_data grad_payload))
      else grad_payload in
    let a :=
      if reuse
      then set_sharded_data_tensor a (reset_payload (sharded_data_tensor a) grad_payload)
      else a in
    set_attr a ;;
    grad_payload <-
      match fp32_grad a with
      | Some acc =>
          if reuse
          then raise (AssertionError
                 "Gradien accumulation is not supported when reuse_fp16_shard=True")
          else
            v <- lift (Tensor_view_as grad_payload acc) ;;
            acc' <- lift (Tensor_add_ acc v) ;;
            set_attr (set_fp32_grad a (Some acc')) ;;
            ret acc'
      | None => ret grad_payload
      end ;;
    p <- get ;;
    match p_grad p, col_attr p with
    | Some g, Some a =>
        modify (fun p => set_p_grad p (Tensor_set_data g grad_payload)) ;;
        set_attr (set_fp16_grad a None) ;;
        set_attr (set_fp32_grad (set_fp16_grad a None) None)
    | _, _ => raise AttributeError
    end.

Definition reconcile_params : M ShardedModelV2 unit :=
  fun self =>
    let (ps, r) :=
      for_objects (reconcile_param (_require_backward_grad_sync self)
                     (reuse_fp16_shard self))
        (module_parameters self) in
    (set_module_parameters self ps, r).

(** The steps of [_post_backward_operations] before its last loop: the memory
    tracker, the flush and release of the buckets, the safety net. *)
Definition before_reconcile : M ShardedModelV2 unit :=
  _update_memstats ;;
  self <- get ;;
  when (_require_backward_grad_sync self) reducer_flush ;;
  reducer_free ;;
  self <- get ;;
  when (shard_param self) shard_unsharded.

(** [_post_backward_operations] *)
Definition _post_backward_operations : M ShardedModelV2 unit :=
  _update_memstats ;;
  self <- get ;;
  when (_require_backward_grad_sync self) reducer_flush ;;
  reducer_free ;;
  self <- get ;;
  when (shard_param self) shard_unsharded ;;
  reconcile_params.

(** ** State dict *)

(** [p.data = p.col_attr.sharded_data_tensor.payload] *)
Definition data_from_payload : M nn_Parameter unit :=
  p <- get ;;
  a <- lift (get_col_attr p) ;;
  modify (fun p => set_p_data p (payload (sharded_data_tensor a))).

Fixpoint restore_data (prev : list Tensor) (ps : list nn_Parameter)
  : list nn_Parameter :=
  match prev, ps with
  | d :: prev', p :: ps' => set_p_data p d :: restore_data prev' ps'
  | _, _ => ps
  end.

Definition for_parameters (body : M nn_Parameter unit) : M ShardedModelV2 unit :=
  fun self =>
    let (ps, r) := for_objects body (module_parameters self) in
    (set_module_parameters self ps, r).

(** [state_dict(destination, prefix, keep_vars)] *)
Definition state_dict : M ShardedModelV2 StateDict :=
  self <- get ;;
  lift (check_col_attrs (module_parameters self)) ;;
  modify (fun s => set_module_parameters s
            (on_sharded_tensors (fun _ => true)
               (fun st => gather_tensor (shard_strategy s) st (process_group s))
               (module_parameters s))) ;;
  self <- get ;;
  let prev_params := map p_data (module_parameters self) in
  for_parameters data_from_payload ;;
  self <- get ;;
  gathered_state_dict <-
    lift (module_state_dict (module self) (map p_data (module_parameters self))) ;;
  lift (check_col_attrs (module_parameters self)) ;;
  modify (fun s => set_module_parameters s
            (on_sharded_tensors (fun _ => true)
               (fun st => shard_tensor (shard_strategy s) st (process_group s))
               (module_parameters s))) ;;
  modify (fun s => set_module_parameters s
            (restore_data prev_params (module_parameters s))) ;;
  ret gathered_state_dict.

(** The data the wrapped export sees during [state_dict]: the gathered
    payload of every parameter. *)
Definition gathered_data (s : ShardedModelV2) : list Tensor :=
  map (fun p =>
         match col_attr p with
         | Some a =>
             payload (gather_tensor (shard_strategy s) (sharded_data_tensor a)
                        (process_group s))
         | None => p_data p
         end) (module_parameters s).

(** [load_state_dict(state_dict, strict)] *)
Definition load_state_dict (state_dict0 : StateDict) (strict : bool)
  : M ShardedModelV2 unit :=
  raise NotImplementedError.

(** ** Sequence pass-through *)

(** [nn.ModuleList.__getitem__] at an integer: negative positions count from
    the end, a position outside the list is an [IndexError]. *)
Definition ModuleList_getitem (m : nn_Module) (idx : Z) : outcome string :=
  let n := Z.of_nat (List.length (submodules m)) in
  if (- n <=? idx) && (idx <? n)
  then match nth_error (submodules m) (Z.to_nat (if idx <? 0 then idx + n else idx)) with
       | Some c => Return c
       | None => Raise IndexError
       end
  else Raise IndexError.

Definition ModuleList_len (m : nn_Module) : Z :=
  Z.of_nat (List.length (submodules m)).

Definition ModuleList_iter (m : nn_Module) : list string := submodules m.

(** [assert isinstance(self.module, nn.ModuleList)] *)
Definition assert_ModuleList : M ShardedModelV2 unit :=
  self <- get ;;
  if is_ModuleList (module self) then ret tt else raise (AssertionError "").

Definition __getitem__ (idx : Z) : M ShardedModelV2 string :=
  assert_ModuleList ;;
  self <- get ;;
  lift (ModuleList_getitem (module self) idx).

Definition __len__ : M ShardedModelV2 Z :=
  assert_ModuleList ;;
  self <- get ;;
  ret (ModuleList_len (module self)).

Definition __iter__ : M ShardedModelV2 (list string) :=
  assert_ModuleList ;;
  self <- get ;;
  ret (ModuleList_iter (module self)).

(** ** Forward and backward *)

(** [forward(args, kwargs)].  The wrapped computation runs outside this
    module, and so do its operation hooks, which gather and release the
    shards around each operation; what the call is given here are the memory
    readings those hooks report to the tracker of the orchestrator. *)
Definition forward (readings : list (Z * Z)) : M ShardedModelV2 unit :=
  self <- get ;;
  when ((_iter_cnter self =? 0) && collector_truthy self)
       (on_collector start_collection) ;;
  for_each readings (fun r => on_collector (sample_memstats (fst r) (snd r))).

(** What the autodiff engine does to the orchestrator during a backward
    pass: an operation hook takes a memory reading, or the gradient of a
    parameter becomes ready and the gradient-completion callback fires.  What
    the engine then does with the value the callback returns is the
    engine's own. *)
Inductive autodiff_event : Type :=
| Reading (model_data non_model_data : Z)
| GradReady (param : nat) (grad : option Tensor).

Definition run_autodiff_event (ev : autodiff_event) : M ShardedModelV2 unit :=
  match ev with
  | Reading m o => on_collector (sample_memstats m o)
  | GradReady i g => _grad_post_backward_hook i g ;; ret tt
  end.

(** [backward(loss)] and [backward_by_grad(tensor, grad)]: the reverse pass,
    given by its trace, then the reconciliation.  [ophook.post_iter()] is the
    hooks' own. *)
Definition backward (trace : list autodiff_event) : M ShardedModelV2 unit :=
  for_each trace run_autodiff_event ;;
  _post_backward_operations.

(** A call of the training loop on the orchestrator. *)
Inductive call : Type :=
| Forward (readings : list (Z * Z))
| Backward (trace : list autodiff_event).

Definition run_call (c : call) : M ShardedModelV2 unit :=
  match c with
  | Forward readings => forward readings
  | Backward trace => backward trace
  end.

(** The orchestrator after a sequence of calls, whatever each of them
    returned or raised. *)
Definition after_calls (cs : list call) (s : ShardedModelV2) : ShardedModelV2 :=
  fold_left (fun s c => fst (run_call c s)) cs s.

(** [backward_by_grad(tensor, grad)]: the reverse pass is started from a
    tensor and its gradient instead of a loss; what follows it is the same. *)
Definition backward_by_grad (trace : list autodiff_event) : M ShardedModelV2 unit :=
  for_each trace run_autodiff_event ;;
  _post_backward_operations.

(** ** Read-only properties *)

(** The [cuda_margin_space] property. *)
Definition cuda_margin_space (self : ShardedModelV2) : Z := _cuda_margin_space self.

(** The [cpu_offload] property. *)
Definition cpu_offload (self : ShardedModelV2) : bool := _cpu_offload self.

(** ** The methods of the class, as an interface *)

(** One use of the orchestrator from outside: by the training loop, by the
    autodiff engine (the gradient-completion callback) or by the bucketer
    (the reduction-completion callback). *)
Inductive method_call : Type :=
| call_forward (readings : list (Z * Z))
| call_backward (trace : list autodiff_event)
| call_backward_by_grad (trace : list autodiff_event)
| call_update_memstats
| call_post_backward_operations
| call_grad_post_backward_hook (param : nat) (grad : option Tensor)
| call_reduce_scatter_callback (param : nat) (reduced_grad : Tensor)
| call_state_dict
| call_load_state_dict (state_dict0 : StateDict) (strict : bool)
| call_getitem (idx : Z)
| call_len
| call_iter.

(** A call whose result is dropped. *)
Definition discard {A : Type} (c : M ShardedModelV2 A) : M ShardedModelV2 unit :=
  c ;; ret tt.

Definition run_method (m : method_call) : M ShardedModelV2 unit :=
  match m with
  | call_forward readings => forward readings
  | call_backward trace => backward trace
  | call_backward_by_grad trace => backward_by_grad trace
  | call_update_memstats => _update_memstats
  | call_post_backward_operations => _post_backward_operations
  | call_grad_post_backward_hook param grad =>
      discard (_grad_post_backward_hook param grad)
  | call_reduce_scatter_callback param reduced_grad =>
      _reduce_scatter_callback param reduced_grad
  | call_state_dict => discard state_dict
  | call_load_state_dict state_dict0 strict => load_state_dict state_dict0 strict
  | call_getitem idx => discard (__getitem__ idx)
  | call_len => discard __len__
  | call_iter => discard __iter__
  end.

(** The orchestrator after a sequence of such uses, whatever each of them
    returned or raised. *)
Definition after_methods (ms : list method_call) (s : ShardedModelV2) : ShardedModelV2 :=
  fold_left (fun s m => fst (run_method m s)) ms s.

End Model.

Arguments Tensor F : clear implicits.
Arguments ShardedTensor F : clear implicits.
Arguments ShardedParamV2 F : clear implicits.
Arguments nn_Parameter F : clear implicits.
Arguments nn_Module F : clear implicits.
Arguments StateDict F : clear implicits.
Arguments BaseShardStrategy F : clear implicits.
Arguments BucketEntry F : clear implicits.
Arguments Bucket F : clear implicits.
Arguments ReduceScatterBucketer F : clear implicits.
Arguments ShardedModelV2 F : clear implicits.
Arguments autodiff_event F : clear implicits.
Arguments call F : clear implicits.
Arguments method_call F : clear implicits.

(** ** The gradient the reconciliation is to publish, in the spec's words *)

Section Authoritative.

Context {F : Type} {PF : PyFloat F}.

(** The payload selected for a parameter: the reused sharded payload in
    gradient-storage-reuse mode, otherwise the full-precision copy of
    [fp16_grad]. *)
Definition selected_payload (reuse : bool) (a : ShardedParamV2 F) : option (Tensor F) :=
  if reuse then Some (payload (sharded_data_tensor a))
  else option_map cast_tensor_to_fp32 (fp16_grad a).

(** Relocated to host memory when offload is configured for the parameter. *)
Definition relocated (a : ShardedParamV2 F) (t : Tensor F) : Tensor F :=
  if offload_grad a then mkTensor (t_dtype t) cpu (t_requires_grad t) (t_values t)
  else t.

(** Added into the pre-existing full-precision accumulator, when there is
    one; the two modes exclude each other.  This is the gradient as the
    operations of the model compute it; [authoritative] below says what it
    is. *)
Definition authoritative_gradient (reuse : bool) (a : ShardedParamV2 F)
  : option (Tensor F) :=
  match selected_payload reuse a with
  | None => None
  | Some t =>
      match fp32_grad a with
      | None => Some (relocated a t)
      | Some acc =>
          if reuse then None
          else if Nat.eqb (numel (relocated a t)) (numel acc)
                  && device_eqb (t_device acc) (t_device (relocated a t))
               then Some (mkTensor (t_dtype acc) (t_device acc) (t_requires_grad acc)
                            (add_values (t_values acc) (t_values (relocated a t))))
               else None
      end
  end.

(** What a parameter shows to the optimizer once [t] is published: its
    gradient tensor holds the storage, precision and placement of [t]. *)
Definition publishes (p : nn_Parameter F) (t : Tensor F) : Prop :=
  exists g, p_grad p = Some g /\ Tensor_data g = Tensor_data t.

(** The same, said of the tensor itself and without the operations of the
    model.  [r] holds [acc] with [t] added into it: the precision and the
    placement of [acc], and at every position the sum of the two values. *)
Definition added_into (acc t r : Tensor F) : Prop :=
  t_dtype r = t_dtype acc /\ t_device r = t_device acc
  /\ List.length (t_values r) = List.length (t_values acc)
  /\ forall i x y,
       nth_error (t_values acc) i = Some x -> nth_error (t_values t) i = Some y ->
       nth_error (t_values r) i = Some (fadd x y).

(** [t] is the authoritative gradient of the record [a]: the values of the
    reused sharded payload in reuse mode, otherwise those of [fp16_grad] in
    full precision; on the host when offload is configured; and, when the
    record carries an accumulator, added into it. *)
Definition authoritative (reuse : bool) (a : ShardedParamV2 F) (t : Tensor F) : Prop :=
  exists src,
    (if reuse then src = payload (sharded_data_tensor a) else fp16_grad a = Some src)
    /\ match fp32_grad a with
       | None =>
           t_dtype t = (if reuse then t_dtype src else float32)
           /\ t_device t = (if offload_grad a then cpu else t_device src)
           /\ t_values t = t_values src
       | Some acc => reuse = false /\ added_into acc src t
       end.

End Authoritative.

(** ** Concrete objects *)

(** A strategy that keeps the payload and only marks the record. *)
Definition marking_strategy {F : Type} : BaseShardStrategy F :=
  mkShardStrategy
    (fun st _ => mkShardedTensor (payload st) true)
    (fun st _ => mkShardedTensor (payload st) false).

Definition tensor_of {F : Type} `{PyFloat F} (dt : dtype) (dev : device) (vals : list Z)
  : Tensor F :=
  mkTensor dt dev false (map float_of_int vals).

Definition record_of {F : Type} `{PyFloat F} (sharded : bool) (vals : list Z)
    (g16 g32 : option (Tensor F)) : ShardedParamV2 F :=
  mkShardedParamV2 (mkShardedTensor (tensor_of float16 cuda vals) sharded) g16 g32 false 0.

Definition param_of {F : Type} `{PyFloat F} (trainable : bool) (grad : option (Tensor F))
    (a : option (ShardedParamV2 F)) : nn_Parameter F :=
  mkParameter trainable (tensor_of float16 cuda []) grad a.

(** A module whose export labels the data of its parameters. *)
Definition plain_module {F : Type} (ps : list (nn_Parameter F)) : nn_Module F :=
  mk_nn_Module false [] ps (fun data => Return (map (fun d => ("weight"%string, d)) data)).

(** A module whose export fails. *)
Definition failing_module {F : Type} (ps : list (nn_Parameter F)) : nn_Module F :=
  mk_nn_Module false [] ps (fun _ => Raise (UserError "state_dict hook failed")).

Definition two_workers : ProcessGroup := mkProcessGroup 0 2.

Definition model_of {F : Type} `{PyFloat F} (m : nn_Module F) (shard sync reuse : bool)
    (collector : option MemStatsCollector) : ShardedModelV2 F :=
  mkShardedModelV2 m shard two_workers two_workers 2 0 marking_strategy
    (match collector with Some _ => true | None => false end) collector 0
    false false (float_of_int 1) (float_of_int 2)
    (mkReduceScatterBucketer 25 []) sync 0 reuse.

(** The collective as seen by a worker whose peers contribute nothing. *)
Definition lone_reduce_scatter {F : Type} `{PyFloat F} (chunks : list (Tensor F))
    (g : ProcessGroup) : Tensor F :=
  nth (Z.to_nat (pg_rank g)) chunks (tensor_of float16 cuda []).

(** A trainable parameter whose reduced gradient has arrived. *)
Definition ready_param : nn_Parameter Q :=
  param_of true (Some (tensor_of float16 cuda []))
    (Some (record_of true [1; 2] (Some (tensor_of float16 cuda [3; 4])) None)).

(** A trainable parameter whose reduction is still queued. *)
Definition waiting_param : nn_Parameter Q :=
  param_of true (Some (tensor_of float16 cuda []))
    (Some (record_of true [1; 2] None None)).

(** A frozen parameter. *)
Definition frozen_param : nn_Parameter Q :=
  param_of false None (Some (record_of true [5] None None)).

(** A trainable parameter that carries an accumulator from earlier passes. *)
Definition accumulating_param : nn_Parameter Q :=
  param_of true (Some (tensor_of float16 cuda []))
    (Some (record_of true [1; 2] (Some (tensor_of float16 cuda [3; 4]))
             (Some (tensor_of float32 cuda [10; 20])))).

(** A parameter whose record is not sharded, and one without a record. *)
Definition unsharded_param : nn_Parameter Q :=
  param_of true None (Some (record_of false [1] None None)).

Definition bare_param : nn_Parameter Q := param_of true None None.

Definition sync_model : ShardedModelV2 Q :=
  model_of (plain_module [ready_param; frozen_param]) true true false None.

(** The same with the reduction of its one parameter still in a bucket. *)
Definition pending_model : ShardedModelV2 Q :=
  set_reducer
    (model_of (plain_module [waiting_param; frozen_param]) true true false None)
    (mkReduceScatterBucketer 25
       [mkBucket float16 1
          [mkBucketEntry [tensor_of float16 cuda [6]; tensor_of float16 cuda [8]]
             two_workers 0]]).

Definition nosync_model : ShardedModelV2 Q :=
  model_of (plain_module [ready_param]) true false false None.

Definition reuse_model : ShardedModelV2 Q :=
  model_of (plain_module [ready_param; accumulating_param]) true true true None.

(** At the end of the sampling iteration, with three readings taken. *)
Definition sampling_model : ShardedModelV2 Q :=
  model_of (plain_module [ready_param]) true true false
    (Some (mkMemStatsCollector true [4; 6; 5] [10; 30; 20] 3)).

Definition failing_export_model : ShardedModelV2 Q :=
  model_of (failing_module [ready_param]) true true false None.

Definition one_worker : ProcessGroup := mkProcessGroup 0 1.

(** An orchestrator over a group of one worker, with the default factor. *)
Definition single_worker_model : ShardedModelV2 Q :=
  mkShardedModelV2 (plain_module [ready_param; frozen_param]) true
    one_worker one_worker 1 0 marking_strategy false None 0
    false false (inject_Z 1) (inject_Z 1)
    (mkReduceScatterBucketer 25 []) true 0 false.

(** In binary64: a half-precision parameter, and an orchestrator over one
    worker that converts the incoming gradient to the precision of the
    parameter ([fp32_reduce_scatter]) and predivides it by 2. *)
Definition half_param : nn_Parameter float :=
  param_of true (Some (tensor_of float16 cuda []))
    (Some (record_of true [1; 2] None None)).

Definition casting_model : ShardedModelV2 float :=
  mkShardedModelV2 (plain_module [half_param]) true
    one_worker one_worker 1 0 marking_strategy false None 0
    true false 2%float 0.5%float
    (mkReduceScatterBucketer 25 []) true 0 false.

(** A full-precision gradient with a value past the largest float16 and one
    that float16 cannot hold exactly (the binary64 number nearest to 0.1). *)
Definition wide_gradient : Tensor float :=
  mkTensor float32 cuda false [100000%float; 0x1.999999999999ap-4%float; 6%float].

(** In reuse mode, with no accumulator anywhere. *)
Definition reusing_model : ShardedModelV2 Q :=
  model_of (plain_module [ready_param; frozen_param]) true true true None.

(** With a memory tracker that has taken no reading. *)
Definition unsampled_model : ShardedModelV2 Q :=
  model_of (plain_module [ready_param]) true true false (Some new_MemStatsCollector).

(** With three parameters: one whose reduction is still in a bucket, one
    that carries an accumulator, one frozen. *)
Definition accumulating_model : ShardedModelV2 Q :=
  set_reducer
    (model_of (plain_module [waiting_param; accumulating_param; frozen_param])
       true true false None)
    (mkReduceScatterBucketer 25
       [mkBucket float16 1
          [mkBucketEntry [tensor_of float16 cuda [6]; tensor_of float16 cuda [8]]
             two_workers 0]]).

(** With a first parameter whose hook never fired: it took no part in the
    pass, and nothing is queued for it. *)
Definition partly_used_model : ShardedModelV2 Q :=
  model_of (plain_module [waiting_param; ready_param]) true true false None.

(** With a parameter that lacks its record. *)
Definition incomplete_model : ShardedModelV2 Q :=
  model_of (plain_module [ready_param; bare_param]) true true false None.

(** What the constructor returns when asked for CPU offload. *)
Definition offloading_model : ShardedModelV2 Q :=
  match __init__ two_workers (plain_module [ready_param; frozen_param]) marking_strategy
          None None 25 false (Some [("device", "cpu")]%string) (Some (inject_Z 1))
          false false with
  | Return self => self
  | Raise _ => sync_model
  end.

(** A stretch of training: a forward pass, a backward pass in which the
    gradient of the first parameter arrives, and an export. *)
Definition training_stretch : list (method_call Q) :=
  [call_forward [(5, 100)];
   call_backward [Reading 7 200; GradReady 0 (Some (tensor_of float16 cuda [6; 8]))];
   call_state_dict].

(** ** The vocabulary of the properties *)

Section Vocabulary.

Context {F : Type} {PF : PyFloat F}.

(** The tracker is settled on a peak [P]: the sampling iteration is over, the
    window is closed, the recorded peak is [P], and the margin is the
    capacity less [P]. *)
Definition settled (capacity P : Z) (s : ShardedModelV2 F) : Prop :=
  0 < _iter_cnter s
  /\ _cuda_margin_space s = capacity - P
  /\ exists c, _memstats_collector s = Some c
               /\ start_flag c = false
               /\ py_max (overall_cuda c) = Return P.

(** A method keeps a property of the orchestrator, whatever it returns or
    raises. *)
Definition preserves {A : Type} (I : ShardedModelV2 F -> Prop)
    (c : M (ShardedModelV2 F) A) : Prop :=
  forall s, I s -> I (fst (c s)).

(** A property of the tracker does not see the parameters or the bucketer. *)
Definition tracker_only (I : ShardedModelV2 F -> Prop) : Prop :=
  (forall s ps, I s -> I (set_module_parameters s ps))
  /\ (forall s r, I s -> I (set_reducer s r)).

(** What the callbacks and the strategy never write: all of a parameter but
    the sharded tensor and [fp16_grad] of its record. *)
Definition shard_view (p : nn_Parameter F)
  : dtype * bool * Tensor F * option (Tensor F)
    * option (option (Tensor F) * bool * Z) :=
  (p_dtype p, p_requires_grad p, p_data p, p_grad p,
   option_map (fun a => (fp32_grad a, offload_grad a, bwd_count a)) (col_attr p)).

(** A property that does not see the bucketer, nor the sharded tensors and
    [fp16_grad] of the records. *)
Definition shard_blind (I : ShardedModelV2 F -> Prop) : Prop :=
  (forall s ps, map shard_view ps = map shard_view (module_parameters s) ->
                I s -> I (set_module_parameters s ps))
  /\ (forall s r, I s -> I (set_reducer s r)).

(** A property that does not see the memory tracker. *)
Definition tracker_blind (I : ShardedModelV2 F -> Prop) : Prop :=
  (forall s c, I s -> I (set_memstats_collector s c))
  /\ (forall s n, I s -> I (set_iter_cnter s n))
  /\ (forall s m, I s -> I (set_cuda_margin_space s m)).

(** A property of the configuration does not see what a pass mutates. *)
Definition config_only (I : ShardedModelV2 F -> Prop) : Prop :=
  tracker_only I /\ tracker_blind I.

(** The memory tracker can be updated: there is none, or it holds a reading. *)
Definition tracker_ready (s : ShardedModelV2 F) : Prop :=
  match _memstats_collector s with
  | Some c => overall_cuda c <> []
  | None => True
  end.

(** A parameter the loop can reconcile: it has its record, and when it is
    trainable it has a gradient tensor and a defined authoritative gradient. *)
Definition ready (reuse : bool) (p : nn_Parameter F) : Prop :=
  exists a, col_attr p = Some a
            /\ (p_requires_grad p = true ->
                p_grad p <> None /\ authoritative_gradient reuse a <> None).

(** What the loop leaves of a parameter it found as [p]. *)
Definition reconciled (reuse : bool) (p p' : nn_Parameter F) : Prop :=
  (exists a', col_attr p' = Some a' /\ bwd_count a' = 0)
  /\ (p_requires_grad p = true ->
      exists a a' t,
        col_attr p = Some a /\ authoritative_gradient reuse a = Some t
        /\ publishes p' t
        /\ col_attr p' = Some a' /\ fp16_grad a' = None /\ fp32_grad a' = None).

(** A parameter whose gradient can be published: it has its record and,
    when it is trainable, a gradient tensor; outside reuse mode its reduced
    gradient has arrived in [fp16_grad] (its hook fired), and an accumulator
    has as many elements and lives where the gradient will; in reuse mode it
    has no accumulator. *)
Definition publishable (reuse : bool) (p : nn_Parameter F) : Prop :=
  exists a, col_attr p = Some a
            /\ (p_requires_grad p = true ->
                p_grad p <> None
                /\ (if reuse then fp32_grad a = None
                    else exists g,
                        fp16_grad a = Some g
                        /\ forall acc, fp32_grad a = Some acc ->
                             numel g = numel acc
                             /\ t_device acc
                                = (if offload_grad a then cpu else t_device g))).

(** What the claim says of a parameter found as [p] and left as [p']: the
    counter is zero and, when it is trainable, its gradient is the
    authoritative one and both buffers of its record are [None]. *)
Definition published (reuse : bool) (p p' : nn_Parameter F) : Prop :=
  (exists a', col_attr p' = Some a' /\ bwd_count a' = 0)
  /\ (p_requires_grad p = true ->
      exists a a' g',
        col_attr p = Some a /\ p_grad p' = Some g' /\ authoritative reuse a g'
        /\ col_attr p' = Some a' /\ fp16_grad a' = None /\ fp32_grad a' = None).

(** The exception class of a failed [assert]. *)
Definition is_assertion (e : exn) : Prop := exists msg, e = AssertionError msg.

(** The contract of a strategy this development relies on: a record handed
    to [shard] comes back marked as sharded. *)
Definition shard_marks (strategy : BaseShardStrategy F) : Prop :=
  forall st g, is_sharded (shard_tensor strategy st g) = true.

(** A parameter that has its record, marked as sharded. *)
Definition sharded_record (p : nn_Parameter F) : Prop :=
  option_map param_is_sharded (col_attr p) = Some true.

(** Run on a state whose buckets are released and whose records are sharded
    (when the model is), the steps before the loop leave the parameters as
    they are. *)
Definition at_rest (ps : list (nn_Parameter F)) (s : ShardedModelV2 F) : Prop :=
  module_parameters s = ps
  /\ buckets (reducer s) = []
  /\ (shard_param s = true -> Forall sharded_record ps).

(** Gathering and then sharding gives the record back: the round trip the
    strategy owes for the records of a sharded model. *)
Definition round_trips (s : ShardedModelV2 F) (p : nn_Parameter F) : Prop :=
  exists a,
    col_attr p = Some a
    /\ shard_tensor (shard_strategy s)
         (gather_tensor (shard_strategy s) (sharded_data_tensor a) (process_group s))
         (process_group s)
       = sharded_data_tensor a.

(** *** Views of a parameter and of the orchestrator *)

(** Everything of a parameter but [offload_grad] of its record. *)
Definition beside_offload (p : nn_Parameter F)
  : dtype * bool * Tensor F * option (Tensor F)
    * option (ShardedTensor F * option (Tensor F) * option (Tensor F) * Z) :=
  (p_dtype p, p_requires_grad p, p_data p, p_grad p,
   option_map (fun a => (sharded_data_tensor a, fp16_grad a, fp32_grad a, bwd_count a))
     (col_attr p)).

(** Everything of a parameter but the sharded tensor and the backward counter
    of its record. *)
Definition accumulation_view (p : nn_Parameter F)
  : dtype * bool * Tensor F * option (Tensor F)
    * option (option (Tensor F) * option (Tensor F) * bool) :=
  (p_dtype p, p_requires_grad p, p_data p, p_grad p,
   option_map (fun a => (fp16_grad a, fp32_grad a, offload_grad a)) (col_attr p)).

(** Everything of a parameter but its data (with the precision the data
    gives it) and the sharded tensor of its record. *)
Definition gradient_view (p : nn_Parameter F)
  : bool * option (Tensor F)
    * option (option (Tensor F) * option (Tensor F) * bool * Z) :=
  (p_requires_grad p, p_grad p,
   option_map (fun a => (fp16_grad a, fp32_grad a, offload_grad a, bwd_count a))
     (col_attr p)).

(** Whether a parameter is trainable, whether it has its record, and where
    the record says its gradient is to live. *)
Definition identity_view (p : nn_Parameter F) : bool * option bool :=
  (p_requires_grad p, option_map offload_grad (col_attr p)).

(** Of a frozen parameter, its gradient and the accumulator of its record. *)
Definition frozen_view (p : nn_Parameter F)
  : option (option (Tensor F) * option (option (Tensor F))) :=
  if p_requires_grad p then None
  else Some (p_grad p, option_map fp32_grad (col_attr p)).

(** The sharded tensor of the record of a parameter. *)
Definition shard_of (p : nn_Parameter F) : option (ShardedTensor F) :=
  option_map sharded_data_tensor (col_attr p).

(** What the constructor fixes: every attribute of the orchestrator but the
    parameters of the module, the bucketer and the memory tracker with its
    counter and margin. *)
Definition configuration (s : ShardedModelV2 F)
  : bool * list string * (list (Tensor F) -> outcome (StateDict F))
    * bool * ProcessGroup * ProcessGroup * Z * Z * BaseShardStrategy F
    * bool * bool * bool * F * F * bool * bool :=
  (is_ModuleList (module s), submodules (module s), module_state_dict (module s),
   shard_param s, process_group s, reduce_scatter_process_group s,
   world_size s, rank s, shard_strategy s,
   _use_memory_tracer s, fp32_reduce_scatter s, _cpu_offload s,
   gradient_predivide_factor s, gradient_postdivide_factor s,
   _require_backward_grad_sync s, reuse_fp16_shard s).

(** A view of a parameter that no method writes: neither the callbacks and
    the strategy, nor the reconciliation loop, nor an assignment to the data
    of the parameter. *)
Definition lasting {X : Type} (view : nn_Parameter F -> X) : Prop :=
  (forall p p', shard_view p = shard_view p' -> view p = view p')
  /\ (forall sync reuse p, view (fst (reconcile_param sync reuse p)) = view p)
  /\ (forall p d, view (set_p_data p d) = view p).

(** A property of the orchestrator that every method carries along: it sees
    the parameters only through a lasting view, does not see the bucketer,
    and survives what the methods do to the memory tracker. *)
Definition carried {X : Type} (capacity : Z) (view : nn_Parameter F -> X)
    (I : ShardedModelV2 F -> Prop) : Prop :=
  lasting view
  /\ (forall s ps, map view ps = map view (module_parameters s) ->
                   I s -> I (set_module_parameters s ps))
  /\ (forall s r, I s -> I (set_reducer s r))
  /\ (forall f, preserves I (on_collector f))
  /\ preserves I (_update_memstats capacity).

(** A parameter as [state_dict] shows it to the wrapped export: the tensor
    of its record gathered, its data the gathered payload. *)
Definition gathered_param (s : ShardedModelV2 F) (p : nn_Parameter F) : nn_Parameter F :=
  match col_attr p with
  | Some a =>
      let st := gather_tensor (shard_strategy s) (sharded_data_tensor a)
                  (process_group s) in
      mkParameter (p_requires_grad p) (payload st) (p_grad p)
        (Some (set_sharded_data_tensor a st))
  | None => p
  end.

(** A parameter as [state_dict] leaves it when it returns: the tensor of its
    record gathered and sharded again, its data as before. *)
Definition resharded_param (s : ShardedModelV2 F) (p : nn_Parameter F) : nn_Parameter F :=
  match col_attr p with
  | Some a =>
      set_col_attr p
        (set_sharded_data_tensor a
           (shard_tensor (shard_strategy s)
              (gather_tensor (shard_strategy s) (sharded_data_tensor a)
                 (process_group s))
              (process_group s)))
  | None => p
  end.

(** [t.div_(f)] under the guard [if f > 1], on one value. *)
Definition divided_if_above_one (f x : F) : F :=
  if fltb (float_of_int 1) f then fdiv x f else x.

(** Every parameter has its record, with the sharding flag [b]. *)
Definition uniformly_sharded (b : bool) (ps : list (nn_Parameter F)) : Prop :=
  Forall (fun p => exists a, col_attr p = Some a /\ param_is_sharded a = b) ps.

End Vocabulary.

(** * Properties *)

Section Properties.

Context {F : Type} {PF : PyFloat F}.
Variable reduce_scatter : list (Tensor F) -> ProcessGroup -> Tensor F.
Variable colo_cuda_memory_capacity : Z.
Variable gpc_data_group : ProcessGroup.

Implicit Types I : ShardedModelV2 F -> Prop.

(** *** Tactics *)

Ltac run := unfold bind, get, modify, ret, raise, lift, when in *; simpl in *.

Ltac destruct_param p :=
  let a := fresh "a" in
  destruct p as [?rg ?d ?g [a|]];
  [destruct a as [[?pl ?sh] ?f16 ?f32 ?off ?bc]|].

Ltac simp_eqs :=
  repeat match goal with
  | H : Return _ = Return _ |- _ => injection H; clear H; intros; subst
  | H : Some _ = Some _ |- _ => injection H; clear H; intros; subst
  | H : (_, _) = (_, _) |- _ => injection H; clear H; intros; subst
  | H : Return _ = Raise _ |- _ => discriminate H
  | H : Raise _ = Return _ |- _ => discriminate H
  | H : Some _ = None |- _ => discriminate H
  | H : None = Some _ |- _ => discriminate H
  | H : true = false |- _ => discriminate H
  | H : false = true |- _ => discriminate H
  end.

Ltac break_match :=
  match goal with
  | |- context [match ?x with _ => _ end] => destruct x eqn:?
  | H : context [match ?x with _ => _ end] |- _ => destruct x eqn:?
  end.

Ltac unfold_reconcile :=
  cbv [reconcile_param set_attr get_col_attr bind get modify ret raise lift
       Tensor_view_as Tensor_add_ authoritative_gradient selected_payload
       relocated option_map] in *;
  cbn in *.

Ltac crush_reconcile :=
  unfold_reconcile; simp_eqs;
  repeat (break_match; cbn in *; simp_eqs);
  try reflexivity; try discriminate; try congruence.

(** *** Record housekeeping *)

Lemma set_module_parameters_same (s : ShardedModelV2 F) :
  set_module_parameters s (module_parameters s) = s.
Proof. destruct s as [[? ? ? ?] ? ? ? ? ? ? ? ? ? ? ? ? ? ? ? ? ?]. reflexivity. Qed.

Lemma module_parameters_set (s : ShardedModelV2 F) ps :
  module_parameters (set_module_parameters s ps) = ps.
Proof. reflexivity. Qed.

(** *** Sequence pass-through and state-dict load *)

(** C8: [load_state_dict] raises [NotImplementedError] for every input and
    leaves the orchestrator, with the sharding state and data of every
    parameter, exactly as it was. *)
Theorem load_state_dict_unsupported (self : ShardedModelV2 F) (sd : StateDict F)
    (strict : bool) :
  load_state_dict sd strict self = (self, Raise NotImplementedError).
Proof. reflexivity. Qed.

(** C10: indexing, length and iteration delegate to the wrapped module when it
    is an [nn.ModuleList] and fail with an assertion error (state untouched)
    when it is not. *)
Theorem sequence_pass_through_guarded (self : ShardedModelV2 F) (idx : Z) :
  __getitem__ idx self
  = (self, if is_ModuleList (module self)
           then ModuleList_getitem (module self) idx
           else Raise (AssertionError ""))
  /\ __len__ self
     = (self, if is_ModuleList (module self)
              then Return (ModuleList_len (module self))
              else Raise (AssertionError ""))
  /\ __iter__ self
     = (self, if is_ModuleList (module self)
              then Return (ModuleList_iter (module self))
              else Raise (AssertionError "")).
Proof.
  unfold __getitem__, __len__, __iter__, assert_ModuleList. run.
  destruct (is_ModuleList (module self)); simpl; auto.
Qed.

(** *** Construction *)

Lemma collect_sharded_raises (ps : list (nn_Parameter F)) e :
  collect_sharded ps = Raise e -> exists msg, e = AssertionError msg.
Proof.
  induction ps as [|p ps IH]; simpl; [discriminate|].
  destruct (col_attr p); [|intros [= <-]; eauto].
  destruct (collect_sharded ps); [discriminate|].
  intros [= <-]. apply IH. reflexivity.
Qed.

Lemma collect_sharded_returns (ps : list (nn_Parameter F)) l :
  collect_sharded ps = Return l ->
  Forall2 (fun p b => exists a, col_attr p = Some a /\ param_is_sharded a = b) ps l.
Proof.
  revert l. induction ps as [|p ps IH]; simpl; intros l.
  - intros [= <-]. constructor.
  - destruct (col_attr p) as [a|] eqn:Ha; [|discriminate].
    destruct (collect_sharded ps) as [l'|]; [|discriminate].
    intros [= <-]. constructor; eauto.
Qed.

Lemma all_false_of_member (bs : list bool) :
  In false bs -> all bs = false.
Proof.
  unfold all. induction bs as [|b bs IH]; simpl; [tauto|].
  intros [->|H]; [reflexivity|]. rewrite (IH H). apply andb_false_r.
Qed.

Lemma Forall2_In_left {A B} (R : A -> B -> Prop) xs ys x :
  Forall2 R xs ys -> In x xs -> exists y, In y ys /\ R x y.
Proof.
  induction 1 as [|a b xs ys Hab _ IH]; simpl; [tauto|].
  intros [->|Hin]; [eauto|]. destruct (IH Hin) as (y & ? & ?); eauto.
Qed.

(** C6: a module with a parameter that lacks its ShardRecord, or with one
    parameter sharded and another not, is refused by the constructor with an
    assertion error: no orchestrator comes to exist. *)
Theorem init_refuses_mixed_or_missing
    (m : nn_Module F) (strategy : BaseShardStrategy F)
    (pg rs_pg : option ProcessGroup) (mb : Z) (fp32 : bool)
    (offload_config : option (list (string * string))) (pre : option F)
    (tracer reuse : bool) :
  (exists p, In p (parameters m) /\ col_attr p = None)
  \/ (exists p q a b,
        In p (parameters m) /\ In q (parameters m)
        /\ col_attr p = Some a /\ col_attr q = Some b
        /\ param_is_sharded a = true /\ param_is_sharded b = false) ->
  exists msg,
    __init__ gpc_data_group m strategy pg rs_pg mb fp32 offload_config pre tracer reuse
    = Raise (AssertionError msg).
Proof.
  intros H. unfold __init__.
  destruct (collect_sharded (parameters m)) as [l|e] eqn:Hc.
  - pose proof (collect_sharded_returns _ _ Hc) as Hl.
    destruct H as [(p & Hin & Hnone) | (p & q & a & b & Hp & Hq & Ha & Hb & Hsa & Hsb)].
    + destruct (Forall2_In_left _ _ _ _ Hl Hin) as (y & _ & a & Ha & _). congruence.
    + destruct (Forall2_In_left _ _ _ _ Hl Hp) as (y & Hy & a' & Ha' & <-).
      destruct (Forall2_In_left _ _ _ _ Hl Hq) as (z & Hz & b' & Hb' & <-).
      assert (a' = a) by congruence. assert (b' = b) by congruence. subst.
      rewrite Hsb in Hz. rewrite Hsa in Hy.
      rewrite (all_false_of_member l Hz).
      rewrite (all_false_of_member (map negb l)).
      * simpl. eauto.
      * change false with (negb true). apply in_map. exact Hy.
  - destruct (collect_sharded_raises _ _ Hc) as [msg ->]. eauto.
Qed.

Example init_refuses_missing_record :
  exists msg,
    __init__ two_workers (plain_module [ready_param; bare_param]) marking_strategy
      None None 25 false None (Some (inject_Z 1)) false false
    = Raise (AssertionError msg).
Proof. eexists. reflexivity. Qed.

(** What the constructor stores as the two factors, in any arithmetic. *)
Lemma init_factors
    (m : nn_Module F) (strategy : BaseShardStrategy F)
    (pg rs_pg : option ProcessGroup) (mb : Z) (fp32 : bool)
    (offload_config : option (list (string * string))) (pre : option F)
    (tracer reuse : bool) (self : ShardedModelV2 F) :
  __init__ gpc_data_group m strategy pg rs_pg mb fp32 offload_config pre tracer reuse
  = Return self ->
  gradient_predivide_factor self
  = match pre with
    | Some f => f
    | None => get_gradient_predivide_factor (world_size self)
    end
  /\ py_truediv (float_of_int (world_size self)) (gradient_predivide_factor self)
     = Return (gradient_postdivide_factor self).
Proof.
  unfold __init__.
  destruct (collect_sharded (parameters m)); [|discriminate].
  destruct (negb _); [discriminate|].
  destruct (py_truediv _ _) eqn:Hd; [|discriminate].
  intros [= <-]. simpl. auto.
Qed.

(** *** The gradient-completion callback in no-sync mode *)

(** With synchronization disabled the callback never changes the
    orchestrator: nothing is queued and no ShardRecord is written, whatever
    the gradient. *)
Lemma hook_without_sync_frame (self : ShardedModelV2 F) (param : nat)
    (grad : option (Tensor F)) :
  _require_backward_grad_sync self = false ->
  fst (_grad_post_backward_hook reduce_scatter param grad self) = self.
Proof.
  intros Hs. unfold _grad_post_backward_hook.
  destruct grad as [g|]; [|reflexivity].
  destruct (t_requires_grad g); [reflexivity|].
  run. rewrite Hs. reflexivity.
Qed.

(** The precision assertion stands before the test of the no-sync flag: a
    gradient that itself requires differentiation is refused in both modes. *)
Lemma hook_refuses_differentiable_gradient (self : ShardedModelV2 F) (param : nat)
    (g : Tensor F) :
  t_requires_grad g = true ->
  exists msg,
    _grad_post_backward_hook reduce_scatter param (Some g) self
    = (self, Raise (AssertionError msg)).
Proof.
  intros Hg. unfold _grad_post_backward_hook. rewrite Hg. eexists. reflexivity.
Qed.

(** C3: with synchronization disabled the callback leaves the orchestrator
    (bucketer and every ShardRecord included) as it found it, and for a
    gradient that does not itself require differentiation it returns at once
    with no replacement gradient. *)
Theorem hook_without_sync (self : ShardedModelV2 F) (param : nat)
    (grad : option (Tensor F)) :
  _require_backward_grad_sync self = false ->
  fst (_grad_post_backward_hook reduce_scatter param grad self) = self
  /\ reducer (fst (_grad_post_backward_hook reduce_scatter param grad self))
     = reducer self
  /\ map col_attr
       (module_parameters (fst (_grad_post_backward_hook reduce_scatter param grad self)))
     = map col_attr (module_parameters self)
  /\ (match grad with Some g => t_requires_grad g | None => false end = false ->
      snd (_grad_post_backward_hook reduce_scatter param grad self) = Return None).
Proof.
  intros Hs. rewrite (hook_without_sync_frame self param grad Hs).
  repeat split. intros Hg. unfold _grad_post_backward_hook.
  destruct grad as [g|]; [|reflexivity].
  rewrite Hg. run. rewrite Hs. reflexivity.
Qed.

(** *** The margin estimate *)

Lemma preserves_ret {A} (I : ShardedModelV2 F -> Prop) (a : A) : preserves I (ret a).
Proof. intros s H. exact H. Qed.

Lemma preserves_raise {A} (I : ShardedModelV2 F -> Prop) e : preserves I (@raise _ A e).
Proof. intros s H. exact H. Qed.

Lemma preserves_lift {A} (I : ShardedModelV2 F -> Prop) (o : outcome A) :
  preserves I (lift o).
Proof. intros s H. exact H. Qed.

Lemma preserves_get (I : ShardedModelV2 F -> Prop) : preserves I get.
Proof. intros s H. exact H. Qed.

Lemma preserves_bind {A B} I (c : M (ShardedModelV2 F) A)
    (k : A -> M (ShardedModelV2 F) B) :
  preserves I c -> (forall a, preserves I (k a)) -> preserves I (bind c k).
Proof.
  intros Hc Hk s H. unfold bind. specialize (Hc s H).
  destruct (c s) as [s' [a|e]]; simpl in *; [apply Hk|]; exact Hc.
Qed.

Lemma preserves_modify I (f : ShardedModelV2 F -> ShardedModelV2 F) :
  (forall s, I s -> I (f s)) -> preserves I (modify f).
Proof. intros Hf s H. apply Hf, H. Qed.

Lemma preserves_when I b (c : M (ShardedModelV2 F) unit) :
  preserves I c -> preserves I (when b c).
Proof. destruct b; simpl; [auto|]. intros _. apply preserves_ret. Qed.

Lemma preserves_for_each {A} I (xs : list A) (body : A -> M (ShardedModelV2 F) unit) :
  (forall x, preserves I (body x)) -> preserves I (for_each xs body).
Proof.
  intros Hb. induction xs as [|x xs IH]; simpl.
  - apply preserves_ret.
  - apply preserves_bind; auto.
Qed.

Lemma settled_tracker_only P :
  tracker_only (settled (F:=F) colo_cuda_memory_capacity P).
Proof. split; intros s x H; exact H. Qed.

Lemma tracker_only_shard_blind I : tracker_only I -> shard_blind I.
Proof. intros [Hp Hr]. split; [intros s ps _; apply Hp|exact Hr]. Qed.

Lemma map_list_set {A B} (f : A -> B) i x y (l : list A) :
  nth_error l i = Some x -> f y = f x -> map f (list_set i y l) = map f l.
Proof.
  revert i. induction l as [|z l IH]; intros [|i]; simpl; try discriminate.
  - intros [= ->] ->. reflexivity.
  - intros Hn Hf. rewrite (IH i Hn Hf). reflexivity.
Qed.

Lemma preserves_get_param I i : preserves I (get_param i).
Proof.
  intros s H. unfold get_param.
  destruct (nth_error (module_parameters s) i); exact H.
Qed.

Lemma preserves_callback I i t :
  shard_blind I -> preserves I (_reduce_scatter_callback i t).
Proof.
  intros [Hp _] s H.
  unfold _reduce_scatter_callback, bind, get, get_param, lift, get_col_attr,
    put_param, modify.
  destruct (nth_error (module_parameters s) i) as [p|] eqn:Hn; [|exact H].
  destruct (col_attr p) as [a|] eqn:Ha; [|exact H].
  destruct (reuse_fp16_shard s); simpl; (apply Hp; [|exact H]);
    apply (map_list_set shard_view i p _ _ Hn);
    unfold shard_view; simpl; rewrite Ha; reflexivity.
Qed.

Lemma preserves_run_entries I es :
  shard_blind I -> preserves I (for_each es (run_entry reduce_scatter)).
Proof.
  intros HI. apply preserves_for_each. intros e. apply preserves_callback, HI.
Qed.

Lemma preserves_flush I : shard_blind I -> preserves I (reducer_flush reduce_scatter).
Proof.
  intros HI. unfold reducer_flush.
  apply preserves_bind; [apply preserves_get|intros self].
  apply preserves_bind; [|intros _; apply preserves_run_entries, HI].
  apply preserves_modify. intros s H. apply HI, H.
Qed.

Lemma preserves_free I : shard_blind I -> preserves I reducer_free.
Proof. intros HI. apply preserves_modify. intros s H. apply HI, H. Qed.

Lemma preserves_reduce_scatter_async I chunks g i :
  shard_blind I -> preserves I (reduce_scatter_async reduce_scatter chunks g i).
Proof.
  intros HI. unfold reduce_scatter_async.
  apply preserves_bind; [apply preserves_get|intros self].
  destruct (queue_entry _ _ _) as [bs flushed].
  apply preserves_bind; [|intros _; apply preserves_run_entries, HI].
  apply preserves_modify. intros s H. apply HI, H.
Qed.

Lemma preserves_hook I i g :
  shard_blind I -> preserves I (_grad_post_backward_hook reduce_scatter i g).
Proof.
  intros HI. unfold _grad_post_backward_hook.
  destruct g as [g|]; [|apply preserves_ret].
  destruct (t_requires_grad g); [apply preserves_raise|].
  apply preserves_bind; [apply preserves_get|intros self].
  destruct (negb _); [apply preserves_ret|].
  apply preserves_bind.
  - destruct (fp32_reduce_scatter self); [|apply preserves_ret].
    apply preserves_bind; [apply preserves_get_param|intros p; apply preserves_ret].
  - intros t. apply preserves_bind; [|intros _; apply preserves_ret].
    destruct (1 <? world_size self).
    + apply preserves_reduce_scatter_async, HI.
    + apply preserves_callback, HI.
Qed.

Lemma on_sharded_tensors_view sel op (ps : list (nn_Parameter F)) :
  map shard_view (on_sharded_tensors sel op ps) = map shard_view ps.
Proof.
  induction ps as [|p ps IH]; simpl; [reflexivity|]. rewrite IH. f_equal.
  destruct (col_attr p) as [a|] eqn:Ha; [|reflexivity].
  destruct (sel a); [|reflexivity].
  unfold shard_view. simpl. rewrite Ha. reflexivity.
Qed.

Lemma preserves_shard_unsharded I : shard_blind I -> preserves I shard_unsharded.
Proof.
  intros [Hp _]. unfold shard_unsharded.
  apply preserves_bind; [apply preserves_get|intros self].
  apply preserves_bind; [apply preserves_lift|intros _].
  apply preserves_modify. intros s H. apply Hp; [|exact H].
  apply on_sharded_tensors_view.
Qed.

Lemma preserves_reconcile_params I : tracker_only I -> preserves I reconcile_params.
Proof.
  intros [Hp _] s H. unfold reconcile_params.
  destruct (for_objects _ _) as [ps r]. simpl. apply Hp, H.
Qed.

Lemma sample_settled P m o s :
  settled (F:=F) colo_cuda_memory_capacity P s -> settled (F:=F) colo_cuda_memory_capacity P (set_memstats_collector s
                              (option_map (sample_memstats m o) (_memstats_collector s))).
Proof.
  intros (Hi & Hm & c & Hc & Hf & HP). repeat split; try assumption.
  exists c. simpl. rewrite Hc. simpl. unfold sample_memstats. rewrite Hf. auto.
Qed.

Lemma preserves_sample P m o : preserves (settled (F:=F) colo_cuda_memory_capacity P) (on_collector (sample_memstats m o)).
Proof. apply preserves_modify. intros s. apply sample_settled. Qed.

Lemma preserves_update_memstats P :
  preserves (settled (F:=F) colo_cuda_memory_capacity P) (_update_memstats colo_cuda_memory_capacity).
Proof.
  intros s (Hi & Hm & c & Hc & Hf & HP). unfold _update_memstats. run.
  destruct (_iter_cnter s =? 0) eqn:Hz; [lia|]. run.
  rewrite Hc. run. rewrite HP. run. rewrite Hc.
  repeat split; simpl; [lia|].
  exists (reset_sampling_cnter c). auto.
Qed.

Lemma preserves_post_backward P :
  preserves (settled (F:=F) colo_cuda_memory_capacity P) (_post_backward_operations reduce_scatter colo_cuda_memory_capacity).
Proof.
  pose proof (settled_tracker_only P) as HI.
  pose proof (tracker_only_shard_blind _ HI) as HB. unfold _post_backward_operations.
  apply preserves_bind; [apply preserves_update_memstats|intros _].
  apply preserves_bind; [apply preserves_get|intros self].
  apply preserves_bind; [apply preserves_when, preserves_flush, HB|intros _].
  apply preserves_bind; [apply preserves_free, HB|intros _].
  apply preserves_bind; [apply preserves_get|intros self'].
  apply preserves_bind; [apply preserves_when, preserves_shard_unsharded, HB|intros _].
  apply preserves_reconcile_params, HI.
Qed.

Lemma preserves_forward P readings : preserves (settled (F:=F) colo_cuda_memory_capacity P) (forward readings).
Proof.
  intros s Hs. unfold forward, bind at 1, get.
  destruct Hs as (Hi & Hs).
  destruct (_iter_cnter s =? 0) eqn:Hz; [lia|]. cbn [andb when].
  apply (preserves_bind (settled (F:=F) colo_cuda_memory_capacity P) (ret tt)); [apply preserves_ret| |split; assumption].
  intros _. apply preserves_for_each. intros r. apply preserves_sample.
Qed.

Lemma preserves_autodiff_event P ev :
  preserves (settled (F:=F) colo_cuda_memory_capacity P) (run_autodiff_event reduce_scatter ev).
Proof.
  destruct ev as [m o|i g]; simpl.
  - apply preserves_sample.
  - apply preserves_bind; [|intros _; apply preserves_ret].
    apply preserves_hook, tracker_only_shard_blind, settled_tracker_only.
Qed.

Lemma preserves_backward P trace :
  preserves (settled (F:=F) colo_cuda_memory_capacity P) (backward reduce_scatter colo_cuda_memory_capacity trace).
Proof.
  unfold backward. apply preserves_bind; [|intros _; apply preserves_post_backward].
  apply preserves_for_each. intros ev. apply preserves_autodiff_event.
Qed.

Lemma settled_after_calls P (cs : list (call F)) s :
  settled (F:=F) colo_cuda_memory_capacity P s ->
  settled (F:=F) colo_cuda_memory_capacity P (after_calls reduce_scatter colo_cuda_memory_capacity cs s).
Proof.
  revert s. induction cs as [|c cs IH]; simpl; intros s H; [exact H|].
  apply IH. destruct c as [readings|trace]; simpl.
  - apply preserves_forward, H.
  - apply preserves_backward, H.
Qed.

Lemma update_memstats_settles (self : ShardedModelV2 F) c P :
  _iter_cnter self = 0 ->
  _memstats_collector self = Some c ->
  py_max (overall_cuda c) = Return P ->
  settled (F:=F) colo_cuda_memory_capacity P (fst (_update_memstats colo_cuda_memory_capacity self))
  /\ snd (_update_memstats colo_cuda_memory_capacity self) = Return tt.
Proof.
  intros Hi Hc HP. unfold _update_memstats, collector_truthy. run.
  rewrite Hi, Hc. run. rewrite Hc. run. rewrite HP. run. rewrite ?Hc, ?Hi.
  unfold settled. simpl. repeat split.
  exists (reset_sampling_cnter (finish_collection c)). auto.
Qed.


(** *** The reconciliation loop, one parameter at a time *)

(** A trainable parameter with a gradient tensor and a defined authoritative
    gradient is reconciled without error: the gradient is published and the
    record cleared. *)
Lemma reconcile_param_publishes reuse (p : nn_Parameter F) a g t :
  col_attr p = Some a ->
  p_requires_grad p = true ->
  p_grad p = Some g ->
  authoritative_gradient reuse a = Some t ->
  reconcile_param true reuse p
  = (mkParameter true (p_data p) (Some (Tensor_set_data g t))
       (Some (mkShardedParamV2
                (if reuse then mkShardedTensor t (is_sharded (sharded_data_tensor a))
                 else sharded_data_tensor a)
                None None (offload_grad a) 0)),
     Return tt).
Proof.
  destruct_param p; cbn; intros Ha Hrg Hg Ht; try discriminate.
  injection Ha as <-. subst rg g0.
  destruct reuse, off, f16 as [g16|], f32 as [acc|]; crush_reconcile.
Qed.

(** Conversely, a pass over a trainable parameter that returns had those to
    work with. *)
Lemma reconcile_param_returned reuse (p p' : nn_Parameter F) :
  reconcile_param true reuse p = (p', Return tt) ->
  p_requires_grad p = true ->
  exists a g t,
    col_attr p = Some a /\ p_grad p = Some g
    /\ authoritative_gradient reuse a = Some t.
Proof.
  destruct_param p; cbn; intros H Hrg; subst.
  - destruct reuse, off, f16 as [g16|], f32 as [acc|], g as [g|];
      crush_reconcile;
      do 3 eexists; (split; [reflexivity|split; [reflexivity|]]);
      unfold numel in *; cbn in *;
      repeat match goal with H : _ = true |- _ => rewrite H end; reflexivity.
  - crush_reconcile.
Qed.

(** A frozen parameter, or any parameter of a pass without synchronization,
    only has its counter reset. *)
Lemma reconcile_param_skips sync reuse (p : nn_Parameter F) a :
  col_attr p = Some a ->
  p_requires_grad p = false \/ sync = false ->
  reconcile_param sync reuse p = (set_col_attr p (set_bwd_count a 0), Return tt).
Proof.
  destruct_param p; cbn; intros Ha Hs; try discriminate.
  injection Ha as <-.
  destruct Hs as [->| ->]; [|destruct rg]; crush_reconcile.
Qed.

Lemma reconcile_param_needs_record sync reuse (p p' : nn_Parameter F) r :
  reconcile_param sync reuse p = (p', r) ->
  col_attr p = None -> r = Raise AttributeError.
Proof. destruct_param p; cbn; intros H Ha; [discriminate|]. crush_reconcile. Qed.

(** In reuse mode a trainable parameter that holds an accumulator stops the
    synchronized pass with the assertion. *)
Lemma reconcile_param_refuses_accumulation (p : nn_Parameter F) a acc :
  col_attr p = Some a ->
  p_requires_grad p = true ->
  fp32_grad a = Some acc ->
  exists msg, snd (reconcile_param true true p) = Raise (AssertionError msg).
Proof.
  destruct_param p; cbn; intros Ha Hrg Hacc; try discriminate.
  injection Ha as <-. subst. destruct off; crush_reconcile; eauto.
Qed.

(** No pass over a parameter changes whether it is trainable, its data, or
    whether its record is sharded. *)
Lemma reconcile_param_frame sync reuse (p : nn_Parameter F) :
  p_requires_grad (fst (reconcile_param sync reuse p)) = p_requires_grad p
  /\ p_data (fst (reconcile_param sync reuse p)) = p_data p
  /\ option_map param_is_sharded (col_attr (fst (reconcile_param sync reuse p)))
      = option_map param_is_sharded (col_attr p).
Proof.
  destruct_param p; cbn.
  - destruct sync, reuse, rg, off, f16 as [g16|], f32 as [acc|], g as [g|];
      crush_reconcile; auto.
  - crush_reconcile; auto.
Qed.

(** *** The reconciliation loop over all parameters *)

Lemma for_objects_returns {P} (body : P -> P * outcome unit) ps :
  snd (for_objects body ps) = Return tt ->
  Forall2 (fun p p' => body p = (p', Return tt)) ps (fst (for_objects body ps)).
Proof.
  induction ps as [|p ps IH]; simpl; [constructor|].
  destruct (body p) as [p' [[]|e]] eqn:Hb; [|discriminate].
  destruct (for_objects body ps) as [ps' r]. simpl in *.
  intros ->. constructor; auto.
Qed.

Lemma for_objects_total {P} (body : P -> P * outcome unit) ps :
  Forall (fun p => snd (body p) = Return tt) ps ->
  for_objects body ps = (map (fun p => fst (body p)) ps, Return tt).
Proof.
  induction 1 as [|p ps Hp _ IH]; simpl; [reflexivity|].
  destruct (body p) as [p' [[]|e]]; simpl in *; [|discriminate].
  rewrite IH. reflexivity.
Qed.

Lemma for_objects_view {P V} (view : P -> V) (body : P -> P * outcome unit) ps :
  Forall (fun p => view (fst (body p)) = view p) ps ->
  map view (fst (for_objects body ps)) = map view ps.
Proof.
  induction 1 as [|p ps Hp _ IH]; simpl; [reflexivity|].
  destruct (body p) as [p' [[]|e]]; simpl in *.
  - destruct (for_objects body ps) as [ps' r]. simpl in *. congruence.
  - congruence.
Qed.

Lemma for_objects_stops {P} (body : P -> P * outcome unit) (bad : exn -> Prop) ps :
  Forall (fun p => snd (body p) = Return tt \/ exists e, snd (body p) = Raise e /\ bad e) ps ->
  Exists (fun p => exists e, snd (body p) = Raise e /\ bad e) ps ->
  exists e, snd (for_objects body ps) = Raise e /\ bad e.
Proof.
  induction 1 as [|p ps Hp Hps IH]; intros Hex; [inversion Hex|].
  simpl. destruct (body p) as [p' [[]|e]] eqn:Hb; simpl in *.
  - destruct (for_objects body ps) as [ps' r]. simpl in *. apply IH.
    inversion Hex as [? ? (e & He & _)|]; subst; [|assumption].
    rewrite Hb in He. discriminate.
  - destruct Hp as [Hp|(e' & He' & Hbad)]; [discriminate|].
    injection He' as ->. eauto.
Qed.

(** The routine is its first four steps followed by the loop. *)
Lemma post_backward_split (s : ShardedModelV2 F) :
  _post_backward_operations reduce_scatter colo_cuda_memory_capacity s
  = (before_reconcile reduce_scatter colo_cuda_memory_capacity ;; reconcile_params) s.
Proof.
  unfold _post_backward_operations, before_reconcile, bind, get.
  destruct (_update_memstats colo_cuda_memory_capacity s) as [s1 [[]|e]]; [|reflexivity].
  destruct (when (_require_backward_grad_sync s1) (reducer_flush reduce_scatter) s1)
    as [s2 [[]|e]]; [|reflexivity].
  destruct (reducer_free s2) as [s3 [[]|e]]; [|reflexivity].
  destruct (when (shard_param s3) shard_unsharded s3) as [s4 [[]|e]]; reflexivity.
Qed.

Lemma preserves_update_memstats_blind I :
  tracker_blind I -> preserves I (_update_memstats colo_cuda_memory_capacity).
Proof.
  intros (Hc & Hn & Hm) s H. unfold _update_memstats, on_collector. run.
  destruct ((_iter_cnter s =? 0) && collector_truthy s); run;
    destruct (_memstats_collector s) as [c|]; run;
    try destruct (py_max _); run; auto.
Qed.

Lemma preserves_before_reconcile_blind I :
  shard_blind I -> tracker_blind I ->
  preserves I (before_reconcile reduce_scatter colo_cuda_memory_capacity).
Proof.
  intros HT HI. unfold before_reconcile.
  apply preserves_bind; [apply preserves_update_memstats_blind, HI|intros _].
  apply preserves_bind; [apply preserves_get|intros self0].
  apply preserves_bind; [apply preserves_when, preserves_flush, HT|intros _].
  apply preserves_bind; [apply preserves_free, HT|intros _].
  apply preserves_bind; [apply preserves_get|intros self'].
  apply preserves_when, preserves_shard_unsharded, HT.
Qed.

Lemma preserves_before_reconcile I :
  config_only I ->
  preserves I (before_reconcile reduce_scatter colo_cuda_memory_capacity).
Proof.
  intros [HT HI].
  apply preserves_before_reconcile_blind; [apply tracker_only_shard_blind, HT|exact HI].
Qed.

(** The steps before the loop write nothing of a parameter but the sharded
    tensor and [fp16_grad] of its record. *)
Lemma before_reconcile_view (s : ShardedModelV2 F) :
  map shard_view
    (module_parameters (fst (before_reconcile reduce_scatter colo_cuda_memory_capacity s)))
  = map shard_view (module_parameters s).
Proof.
  apply (preserves_before_reconcile_blind
           (fun s' => map shard_view (module_parameters s')
                      = map shard_view (module_parameters s))).
  - split; [|intros s' r H; exact H].
    intros s' ps Hps H. rewrite module_parameters_set. congruence.
  - split; [|split]; intros s' x H; exact H.
  - reflexivity.
Qed.

Lemma before_reconcile_flags (s : ShardedModelV2 F) :
  _require_backward_grad_sync
    (fst (before_reconcile reduce_scatter colo_cuda_memory_capacity s))
  = _require_backward_grad_sync s
  /\ reuse_fp16_shard (fst (before_reconcile reduce_scatter colo_cuda_memory_capacity s))
     = reuse_fp16_shard s.
Proof.
  apply (preserves_before_reconcile
           (fun s' => _require_backward_grad_sync s' = _require_backward_grad_sync s
                      /\ reuse_fp16_shard s' = reuse_fp16_shard s)).
  - repeat split; intros; simpl; tauto.
  - split; reflexivity.
Qed.

(** *** When the steps before the loop return *)

Lemma check_col_attrs_present (ps : list (nn_Parameter F)) :
  Forall (fun p => col_attr p <> None) ps -> check_col_attrs ps = Return tt.
Proof.
  induction 1 as [|p ps Hp _ IH]; simpl; [reflexivity|].
  destruct (col_attr p); [exact IH|congruence].
Qed.

Lemma update_memstats_returns (s : ShardedModelV2 F) :
  tracker_ready s -> snd (_update_memstats colo_cuda_memory_capacity s) = Return tt.
Proof.
  unfold tracker_ready, _update_memstats, on_collector, collector_truthy. run.
  destruct (_memstats_collector s) as [c|] eqn:Hc; run.
  - intros Hne. destruct (overall_cuda c) as [|x xs] eqn:Ho; [congruence|].
    destruct (_iter_cnter s =? 0); run; rewrite ?Hc; run; rewrite ?Ho; reflexivity.
  - intros _. destruct (_iter_cnter s =? 0); run; rewrite ?Hc; reflexivity.
Qed.

Lemma callback_returns (s : ShardedModelV2 F) V i t :
  map shard_view (module_parameters s) = V ->
  (i < List.length V)%nat ->
  Forall (fun v => snd v <> None) V ->
  snd (_reduce_scatter_callback i t s) = Return tt.
Proof.
  intros HV Hi Hrec.
  unfold _reduce_scatter_callback, bind, get, get_param, lift, get_col_attr,
    put_param, modify.
  destruct (nth_error (module_parameters s) i) as [p|] eqn:Hn.
  - assert (Hin : In (shard_view p) V).
    { rewrite <- HV. apply in_map. eapply nth_error_In, Hn. }
    rewrite Forall_forall in Hrec. specialize (Hrec _ Hin).
    unfold shard_view in Hrec. simpl in Hrec.
    destruct (col_attr p); [|simpl in Hrec; congruence].
    destruct (reuse_fp16_shard s); reflexivity.
  - apply nth_error_None in Hn. rewrite <- HV, length_map in Hi. lia.
Qed.

Lemma run_entries_return (es : list (BucketEntry F)) V :
  Forall (fun e => (e_param e < List.length V)%nat) es ->
  Forall (fun v => snd v <> None) V ->
  forall s, map shard_view (module_parameters s) = V ->
            snd (for_each es (run_entry reduce_scatter) s) = Return tt.
Proof.
  intros Hes Hrec. induction Hes as [|e es He _ IH]; intros s HV; [reflexivity|].
  simpl. unfold bind.
  pose proof (callback_returns s V (e_param e)
                (reduce_scatter (e_chunks e) (e_group e)) HV He Hrec) as Hret.
  pose proof (preserves_callback
                (fun s' => map shard_view (module_parameters s') = V)
                (e_param e) (reduce_scatter (e_chunks e) (e_group e))) as Hpres.
  unfold run_entry at 1.
  destruct (_reduce_scatter_callback _ _ s) as [s' r] eqn:Hcb. simpl in Hret. subst r.
  apply IH. change s' with (fst (s', @Return unit tt)). rewrite <- Hcb. apply Hpres; [|exact HV].
  split; [|intros s0 r H; exact H].
  intros s0 ps Hps H. rewrite module_parameters_set. congruence.
Qed.

(** The steps before the loop return when the tracker can be updated, every
    parameter has its record, and every queued callback is bound to a
    parameter of the module. *)
Lemma before_reconcile_returns (s : ShardedModelV2 F) :
  tracker_ready s ->
  Forall (fun q => col_attr q <> None) (module_parameters s) ->
  Forall (fun e => (e_param e < List.length (module_parameters s))%nat) (pending s) ->
  snd (before_reconcile reduce_scatter colo_cuda_memory_capacity s) = Return tt.
Proof.
  intros Htr Hrec Hes.
  pose proof (update_memstats_returns s Htr) as Hret.
  pose proof (preserves_update_memstats_blind
                (fun s' => module s' = module s /\ reducer s' = reducer s)) as Hpres.
  unfold before_reconcile, bind at 1.
  destruct (_update_memstats colo_cuda_memory_capacity s) as [s1 r1] eqn:Hu.
  simpl in Hret. subst r1.
  assert (Hs1 : module s1 = module s /\ reducer s1 = reducer s).
  { change s1 with (fst (s1, @Return unit tt)). rewrite <- Hu. apply Hpres; [|auto].
    split; [|split]; intros s0 x H; exact H. }
  destruct Hs1 as [Hm Hr].
  set (V := map shard_view (module_parameters s)).
  assert (HrecV : Forall (fun v => snd v <> None) V).
  { unfold V. apply Forall_map. eapply Forall_impl; [|exact Hrec].
    intros q Hq. unfold shard_view. simpl.
    destruct (col_attr q) eqn:E; [discriminate|congruence]. }
  assert (HV1 : map shard_view (module_parameters s1) = V).
  { unfold V, module_parameters. rewrite Hm. reflexivity. }
  assert (Hflush : forall b, snd (when b (reducer_flush reduce_scatter) s1) = Return tt
                             /\ map shard_view
                                  (module_parameters
                                     (fst (when b (reducer_flush reduce_scatter) s1))) = V).
  { intros [|]; [|split; [reflexivity|exact HV1]]. split.
    - unfold when, reducer_flush, pending, bind, get, modify.
      apply (run_entries_return _ V); [|exact HrecV|exact HV1].
      rewrite Hr. unfold V. rewrite length_map. exact Hes.
    - apply (preserves_flush (fun s' => map shard_view (module_parameters s') = V));
        [|exact HV1].
      split; [|intros s0 r H; exact H].
      intros s0 ps Hps H. rewrite module_parameters_set. congruence. }
  unfold bind, get.
  destruct (Hflush (_require_backward_grad_sync s1)) as [Hf1 Hf2].
  destruct (when (_require_backward_grad_sync s1) (reducer_flush reduce_scatter) s1)
    as [s2 r2]. simpl in Hf1, Hf2. subst r2.
  unfold reducer_free, modify, when.
  destruct (shard_param (set_reducer s2 _)); [|reflexivity].
  unfold shard_unsharded, bind, get, lift, modify.
  rewrite check_col_attrs_present; [reflexivity|].
  change (module_parameters (set_reducer s2 _)) with (module_parameters s2).
  clear - Hf2 HrecV. revert HrecV. rewrite <- Hf2. clear Hf2.
  induction (module_parameters s2) as [|q qs IH]; simpl; intros H; constructor.
  - inversion H as [|? ? Hq _]; subst. unfold shard_view in Hq. simpl in Hq.
    destruct (col_attr q) eqn:E; [discriminate|simpl in Hq; congruence].
  - apply IH. inversion H; assumption.
Qed.

(** *** C1 *)

Lemma ready_reconciled reuse (p : nn_Parameter F) :
  ready reuse p ->
  snd (reconcile_param true reuse p) = Return tt
  /\ reconciled reuse p (fst (reconcile_param true reuse p)).
Proof.
  intros (a & Ha & Hr). destruct (p_requires_grad p) eqn:Hrg.
  - destruct (Hr eq_refl) as [Hg Ht].
    destruct (p_grad p) as [g|] eqn:Hpg; [|congruence].
    destruct (authoritative_gradient reuse a) as [t|] eqn:Hat; [|congruence].
    rewrite (reconcile_param_publishes reuse p a g t Ha Hrg Hpg Hat). simpl.
    split; [reflexivity|]. split; [eexists; split; reflexivity|]. intros _.
    exists a. eexists. exists t. repeat split; try reflexivity; try assumption.
    exists (Tensor_set_data g t). split; reflexivity.
  - rewrite (reconcile_param_skips true reuse p a Ha (or_introl Hrg)). simpl.
    split; [reflexivity|]. split; [eexists; split; reflexivity|]. congruence.
Qed.

(** In a synchronized pass, once the steps before the loop have run on
    parameters that are all ready, the reconciliation returns and leaves
    every one of them reconciled. *)
Lemma reconciliation_reconciles (self mid : ShardedModelV2 F) :
  _require_backward_grad_sync self = true ->
  before_reconcile reduce_scatter colo_cuda_memory_capacity self = (mid, Return tt) ->
  Forall (ready (reuse_fp16_shard self)) (module_parameters mid) ->
  exists self',
    _post_backward_operations reduce_scatter colo_cuda_memory_capacity self
    = (self', Return tt)
    /\ Forall2 (reconciled (reuse_fp16_shard self))
         (module_parameters mid) (module_parameters self').
Proof.
  intros Hsync Hmid Hready.
  destruct (before_reconcile_flags self) as [Hs Hr]. rewrite Hmid in Hs, Hr. simpl in Hs, Hr.
  rewrite post_backward_split. unfold bind. rewrite Hmid.
  unfold reconcile_params. rewrite Hs, Hr, Hsync.
  rewrite for_objects_total.
  - eexists. split; [reflexivity|]. rewrite module_parameters_set.
    induction Hready as [|p ps Hp _ IH]; simpl; constructor; [|exact IH].
    apply ready_reconciled, Hp.
  - eapply Forall_impl; [|exact Hready]. intros p Hp. apply ready_reconciled, Hp.
Qed.

Lemma add_values_length (xs ys : list F) :
  List.length xs = List.length ys ->
  List.length (add_values xs ys) = List.length xs.
Proof.
  revert ys. induction xs as [|x xs IH]; intros [|y ys]; simpl; try discriminate; auto.
Qed.

Lemma add_values_nth_error (xs ys : list F) (i : nat) (x y : F) :
  nth_error xs i = Some x -> nth_error ys i = Some y ->
  nth_error (add_values xs ys) i = Some (fadd x y).
Proof.
  revert ys i. induction xs as [|x0 xs IH]; intros [|y0 ys] [|i]; simpl;
    try discriminate.
  - intros [= ->] [= ->]. reflexivity.
  - apply IH.
Qed.

Lemma device_eqb_eq (d e : device) : device_eqb d e = true -> d = e.
Proof. destruct d, e; simpl; congruence. Qed.

Lemma device_eqb_refl (d : device) : device_eqb d d = true.
Proof. destruct d; reflexivity. Qed.

(** The gradient the loop computes is the authoritative one, and so is any
    tensor that holds its data. *)
Lemma authoritative_gradient_sound reuse (a : ShardedParamV2 F) (t g : Tensor F) :
  authoritative_gradient reuse a = Some t ->
  Tensor_data g = Tensor_data t ->
  authoritative reuse a g.
Proof.
  unfold authoritative_gradient, selected_payload, authoritative, Tensor_data.
  intros Ht Hg. injection Hg as Hdt Hdev Hval.
  destruct reuse.
  - exists (payload (sharded_data_tensor a)). split; [reflexivity|].
    destruct (fp32_grad a) as [acc|]; [discriminate|].
    injection Ht as <-. rewrite Hdt, Hdev, Hval. unfold relocated.
    destruct (offload_grad a); simpl; auto.
  - destruct (fp16_grad a) as [g16|]; [|discriminate]. simpl in Ht.
    exists g16. split; [reflexivity|].
    destruct (fp32_grad a) as [acc|].
    + destruct (Nat.eqb _ _ && device_eqb _ _) eqn:Hc; [|discriminate].
      apply andb_true_iff in Hc as [Hn Hd]. apply Nat.eqb_eq in Hn.
      injection Ht as <-. simpl in Hdt, Hdev, Hval.
      assert (Hv : t_values (relocated a (cast_tensor_to_fp32 g16)) = t_values g16).
      { unfold relocated. destruct (offload_grad a); reflexivity. }
      unfold numel in Hn. rewrite Hv in Hn, Hval.
      split; [reflexivity|]. unfold added_into. rewrite Hdt, Hdev, Hval.
      repeat split.
      * apply add_values_length. symmetry. exact Hn.
      * intros i x y. apply add_values_nth_error.
    + injection Ht as <-. rewrite Hdt, Hdev, Hval. unfold relocated.
      destruct (offload_grad a); simpl; auto.
Qed.

Lemma publishable_ready reuse (p : nn_Parameter F) :
  publishable reuse p -> ready reuse p.
Proof.
  intros (a & Ha & H). exists a. split; [exact Ha|]. intros Hrg.
  destruct (H Hrg) as [Hg Hr]. split; [exact Hg|].
  unfold authoritative_gradient, selected_payload.
  destruct reuse.
  - rewrite Hr. discriminate.
  - destruct Hr as (g & Hg16 & Hacc). rewrite Hg16. simpl.
    destruct (fp32_grad a) as [acc|]; [|discriminate].
    destruct (Hacc acc eq_refl) as [Hn Hd].
    assert (Hn' : numel (relocated a (cast_tensor_to_fp32 g)) = numel acc).
    { rewrite <- Hn. unfold relocated. destruct (offload_grad a); reflexivity. }
    assert (Hd' : t_device (relocated a (cast_tensor_to_fp32 g)) = t_device acc).
    { rewrite Hd. unfold relocated. destruct (offload_grad a); reflexivity. }
    rewrite Hn', Hd', Nat.eqb_refl, device_eqb_refl. discriminate.
Qed.

Lemma reconciled_published reuse (p p' : nn_Parameter F) :
  reconciled reuse p p' -> published reuse p p'.
Proof.
  intros [Hc H]. split; [exact Hc|]. intros Hrg.
  destruct (H Hrg) as (a & a' & t & Ha & Ht & (g & Hg & Hdata) & Ha' & H16 & H32).
  exists a, a', g. repeat split; try assumption.
  apply (authoritative_gradient_sound reuse a t g Ht Hdata).
Qed.


(** The condition is the one the loop needs: a synchronized reconciliation
    that returns found every parameter ready. *)
Lemma reconciliation_needs_ready (self s' : ShardedModelV2 F) :
  _require_backward_grad_sync self = true ->
  _post_backward_operations reduce_scatter colo_cuda_memory_capacity self
  = (s', Return tt) ->
  exists mid,
    before_reconcile reduce_scatter colo_cuda_memory_capacity self = (mid, Return tt)
    /\ Forall (ready (reuse_fp16_shard self)) (module_parameters mid).
Proof.
  intros Hsync Hrun. rewrite post_backward_split in Hrun. unfold bind in Hrun.
  destruct (before_reconcile_flags self) as [Hs Hr].
  destruct (before_reconcile reduce_scatter colo_cuda_memory_capacity self)
    as [mid [[]|e]]; [|discriminate].
  simpl in Hs, Hr. exists mid. split; [reflexivity|].
  unfold reconcile_params in Hrun. rewrite Hs, Hr, Hsync in Hrun.
  pose proof (for_objects_returns (reconcile_param true (reuse_fp16_shard self))
                (module_parameters mid)) as Hloop.
  destruct (for_objects _ (module_parameters mid)) as [ps r].
  injection Hrun as _ ->. specialize (Hloop eq_refl). simpl in Hloop.
  induction Hloop as [|p p' ps ps' Hp _ IH]; constructor; [|exact IH].
  destruct (col_attr p) as [a|] eqn:Ha.
  - exists a. split; [exact Ha|]. intros Hrg.
    destruct (reconcile_param_returned _ p p' Hp Hrg) as (a0 & g & t & Ha0 & Hg & Ht).
    assert (a0 = a) by congruence. subst a0. rewrite Hg, Ht. split; discriminate.
  - pose proof (reconcile_param_needs_record _ _ p p' _ Hp Ha). discriminate.
Qed.

Lemma ready_publishable reuse (p : nn_Parameter F) :
  ready reuse p -> publishable reuse p.
Proof.
  intros (a & Ha & H). exists a. split; [exact Ha|]. intros Hrg.
  destruct (H Hrg) as [Hg Ht]. split; [exact Hg|].
  unfold authoritative_gradient, selected_payload in Ht.
  destruct reuse.
  - destruct (fp32_grad a); [destruct Ht; reflexivity|reflexivity].
  - destruct (fp16_grad a) as [g|]; simpl in Ht; [|destruct Ht; reflexivity].
    exists g. split; [reflexivity|]. intros acc Hacc. rewrite Hacc in Ht.
    destruct (Nat.eqb _ _ && device_eqb _ _) eqn:Hc; [|destruct Ht; reflexivity].
    apply andb_true_iff in Hc as [Hn Hd].
    apply Nat.eqb_eq in Hn. apply device_eqb_eq in Hd.
    unfold relocated, numel in *. destruct (offload_grad a); simpl in *; auto.
Qed.

(** The condition of C1 is the one the loop needs: a synchronized
    reconciliation that returns found the gradient of every parameter
    publishable. *)
Lemma reconciliation_needs_publishable (self s' : ShardedModelV2 F) :
  _require_backward_grad_sync self = true ->
  _post_backward_operations reduce_scatter colo_cuda_memory_capacity self
  = (s', Return tt) ->
  exists mid,
    before_reconcile reduce_scatter colo_cuda_memory_capacity self = (mid, Return tt)
    /\ Forall (publishable (reuse_fp16_shard self)) (module_parameters mid).
Proof.
  intros Hsync Hrun.
  destruct (reconciliation_needs_ready self s' Hsync Hrun) as (mid & Hmid & Hready).
  exists mid. split; [exact Hmid|].
  eapply Forall_impl; [|exact Hready]. intros p. apply ready_publishable.
Qed.

(** *** C7 *)

(** In a synchronized pass in reuse mode, a parameter that has its record
    and, if trainable, a gradient tensor, is either reconciled or refused by
    the assertion. *)
Lemma reuse_param_outcome (q : nn_Parameter F) b :
  col_attr q = Some b ->
  (p_requires_grad q = true -> p_grad q <> None) ->
  snd (reconcile_param true true q) = Return tt
  \/ exists e, snd (reconcile_param true true q) = Raise e /\ is_assertion e.
Proof.
  intros Hb Hg. destruct (p_requires_grad q) eqn:Hrg.
  - destruct (fp32_grad b) as [acc|] eqn:Hacc.
    + right. destruct (reconcile_param_refuses_accumulation q b acc Hb Hrg Hacc) as [msg H].
      exists (AssertionError msg). split; [exact H|exists msg; reflexivity].
    + left. destruct (p_grad q) as [g|] eqn:Hpg; [|destruct (Hg eq_refl eq_refl)].
      erewrite reconcile_param_publishes; eauto.
      unfold authoritative_gradient, selected_payload. rewrite Hacc. reflexivity.
  - left. rewrite (reconcile_param_skips true true q b Hb (or_introl Hrg)). reflexivity.
Qed.

Lemma map_eq_Forall2 {A B} (f : A -> B) (l' l : list A) :
  map f l' = map f l -> Forall2 (fun x' x => f x' = f x) l' l.
Proof.
  revert l. induction l' as [|x' l' IH]; intros [|x l]; simpl; try discriminate.
  - constructor.
  - intros [= Hx Hl]. constructor; auto.
Qed.

Lemma Forall2_In_right {A B} (R : A -> B -> Prop) xs ys y :
  Forall2 R xs ys -> In y ys -> exists x, In x xs /\ R x y.
Proof.
  induction 1 as [|a b xs ys Hab _ IH]; simpl; [tauto|].
  intros [->|Hin]; [eauto|]. destruct (IH Hin) as (x & ? & ?); eauto.
Qed.

Lemma Forall2_Forall_left {A B} (R : A -> B -> Prop) (P : B -> Prop) (Q : A -> Prop)
    xs ys :
  (forall x y, R x y -> P y -> Q x) ->
  Forall2 R xs ys -> Forall P ys -> Forall Q xs.
Proof.
  intros HR. induction 1 as [|a b xs ys Hab _ IH]; intros HP; constructor.
  - inversion HP; subst. eapply HR; eauto.
  - apply IH. inversion HP; assumption.
Qed.

(** C7: in a synchronized pass in reuse mode over well-formed state (the
    tracker can be updated, queued callbacks are bound to parameters of the
    module, every parameter has its record and every trainable one a
    gradient tensor), a trainable parameter that holds a full-precision
    accumulator makes the reconciliation fail with the assertion error. *)
Theorem reuse_excludes_accumulation (self : ShardedModelV2 F)
    (p : nn_Parameter F) (a : ShardedParamV2 F) (acc : Tensor F) :
  _require_backward_grad_sync self = true ->
  reuse_fp16_shard self = true ->
  tracker_ready self ->
  Forall (fun e => (e_param e < List.length (module_parameters self))%nat)
         (pending self) ->
  Forall (fun q => col_attr q <> None
                   /\ (p_requires_grad q = true -> p_grad q <> None))
         (module_parameters self) ->
  In p (module_parameters self) ->
  p_requires_grad p = true ->
  col_attr p = Some a ->
  fp32_grad a = Some acc ->
  exists msg,
    snd (_post_backward_operations reduce_scatter colo_cuda_memory_capacity self)
    = Raise (AssertionError msg).
Proof.
  intros Hsync Hreuse Htr Hes Hall Hin Hrg Ha Hacc.
  assert (Hret : snd (before_reconcile reduce_scatter colo_cuda_memory_capacity self)
                 = Return tt).
  { apply before_reconcile_returns; [exact Htr| |exact Hes].
    eapply Forall_impl; [|exact Hall]. intros q [Hq _]. exact Hq. }
  destruct (before_reconcile_flags self) as [Hs Hr].
  pose proof (map_eq_Forall2 _ _ _ (before_reconcile_view self)) as Hview.
  rewrite post_backward_split. unfold bind.
  destruct (before_reconcile reduce_scatter colo_cuda_memory_capacity self)
    as [mid r]. simpl in *. subst r.
  unfold reconcile_params. rewrite Hs, Hr, Hsync, Hreuse.
  destruct (for_objects_stops (reconcile_param true true) is_assertion
              (module_parameters mid)) as (e & He & msg & ->).
  - eapply Forall2_Forall_left; [|exact Hview|exact Hall].
    intros q' q Hq [Hrec Hg]. unfold shard_view in Hq. injection Hq as _ Hrg' _ Hg' Hrec'.
    destruct (col_attr q') as [b|] eqn:Hb.
    + apply (reuse_param_outcome q' b Hb). rewrite Hrg', Hg'. exact Hg.
    + destruct (col_attr q); [discriminate|congruence].
  - destruct (Forall2_In_right _ _ _ _ Hview Hin) as (p' & Hin' & Hp').
    apply Exists_exists. exists p'. split; [exact Hin'|].
    unfold shard_view in Hp'. injection Hp' as _ Hrg' _ _ Hrec'.
    rewrite Ha in Hrec'. destruct (col_attr p') as [a'|] eqn:Ha'; [|discriminate].
    simpl in Hrec'. injection Hrec' as Hacc' _ _.
    destruct (reconcile_param_refuses_accumulation p' a' acc Ha') as [msg H];
      [congruence|congruence|].
    exists (AssertionError msg). split; [exact H|exists msg; reflexivity].
  - exists msg. destruct (for_objects _ _) as [ps r]. simpl in *. exact He.
Qed.

(** *** C5 *)

Lemma before_reconcile_strategy (s : ShardedModelV2 F) :
  shard_strategy (fst (before_reconcile reduce_scatter colo_cuda_memory_capacity s))
  = shard_strategy s.
Proof.
  apply (preserves_before_reconcile (fun s' => shard_strategy s' = shard_strategy s)).
  - repeat split; intros; simpl; assumption.
  - reflexivity.
Qed.

Lemma on_sharded_tensors_sharded (ps : list (nn_Parameter F)) op :
  Forall sharded_record ps ->
  on_sharded_tensors (fun a => negb (param_is_sharded a)) op ps = ps.
Proof.
  induction 1 as [|p ps Hp _ IH]; simpl; [reflexivity|].
  rewrite IH. unfold sharded_record in Hp.
  destruct (col_attr p) as [a|]; [|discriminate].
  simpl in Hp. injection Hp as ->. reflexivity.
Qed.

Lemma on_sharded_tensors_marks (ps : list (nn_Parameter F)) op :
  (forall st, is_sharded (op st) = true) ->
  check_col_attrs ps = Return tt ->
  Forall sharded_record (on_sharded_tensors (fun a => negb (param_is_sharded a)) op ps).
Proof.
  intros Hop. induction ps as [|p ps IH]; simpl; intros Hc; constructor.
  - unfold sharded_record. destruct (col_attr p) as [a|] eqn:Ha; [|discriminate].
    destruct (param_is_sharded a) eqn:Hsa; simpl.
    + rewrite Ha. simpl. rewrite Hsa. reflexivity.
    + unfold param_is_sharded. simpl. rewrite Hop. reflexivity.
  - apply IH. destruct (col_attr p); [exact Hc|discriminate].
Qed.

(** After the steps before the loop, the buckets are released and, when the
    model is sharded, so is every record. *)
Lemma before_reconcile_result (s mid : ShardedModelV2 F) :
  shard_marks (shard_strategy s) ->
  before_reconcile reduce_scatter colo_cuda_memory_capacity s = (mid, Return tt) ->
  buckets (reducer mid) = []
  /\ (shard_param mid = true -> Forall sharded_record (module_parameters mid)).
Proof.
  intros Hmarks Hmid.
  pose proof (before_reconcile_strategy s) as Hst. rewrite Hmid in Hst. simpl in Hst.
  revert Hmid. unfold before_reconcile, bind, get.
  destruct (_update_memstats colo_cuda_memory_capacity s) as [s1 [[]|e]]; [|discriminate].
  destruct (when (_require_backward_grad_sync s1) (reducer_flush reduce_scatter) s1)
    as [s2 [[]|e]]; [|discriminate].
  unfold reducer_free, modify, when.
  destruct (shard_param (set_reducer s2 _)) eqn:Hsp.
  - unfold shard_unsharded, bind, get, lift, modify.
    destruct (check_col_attrs (module_parameters (set_reducer s2 _))) as [[]|e] eqn:Hc;
      [|discriminate].
    intros [= <-]. simpl in *. split; [reflexivity|]. intros _.
    apply on_sharded_tensors_marks; [|exact Hc].
    intros st. rewrite Hst. apply Hmarks.
  - intros [= <-]. simpl in *. split; [reflexivity|]. congruence.
Qed.

Lemma check_col_attrs_sharded (ps : list (nn_Parameter F)) :
  Forall sharded_record ps -> check_col_attrs ps = Return tt.
Proof.
  induction 1 as [|p ps Hp _ IH]; simpl; [reflexivity|].
  unfold sharded_record in Hp. destruct (col_attr p); [exact IH|discriminate].
Qed.

Lemma before_reconcile_at_rest ps :
  preserves (at_rest ps) (before_reconcile reduce_scatter colo_cuda_memory_capacity).
Proof.
  unfold before_reconcile.
  apply preserves_bind; [|intros _].
  { apply preserves_update_memstats_blind. split; [|split]; intros s x H; exact H. }
  apply preserves_bind; [apply preserves_get|intros self0].
  apply preserves_bind; [|intros _].
  { apply preserves_when. intros s (Hps & Hb & Hsh).
    unfold reducer_flush, pending, bind, get, modify. rewrite Hb. simpl.
    repeat split; assumption. }
  apply preserves_bind; [|intros _].
  { intros s (Hps & Hb & Hsh). repeat split; assumption. }
  intros s (Hps & Hb & Hsh). unfold bind, get, when.
  destruct (shard_param s) eqn:Hsp.
  - unfold shard_unsharded, bind, get, lift, modify.
    rewrite Hps, (check_col_attrs_sharded ps (Hsh eq_refl)).
    rewrite (on_sharded_tensors_sharded ps _ (Hsh eq_refl)).
    split; [reflexivity|]. split; [exact Hb|]. intros _. apply Hsh. reflexivity.
  - split; [exact Hps|]. split; [exact Hb|]. simpl. rewrite Hsp. discriminate.
Qed.

(** A parameter just reconciled shows the same gradient after a second pass
    over it, whether that pass returns or raises. *)
Lemma second_pass_grad sync reuse (p p' : nn_Parameter F) :
  reconcile_param sync reuse p = (p', Return tt) ->
  p_grad (fst (reconcile_param sync reuse p')) = p_grad p'.
Proof.
  destruct_param p; cbn; intros H.
  - destruct sync, reuse, rg, off, f16 as [g16|], f32 as [acc|], g as [g|];
      crush_reconcile.
  - crush_reconcile.
Qed.

Lemma reconcile_params_sharded (ps ps' : list (nn_Parameter F)) sync reuse :
  Forall sharded_record ps ->
  Forall2 (fun p p' => reconcile_param sync reuse p = (p', Return tt)) ps ps' ->
  Forall sharded_record ps'.
Proof.
  intros Hs H. induction H as [|p p' ps ps' Hp _ IH]; constructor.
  - inversion Hs; subst. unfold sharded_record in *.
    destruct (reconcile_param_frame sync reuse p) as (_ & _ & Hf).
    rewrite Hp in Hf. simpl in Hf. congruence.
  - apply IH. inversion Hs; assumption.
Qed.

(** C5: when the reconciliation has returned, running it again at once (no
    backward pass and no callback in between) leaves the gradient of every
    parameter as the first run published it, whether the second run returns
    or raises. *)
Theorem reconciliation_twice (self s1 : ShardedModelV2 F) :
  shard_marks (shard_strategy self) ->
  _post_backward_operations reduce_scatter colo_cuda_memory_capacity self
  = (s1, Return tt) ->
  map p_grad
    (module_parameters
       (fst (_post_backward_operations reduce_scatter colo_cuda_memory_capacity s1)))
  = map p_grad (module_parameters s1).
Proof.
  intros Hmarks Hrun. rewrite post_backward_split in Hrun. unfold bind in Hrun.
  destruct (before_reconcile reduce_scatter colo_cuda_memory_capacity self)
    as [mid [[]|e]] eqn:Hmid; [|discriminate].
  destruct (before_reconcile_result self mid Hmarks Hmid) as [Hb Hsh].
  unfold reconcile_params in Hrun.
  pose proof (for_objects_returns
                (reconcile_param (_require_backward_grad_sync mid) (reuse_fp16_shard mid))
                (module_parameters mid)) as Hloop.
  destruct (for_objects _ (module_parameters mid)) as [ps1 r] eqn:Hfo.
  injection Hrun as <- ->. specialize (Hloop eq_refl). simpl in Hloop.
  set (s1 := set_module_parameters mid ps1) in *.
  assert (Hrest : at_rest ps1 s1).
  { repeat split; [exact Hb|]. intros Hsp.
    eapply reconcile_params_sharded; [apply Hsh, Hsp|exact Hloop]. }
  pose proof (before_reconcile_at_rest ps1 s1 Hrest) as (Hps & _ & _).
  destruct (before_reconcile_flags s1) as [Hs Hr].
  rewrite post_backward_split. unfold bind.
  destruct (before_reconcile reduce_scatter colo_cuda_memory_capacity s1)
    as [s2 [[]|e]]; simpl in *; [|rewrite Hps; reflexivity].
  unfold reconcile_params. rewrite Hps, Hs, Hr.
  pose proof (for_objects_view p_grad
                (reconcile_param (_require_backward_grad_sync mid) (reuse_fp16_shard mid))
                ps1) as Hview.
  destruct (for_objects _ ps1) as [ps2 r2]. simpl in *. apply Hview.
  clear - Hloop. induction Hloop as [|p p' ps ps' Hp _ IH]; constructor; [|exact IH].
  apply (second_pass_grad _ _ p p' Hp).
Qed.

(** *** C9 *)

Lemma on_sharded_tensors_present sel op (ps : list (nn_Parameter F)) :
  Forall (fun p => col_attr p <> None) ps ->
  Forall (fun p => col_attr p <> None) (on_sharded_tensors sel op ps).
Proof.
  induction 1 as [|p ps Hp _ IH]; simpl; constructor; [|exact IH].
  destruct (col_attr p) as [a|] eqn:Ha; [|congruence].
  destruct (sel a); simpl; congruence.
Qed.

Lemma data_from_payload_total (ps : list (nn_Parameter F)) :
  Forall (fun p => col_attr p <> None) ps ->
  for_objects data_from_payload ps
  = (map (fun p => match col_attr p with
                   | Some a => set_p_data p (payload (sharded_data_tensor a))
                   | None => p
                   end) ps,
     Return tt).
Proof.
  induction 1 as [|p ps Hp _ IH]; simpl; [reflexivity|].
  unfold data_from_payload at 1, bind, get, lift, get_col_attr, modify.
  destruct (col_attr p) as [a|]; [|congruence].
  rewrite IH. reflexivity.
Qed.

(** What the parameters go through during a [state_dict] whose export
    returns, one parameter at a time. *)
Lemma state_dict_round (s : ShardedModelV2 F) (ps : list (nn_Parameter F)) :
  Forall (round_trips s) ps ->
  let G := fun st => gather_tensor (shard_strategy s) st (process_group s) in
  let S := fun st => shard_tensor (shard_strategy s) st (process_group s) in
  let gathered := on_sharded_tensors (fun _ => true) G ps in
  let exposed := map (fun p => match col_attr p with
                               | Some a => set_p_data p (payload (sharded_data_tensor a))
                               | None => p
                               end) gathered in
  restore_data (map p_data gathered) (on_sharded_tensors (fun _ => true) S exposed) = ps
  /\ map p_data exposed
     = map (fun p => match col_attr p with
                     | Some a => payload (G (sharded_data_tensor a))
                     | None => p_data p
                     end) ps.
Proof.
  intros H. cbv zeta. induction H as [|p ps (a & Ha & Hrt) _ [IH1 IH2]]; simpl.
  - split; reflexivity.
  - rewrite Ha. simpl. rewrite IH1, IH2, Hrt. split; [|reflexivity].
    f_equal. destruct p as [rg d g c]. simpl in *. subst c.
    destruct a. reflexivity.
Qed.

(** C9 (amended): when gather-then-shard gives every record back and the
    wrapped export returns, [state_dict] returns what the export produced
    from the gathered data and leaves the orchestrator, with the sharding
    state and the data of every parameter, exactly as before the call. *)
Theorem state_dict_restores (self : ShardedModelV2 F) (sd : StateDict F) :
  Forall (round_trips self) (module_parameters self) ->
  module_state_dict (module self) (gathered_data self) = Return sd ->
  state_dict self = (self, Return sd).
Proof.
  intros Hrt Hexp.
  assert (Hpresent : Forall (fun p => col_attr p <> None) (module_parameters self)).
  { eapply Forall_impl; [|exact Hrt]. intros p (a & Ha & _). congruence. }
  destruct (state_dict_round self (module_parameters self) Hrt) as [Hround Hdata].
  cbv zeta in Hround, Hdata.
  unfold state_dict, bind at 1, get at 1.
  unfold bind at 1, lift at 1. rewrite (check_col_attrs_present _ Hpresent).
  unfold bind at 1, modify at 1.
  unfold bind at 1, get at 1.
  unfold bind at 1, for_parameters. rewrite module_parameters_set.
  rewrite data_from_payload_total by (apply on_sharded_tensors_present, Hpresent).
  unfold get at 1, bind at 1, lift at 1.
  rewrite !module_parameters_set. simpl module.
  unfold gathered_data in Hexp. rewrite Hdata. simpl (shard_strategy _). simpl (process_group _).
  simpl (module_state_dict _). rewrite Hexp.
  unfold bind at 1, lift at 1.
  rewrite check_col_attrs_present.
  2:{ clear - Hpresent. induction Hpresent as [|p ps Hp _ IH]; simpl; constructor; [|exact IH].
      destruct (col_attr p) as [a|]; [simpl; congruence|congruence]. }
  unfold bind, modify, ret. rewrite !module_parameters_set.
  simpl (shard_strategy _). simpl (process_group _).
  rewrite Hround.
  destruct self as [[? ? ? ?] ? ? ? ? ? ? ? ? ? ? ? ? ? ? ? ? ?]. reflexivity.
Qed.

(** * Further properties of the methods *)

(** *** Construction: what is accepted, and what the object starts with *)

Lemma collect_sharded_uniform b (ps : list (nn_Parameter F)) :
  uniformly_sharded b ps -> collect_sharded ps = Return (map (fun _ => b) ps).
Proof.
  induction 1 as [|p ps (a & Ha & Hb) _ IH]; simpl; [reflexivity|].
  rewrite Ha, IH, Hb. reflexivity.
Qed.

Lemma all_constant {A} (b : bool) (xs : list A) :
  all (map (fun _ => b) xs) = match xs with [] => true | _ :: _ => b end.
Proof.
  unfold all. destruct xs as [|x xs]; [reflexivity|]. destruct b; [|reflexivity].
  simpl. induction xs as [|y ys IH]; [reflexivity|exact IH].
Qed.

Lemma all_or_none_constant {A} (b : bool) (xs : list A) :
  all (map (fun _ => b) xs) || all (map negb (map (fun _ => b) xs)) = true.
Proof.
  rewrite map_map, !all_constant. destruct xs, b; reflexivity.
Qed.

(** X1: a module whose parameters all have their record and agree on the
    sharding flag is accepted (given a predivide factor other than zero).
    The orchestrator starts with synchronization enabled, iteration 0, a
    margin of 0, a memory tracker exactly when asked for one, the
    data-parallel group of the global context when no group is given, and
    the reduce-scatter group defaulting to the process group.
    [shard_param] is the common flag; for a module without parameters it is
    [True]. *)
Theorem init_accepts_uniform_module
    (m : nn_Module F) (strategy : BaseShardStrategy F)
    (pg rs_pg : option ProcessGroup) (mb : Z) (fp32 : bool)
    (offload_config : option (list (string * string))) (f : F)
    (tracer reuse : bool) (b : bool) :
  uniformly_sharded b (parameters m) ->
  feqb f (float_of_int 0) = false ->
  exists self,
    __init__ gpc_data_group m strategy pg rs_pg mb fp32 offload_config (Some f)
      tracer reuse
    = Return self
    /\ shard_param self = match parameters m with [] => true | _ :: _ => b end
    /\ process_group self = match pg with Some g => g | None => gpc_data_group end
    /\ reduce_scatter_process_group self
       = match rs_pg with Some g => g | None => process_group self end
    /\ world_size self = pg_size (process_group self)
    /\ rank self = pg_rank (process_group self)
    /\ gradient_predivide_factor self = f
    /\ gradient_postdivide_factor self = fdiv (float_of_int (world_size self)) f
    /\ reuse_fp16_shard self = reuse
    /\ _require_backward_grad_sync self = true
    /\ _iter_cnter self = 0
    /\ cuda_margin_space self = 0
    /\ collector_truthy self = tracer.
Proof.
  intros Hu Hf. unfold __init__, py_truediv.
  rewrite (collect_sharded_uniform b _ Hu), all_or_none_constant, Hf. simpl.
  eexists. split; [reflexivity|]. simpl. rewrite all_constant.
  repeat split. destruct tracer; reflexivity.
Qed.

(** X2: on such a module a supplied predivide factor equal to zero makes the
    constructor fail with [ZeroDivisionError], at the division that computes
    the postdivide factor. *)
Theorem init_refuses_zero_predivide_factor
    (m : nn_Module F) (strategy : BaseShardStrategy F)
    (pg rs_pg : option ProcessGroup) (mb : Z) (fp32 : bool)
    (offload_config : option (list (string * string))) (f : F)
    (tracer reuse : bool) (b : bool) :
  uniformly_sharded b (parameters m) ->
  feqb f (float_of_int 0) = true ->
  __init__ gpc_data_group m strategy pg rs_pg mb fp32 offload_config (Some f)
    tracer reuse
  = Raise ZeroDivisionError.
Proof.
  intros Hu Hf. unfold __init__, py_truediv.
  rewrite (collect_sharded_uniform b _ Hu), all_or_none_constant, Hf. reflexivity.
Qed.

Lemma collect_sharded_missing (ps : list (nn_Parameter F)) :
  Exists (fun p => col_attr p = None) ps ->
  collect_sharded ps
  = Raise (AssertionError "You must use ZeroInitContext to init your module first.").
Proof.
  induction 1 as [p ps Hp|p ps _ IH]; simpl.
  - rewrite Hp. reflexivity.
  - destruct (col_attr p); [rewrite IH|]; reflexivity.
Qed.

Lemma collect_sharded_present (ps : list (nn_Parameter F)) :
  Forall (fun p => col_attr p <> None) ps -> exists l, collect_sharded ps = Return l.
Proof.
  induction 1 as [|p ps Hp _ [l IH]]; simpl; [eauto|].
  destruct (col_attr p); [|congruence]. rewrite IH. eauto.
Qed.

(** X3: which assertion the constructor fails with.  A parameter without
    its record gives the message about [ZeroInitContext], whether or not the
    other parameters agree on sharding; when every parameter has its record
    and one is sharded while another is not, the message is the one about
    partially sharded parameters. *)
Theorem init_assertion_messages
    (m : nn_Module F) (strategy : BaseShardStrategy F)
    (pg rs_pg : option ProcessGroup) (mb : Z) (fp32 : bool)
    (offload_config : option (list (string * string))) (pre : option F)
    (tracer reuse : bool) :
  ((exists p, In p (parameters m) /\ col_attr p = None) ->
   __init__ gpc_data_group m strategy pg rs_pg mb fp32 offload_config pre tracer reuse
   = Raise (AssertionError "You must use ZeroInitContext to init your module first."))
  /\ (Forall (fun p => col_attr p <> None) (parameters m) ->
      (exists p q a b,
         In p (parameters m) /\ In q (parameters m)
         /\ col_attr p = Some a /\ col_attr q = Some b
         /\ param_is_sharded a = true /\ param_is_sharded b = false) ->
      __init__ gpc_data_group m strategy pg rs_pg mb fp32 offload_config pre tracer reuse
      = Raise (AssertionError
          "Parameters must be all sharded or all unsharded! Parameters are partially sharded now.")).
Proof.
  split.
  - intros Hex. unfold __init__.
    rewrite collect_sharded_missing; [reflexivity|]. apply Exists_exists. exact Hex.
  - intros Hall (p & q & a & b & Hp & Hq & Ha & Hb & Hsa & Hsb). unfold __init__.
    destruct (collect_sharded_present _ Hall) as [l Hc]. rewrite Hc.
    pose proof (collect_sharded_returns _ _ Hc) as Hl.
    destruct (Forall2_In_left _ _ _ _ Hl Hp) as (y & Hy & a' & Ha' & <-).
    destruct (Forall2_In_left _ _ _ _ Hl Hq) as (z & Hz & b' & Hb' & <-).
    assert (a' = a) by congruence. assert (b' = b) by congruence. subst.
    rewrite Hsb in Hz. rewrite Hsa in Hy.
    rewrite (all_false_of_member l Hz).
    rewrite (all_false_of_member (map negb l)); [reflexivity|].
    change false with (negb true). apply in_map. exact Hy.
Qed.

Lemma cpu_offload_of_device (offload_config : option (list (string * string))) :
  cpu_offload_of offload_config = true
  <-> exists d, offload_config = Some d /\ dict_get d "device" = Some "cpu"%string.
Proof.
  destruct offload_config as [[|kv d]|]; cbv [cpu_offload_of].
  - split; [discriminate|]. intros (d & [= <-] & H). discriminate H.
  - split.
    + intros H. eexists. split; [reflexivity|].
      destruct (dict_get (kv :: d) "device") as [v|]; [|discriminate].
      apply String.eqb_eq in H. congruence.
    + intros (d' & [= <-] & H). rewrite H. apply String.eqb_refl.
  - split; [discriminate|]. intros (d & H & _). discriminate.
Qed.

Lemma init_offload_grad_effect (offload : bool) (ps : list (nn_Parameter F)) l :
  collect_sharded ps = Return l ->
  Forall (fun p => exists a, col_attr p = Some a /\ offload_grad a = offload)
         (map (init_offload_grad offload) ps)
  /\ map beside_offload (map (init_offload_grad offload) ps) = map beside_offload ps.
Proof.
  revert l. induction ps as [|p ps IH]; simpl; intros l H.
  - split; [constructor|reflexivity].
  - destruct (col_attr p) as [a|] eqn:Ha; [|discriminate].
    destruct (collect_sharded ps) as [l'|]; [|discriminate].
    destruct (IH l' eq_refl) as [IH1 IH2]. split.
    + constructor; [|exact IH1]. unfold init_offload_grad. rewrite ?Ha.
      eexists. split; reflexivity.
    + rewrite IH2. f_equal. unfold init_offload_grad, beside_offload.
      rewrite ?Ha. simpl. rewrite ?Ha. reflexivity.
Qed.


(** *** The two callbacks *)

Lemma map_divided_data (f : F) (t : Tensor F) :
  Tensor_data (if fltb (float_of_int 1) f then Tensor_div_ t f else t)
  = mkTensor (t_dtype t) (t_device t) false (map (divided_if_above_one f) (t_values t)).
Proof.
  unfold divided_if_above_one.
  destruct (fltb (float_of_int 1) f); unfold Tensor_data; simpl; [reflexivity|].
  rewrite map_id. reflexivity.
Qed.

(** What the reduction-completion callback does for a parameter that has its
    record. *)
Lemma callback_effect (self : ShardedModelV2 F) (i : nat) (t : Tensor F)
    (p : nn_Parameter F) (a : ShardedParamV2 F) :
  nth_error (module_parameters self) i = Some p ->
  col_attr p = Some a ->
  _reduce_scatter_callback i t self
  = (set_module_parameters self
       (list_set i
          (set_col_attr p
             (let stored :=
                mkTensor (t_dtype t) (t_device t) false
                  (map (divided_if_above_one (gradient_postdivide_factor self))
                     (t_values t)) in
              if reuse_fp16_shard self
              then set_sharded_data_tensor a (mkShardedTensor stored true)
              else set_fp16_grad a (Some stored)))
          (module_parameters self)),
     Return tt).
Proof.
  intros Hn Ha.
  unfold _reduce_scatter_callback, bind, get, get_param, lift, get_col_attr,
    put_param, modify.
  rewrite Hn, Ha, map_divided_data. cbv zeta.
  destruct (reuse_fp16_shard self); reflexivity.
Qed.

(** X5: the reduction-completion callback, for a parameter that has its
    record, returns and writes that record alone: the reduced gradient,
    divided by the postdivide factor only when that factor exceeds 1 and
    detached from autodiff, becomes [fp16_grad]; in reuse mode it instead
    replaces the payload of the sharded tensor, which is marked as sharded.
    Every other parameter, and the rest of the record, is left as it was. *)
Theorem callback_writes_one_record (self : ShardedModelV2 F) (i : nat) (t : Tensor F)
    (p : nn_Parameter F) (a : ShardedParamV2 F) :
  nth_error (module_parameters self) i = Some p ->
  col_attr p = Some a ->
  exists a' stored,
    _reduce_scatter_callback i t self
    = (set_module_parameters self
         (list_set i (set_col_attr p a') (module_parameters self)),
       Return tt)
    /\ stored
       = mkTensor (t_dtype t) (t_device t) false
           (map (divided_if_above_one (gradient_postdivide_factor self)) (t_values t))
    /\ (fp32_grad a', offload_grad a', bwd_count a')
       = (fp32_grad a, offload_grad a, bwd_count a)
    /\ (if reuse_fp16_shard self
        then sharded_data_tensor a' = mkShardedTensor stored true
             /\ fp16_grad a' = fp16_grad a
        else sharded_data_tensor a' = sharded_data_tensor a
             /\ fp16_grad a' = Some stored).
Proof.
  intros Hn Ha. rewrite (callback_effect self i t p a Hn Ha). cbv zeta.
  do 2 eexists. split; [reflexivity|]. split; [reflexivity|].
  destruct (reuse_fp16_shard self); simpl; auto.
Qed.

Lemma list_set_twice {A} i (x y : A) l : list_set i x (list_set i y l) = list_set i x l.
Proof.
  revert i. induction l as [|z l IH]; intros [|i]; simpl; try reflexivity.
  rewrite IH. reflexivity.
Qed.

Lemma list_set_swap {A} i j (x y : A) l :
  i <> j -> list_set i x (list_set j y l) = list_set j y (list_set i x l).
Proof.
  revert i j. induction l as [|z l IH]; intros [|i] [|j] H; simpl; try reflexivity.
  - congruence.
  - rewrite IH; [reflexivity|congruence].
Qed.

Lemma nth_error_list_set_same {A} i (x y : A) l :
  nth_error l i = Some y -> nth_error (list_set i x l) i = Some x.
Proof.
  revert i. induction l as [|z l IH]; intros [|i]; simpl; try discriminate; auto.
Qed.

Lemma nth_error_list_set_other {A} i j (x : A) l :
  i <> j -> nth_error (list_set i x l) j = nth_error l j.
Proof.
  revert i j. induction l as [|z l IH]; intros [|i] [|j] H; simpl; try reflexivity.
  - congruence.
  - apply IH. congruence.
Qed.

(** The callback stops without a trace when it is bound to no parameter of
    the module, or to one without its record. *)
Lemma callback_stops (self : ShardedModelV2 F) (i : nat) (t : Tensor F) :
  match nth_error (module_parameters self) i with
  | Some p => col_attr p = None
  | None => True
  end ->
  fst (_reduce_scatter_callback i t self) = self.
Proof.
  unfold _reduce_scatter_callback, bind, get, get_param, lift, get_col_attr.
  destruct (nth_error (module_parameters self) i) as [p|]; [|reflexivity].
  intros ->. reflexivity.
Qed.

(** X6: the reduction-completion callback overwrites, it does not
    accumulate: when it runs twice for the same parameter, the state is the
    one the second run alone would have produced, and so is the outcome. *)
Theorem callback_last_write_wins (self : ShardedModelV2 F) (i : nat) (t1 t2 : Tensor F) :
  _reduce_scatter_callback i t2 (fst (_reduce_scatter_callback i t1 self))
  = _reduce_scatter_callback i t2 self.
Proof.
  destruct (nth_error (module_parameters self) i) as [p|] eqn:Hn.
  - destruct (col_attr p) as [a|] eqn:Ha.
    + rewrite (callback_effect self i t1 p a Hn Ha). cbn [fst]. cbv zeta.
      erewrite callback_effect;
        [|rewrite module_parameters_set; apply (nth_error_list_set_same _ _ p), Hn
         |reflexivity].
      rewrite (callback_effect self i t2 p a Hn Ha). cbv zeta.
      rewrite module_parameters_set, list_set_twice.
      change (reuse_fp16_shard (set_module_parameters self _))
        with (reuse_fp16_shard self).
      change (gradient_postdivide_factor (set_module_parameters self _))
        with (gradient_postdivide_factor self).
      destruct (reuse_fp16_shard self); reflexivity.
    + rewrite (callback_stops self i t1); [reflexivity|]. rewrite Hn. exact Ha.
  - rewrite (callback_stops self i t1); [reflexivity|]. rewrite Hn. exact I.
Qed.

(** X7: the order in which the reductions of two different parameters
    complete does not matter: the two callbacks leave the same state in
    either order. *)
Theorem callbacks_commute (self : ShardedModelV2 F) (i j : nat) (t u : Tensor F) :
  i <> j ->
  fst (_reduce_scatter_callback j u (fst (_reduce_scatter_callback i t self)))
  = fst (_reduce_scatter_callback i t (fst (_reduce_scatter_callback j u self))).
Proof.
  intros Hij.
  assert (Hother : forall (s : ShardedModelV2 F) k l v q b,
            k <> l ->
            nth_error (module_parameters s) k = Some q -> col_attr q = Some b ->
            nth_error (module_parameters (fst (_reduce_scatter_callback k v s))) l
            = nth_error (module_parameters s) l).
  { intros s k l v q b Hkl Hq Hb. rewrite (callback_effect s k v q b Hq Hb). cbn [fst].
    rewrite module_parameters_set. apply nth_error_list_set_other, Hkl. }
  destruct (nth_error (module_parameters self) i) as [p|] eqn:Hi;
    [destruct (col_attr p) as [a|] eqn:Ha|].
  - destruct (nth_error (module_parameters self) j) as [q|] eqn:Hj;
      [destruct (col_attr q) as [b|] eqn:Hb|].
    + pose proof (Hother self i j t p a Hij Hi Ha) as Hj'. rewrite Hj in Hj'.
      pose proof (Hother self j i u q b (not_eq_sym Hij) Hj Hb) as Hi'. rewrite Hi in Hi'.
      rewrite (callback_effect _ j u q b Hj' Hb), (callback_effect _ i t p a Hi' Ha).
      rewrite (callback_effect self i t p a Hi Ha), (callback_effect self j u q b Hj Hb).
      cbn [fst]. cbv zeta. rewrite !module_parameters_set.
      rewrite (list_set_swap j i) by congruence.
      change (reuse_fp16_shard (set_module_parameters self _))
        with (reuse_fp16_shard self).
      change (gradient_postdivide_factor (set_module_parameters self _))
        with (gradient_postdivide_factor self).
      reflexivity.
    + pose proof (Hother self i j t p a Hij Hi Ha) as Hj'. rewrite Hj in Hj'.
      rewrite (callback_stops _ j u) by (rewrite Hj'; exact Hb).
      rewrite (callback_stops self j u) by (rewrite Hj; exact Hb). reflexivity.
    + pose proof (Hother self i j t p a Hij Hi Ha) as Hj'. rewrite Hj in Hj'.
      rewrite (callback_stops _ j u) by (rewrite Hj'; exact I).
      rewrite (callback_stops self j u) by (rewrite Hj; exact I). reflexivity.
  - rewrite (callback_stops self i t) by (rewrite Hi; exact Ha).
    destruct (nth_error (module_parameters self) j) as [q|] eqn:Hj;
      [destruct (col_attr q) as [b|] eqn:Hb|].
    + pose proof (Hother self j i u q b (not_eq_sym Hij) Hj Hb) as Hi'. rewrite Hi in Hi'.
      rewrite (callback_stops _ i t) by (rewrite Hi'; exact Ha). reflexivity.
    + rewrite (callback_stops self j u) by (rewrite Hj; exact Hb).
      rewrite (callback_stops self i t) by (rewrite Hi; exact Ha). reflexivity.
    + rewrite (callback_stops self j u) by (rewrite Hj; exact I).
      rewrite (callback_stops self i t) by (rewrite Hi; exact Ha). reflexivity.
  - rewrite (callback_stops self i t) by (rewrite Hi; exact I).
    destruct (nth_error (module_parameters self) j) as [q|] eqn:Hj;
      [destruct (col_attr q) as [b|] eqn:Hb|].
    + pose proof (Hother self j i u q b (not_eq_sym Hij) Hj Hb) as Hi'. rewrite Hi in Hi'.
      rewrite (callback_stops _ i t) by (rewrite Hi'; exact I). reflexivity.
    + rewrite (callback_stops self j u) by (rewrite Hj; exact Hb).
      rewrite (callback_stops self i t) by (rewrite Hi; exact I). reflexivity.
    + rewrite (callback_stops self j u) by (rewrite Hj; exact I).
      rewrite (callback_stops self i t) by (rewrite Hi; exact I). reflexivity.
Qed.

(** The gradient-completion callback in a synchronized pass over a group
    of one worker, for a parameter that has its record. *)
Lemma hook_single_worker_effect (self : ShardedModelV2 F) (i : nat) (g : Tensor F)
    (p : nn_Parameter F) (a : ShardedParamV2 F) :
  _require_backward_grad_sync self = true ->
  world_size self <= 1 ->
  t_requires_grad g = false ->
  nth_error (module_parameters self) i = Some p ->
  col_attr p = Some a ->
  _grad_post_backward_hook reduce_scatter i (Some g) self
  = (set_module_parameters self
       (list_set i
          (set_col_attr p
             (let stored :=
                mkTensor (if fp32_reduce_scatter self then p_dtype p else t_dtype g)
                  (t_device g) false
                  (map (fun x =>
                          divided_if_above_one (gradient_postdivide_factor self)
                            (divided_if_above_one (gradient_predivide_factor self)
                               (if fp32_reduce_scatter self
                                then fcast (p_dtype p) x else x)))
                     (t_values g)) in
              if reuse_fp16_shard self
              then set_sharded_data_tensor a (mkShardedTensor stored true)
              else set_fp16_grad a (Some stored)))
          (module_parameters self)),
     Return (Some (mkTensor (t_dtype g) (t_device g) false []))).
Proof.
  intros Hs Hw Hg Hn Ha.
  assert (Hone : (1 <? world_size self) = false) by (apply Z.ltb_ge; exact Hw).
  unfold _grad_post_backward_hook. rewrite Hg.
  unfold bind at 1, get at 1. rewrite Hs. cbn [negb].
  unfold bind at 1.
  assert (Hprep : forall new_grad,
            (let new_grad :=
               if fltb (float_of_int 1) (gradient_predivide_factor self)
               then Tensor_div_ new_grad (gradient_predivide_factor self)
               else new_grad in
             (if 1 <? world_size self
              then reduce_scatter_async reduce_scatter
                     (chunk_and_pad (Tensor_data new_grad)
                        (pg_size (reduce_scatter_process_group self)))
                     (reduce_scatter_process_group self) i
              else _reduce_scatter_callback i new_grad) ;;
             ret (Some (empty_freed_like g))) self
            = (set_module_parameters self
                 (list_set i
                    (set_col_attr p
                       (let stored :=
                          mkTensor (t_dtype new_grad) (t_device new_grad) false
                            (map (fun x =>
                                    divided_if_above_one (gradient_postdivide_factor self)
                                      (divided_if_above_one
                                         (gradient_predivide_factor self) x))
                               (t_values new_grad)) in
                        if reuse_fp16_shard self
                        then set_sharded_data_tensor a (mkShardedTensor stored true)
                        else set_fp16_grad a (Some stored)))
                    (module_parameters self)),
               Return (Some (mkTensor (t_dtype g) (t_device g) false [])))).
  { intros new_grad. cbv zeta. rewrite Hone. unfold bind.
    rewrite (callback_effect self i _ p a Hn Ha). cbv zeta. unfold ret, empty_freed_like.
    unfold divided_if_above_one.
    destruct (fltb (float_of_int 1) (gradient_predivide_factor self)); simpl;
      rewrite ?map_map; reflexivity. }
  destruct (fp32_reduce_scatter self).
  - unfold bind at 1, get_param. rewrite Hn. unfold ret at 1.
    rewrite Hprep. simpl. rewrite map_map. reflexivity.
  - unfold ret at 1. rewrite Hprep. reflexivity.
Qed.

(** X8: in a synchronized pass over a group of one worker the
    gradient-completion callback does not use the bucketer: the gradient
    goes at once into the record of the parameter, and an empty placeholder
    of the precision and placement of the gradient is returned in its place.
    What is stored is every value of the gradient, first converted to the
    precision of the data of the parameter when [fp32_reduce_scatter] is set
    (which rounds it, or overflows), then divided by the predivide factor and
    by the postdivide factor, each only when it exceeds 1. *)
Theorem hook_single_worker (self : ShardedModelV2 F) (i : nat) (g : Tensor F)
    (p : nn_Parameter F) (a : ShardedParamV2 F) :
  _require_backward_grad_sync self = true ->
  world_size self <= 1 ->
  t_requires_grad g = false ->
  nth_error (module_parameters self) i = Some p ->
  col_attr p = Some a ->
  exists a' stored,
    _grad_post_backward_hook reduce_scatter i (Some g) self
    = (set_module_parameters self
         (list_set i (set_col_attr p a') (module_parameters self)),
       Return (Some (mkTensor (t_dtype g) (t_device g) false [])))
    /\ stored
       = mkTensor (if fp32_reduce_scatter self then p_dtype p else t_dtype g)
           (t_device g) false
           (map (fun x => divided_if_above_one (gradient_postdivide_factor self)
                            (divided_if_above_one (gradient_predivide_factor self)
                               (if fp32_reduce_scatter self
                                then fcast (p_dtype p) x else x)))
              (t_values g))
    /\ (fp32_grad a', offload_grad a', bwd_count a')
       = (fp32_grad a, offload_grad a, bwd_count a)
    /\ (if reuse_fp16_shard self
        then sharded_data_tensor a' = mkShardedTensor stored true
             /\ fp16_grad a' = fp16_grad a
        else sharded_data_tensor a' = sharded_data_tensor a
             /\ fp16_grad a' = Some stored).
Proof.
  intros Hs Hw Hg Hn Ha.
  rewrite (hook_single_worker_effect self i g p a Hs Hw Hg Hn Ha). cbv zeta.
  do 2 eexists. split; [reflexivity|]. split; [reflexivity|].
  destruct (reuse_fp16_shard self); simpl; auto.
Qed.

(** X9: whatever its arguments and whatever it returns or raises, the
    gradient-completion callback writes nothing but the bucketer and, in the
    records, the sharded tensor and [fp16_grad]: the gradient, the data, the
    accumulator [fp32_grad], the backward counter and the offload flag of
    every parameter, the memory tracker with its counter and margin, and the
    configuration of the orchestrator are as before. *)
Theorem hook_writes_only_shards (self : ShardedModelV2 F) (i : nat)
    (grad : option (Tensor F)) :
  map shard_view
    (module_parameters (fst (_grad_post_backward_hook reduce_scatter i grad self)))
  = map shard_view (module_parameters self)
  /\ configuration (fst (_grad_post_backward_hook reduce_scatter i grad self))
     = configuration self
  /\ _memstats_collector (fst (_grad_post_backward_hook reduce_scatter i grad self))
     = _memstats_collector self
  /\ _iter_cnter (fst (_grad_post_backward_hook reduce_scatter i grad self))
     = _iter_cnter self
  /\ cuda_margin_space (fst (_grad_post_backward_hook reduce_scatter i grad self))
     = cuda_margin_space self.
Proof.
  apply (preserves_hook
           (fun s' => map shard_view (module_parameters s')
                      = map shard_view (module_parameters self)
                      /\ configuration s' = configuration self
                      /\ _memstats_collector s' = _memstats_collector self
                      /\ _iter_cnter s' = _iter_cnter self
                      /\ cuda_margin_space s' = cuda_margin_space self)).
  - split.
    + intros s ps Hps (Hv & Hrest). split; [|exact Hrest].
      rewrite module_parameters_set. congruence.
    + intros s r H. exact H.
  - repeat split.
Qed.

(** *** Reconciliation: what it leaves alone *)

Lemma on_sharded_tensors_accumulation sel op (ps : list (nn_Parameter F)) :
  map accumulation_view (on_sharded_tensors sel op ps) = map accumulation_view ps.
Proof.
  induction ps as [|p ps IH]; simpl; [reflexivity|]. rewrite IH. f_equal.
  destruct (col_attr p) as [a|] eqn:Ha; [|reflexivity].
  destruct (sel a); [|reflexivity].
  unfold accumulation_view. simpl. rewrite Ha. reflexivity.
Qed.

(** Without synchronization a pass over a parameter only resets the
    counter. *)
Lemma reconcile_param_nosync reuse (p : nn_Parameter F) :
  accumulation_view (fst (reconcile_param false reuse p)) = accumulation_view p.
Proof.
  destruct_param p; cbn.
  - destruct rg; crush_reconcile.
  - crush_reconcile.
Qed.

(** X10: a reconciliation without synchronization leaves the accumulation
    state as it is: of every parameter, the gradient, the data, [fp16_grad],
    [fp32_grad] and the offload flag are unchanged, whether the routine
    returns or raises; only the backward counter and (through the safety
    net) the sharded tensor may be written. *)
Theorem nosync_reconciliation_keeps_gradients (self : ShardedModelV2 F) :
  _require_backward_grad_sync self = false ->
  map accumulation_view
    (module_parameters
       (fst (_post_backward_operations reduce_scatter colo_cuda_memory_capacity self)))
  = map accumulation_view (module_parameters self).
Proof.
  intros Hsync.
  pose proof (preserves_update_memstats_blind
                (fun s' => _require_backward_grad_sync s' = false
                           /\ reuse_fp16_shard s' = reuse_fp16_shard self
                           /\ module_parameters s' = module_parameters self)) as Hmem.
  unfold _post_backward_operations, bind at 1.
  destruct (_update_memstats colo_cuda_memory_capacity self) as [s1 r1] eqn:Hu.
  assert (H1 : _require_backward_grad_sync s1 = false
               /\ reuse_fp16_shard s1 = reuse_fp16_shard self
               /\ module_parameters s1 = module_parameters self).
  { change s1 with (fst (s1, r1)). rewrite <- Hu. apply Hmem; [|auto].
    split; [|split]; intros s0 x H; exact H. }
  destruct H1 as (Hs1 & Hr1 & Hp1).
  destruct r1 as [[]|e]; [|simpl; congruence].
  unfold bind at 1, get at 1. rewrite Hs1. unfold when at 1, bind at 1, ret at 1.
  unfold bind at 1, reducer_free, modify at 1.
  unfold bind at 1, get at 1.
  set (s2 := set_reducer s1 _).
  assert (Hloop : forall s3,
            _require_backward_grad_sync s3 = false ->
            map accumulation_view (module_parameters s3)
            = map accumulation_view (module_parameters self) ->
            map accumulation_view (module_parameters (fst (reconcile_params s3)))
            = map accumulation_view (module_parameters self)).
  { intros s3 Hs3 Hv. unfold reconcile_params. rewrite Hs3.
    pose proof (for_objects_view accumulation_view
                  (reconcile_param false (reuse_fp16_shard s3))
                  (module_parameters s3)) as Hfo.
    destruct (for_objects _ (module_parameters s3)) as [ps r]. cbn [fst] in *.
    rewrite module_parameters_set, Hfo; [exact Hv|].
    apply Forall_forall. intros q _. apply reconcile_param_nosync. }
  unfold bind, when. destruct (shard_param s2).
  - unfold shard_unsharded, bind, get, lift, modify.
    destruct (check_col_attrs (module_parameters s2)) as [[]|e]; simpl.
    + apply Hloop; [exact Hs1|]. rewrite module_parameters_set.
      rewrite on_sharded_tensors_accumulation. unfold s2.
      change (module_parameters (set_reducer s1 _)) with (module_parameters s1).
      congruence.
    + unfold s2. change (module_parameters (set_reducer s1 _)) with (module_parameters s1).
      congruence.
  - unfold ret. apply Hloop; [exact Hs1|].
    unfold s2. change (module_parameters (set_reducer s1 _)) with (module_parameters s1).
    congruence.
Qed.

Lemma reconcile_param_counter sync reuse (p p' : nn_Parameter F) :
  reconcile_param sync reuse p = (p', Return tt) ->
  exists a', col_attr p' = Some a' /\ bwd_count a' = 0.
Proof.
  destruct_param p; cbn; intros H.
  - destruct sync, reuse, rg, off, f16 as [g16|], f32 as [acc|], g as [g|];
      crush_reconcile; eexists; split; reflexivity.
  - crush_reconcile.
Qed.

Lemma Forall2_Forall_right {A B} (R : A -> B -> Prop) (P : B -> Prop) xs ys :
  (forall x y, R x y -> P y) -> Forall2 R xs ys -> Forall P ys.
Proof. intros HR. induction 1; constructor; eauto. Qed.

(** X11: when the reconciliation returns, the backward counter of every
    parameter is zero: of the frozen ones too, and in either mode. *)
Theorem reconciliation_resets_counters (self s' : ShardedModelV2 F) :
  _post_backward_operations reduce_scatter colo_cuda_memory_capacity self
  = (s', Return tt) ->
  Forall (fun p => exists a, col_attr p = Some a /\ bwd_count a = 0)
         (module_parameters s').
Proof.
  intros Hrun. rewrite post_backward_split in Hrun. unfold bind in Hrun.
  destruct (before_reconcile reduce_scatter colo_cuda_memory_capacity self)
    as [mid [[]|e]]; [|discriminate].
  unfold reconcile_params in Hrun.
  pose proof (for_objects_returns
                (reconcile_param (_require_backward_grad_sync mid) (reuse_fp16_shard mid))
                (module_parameters mid)) as Hloop.
  destruct (for_objects _ (module_parameters mid)) as [ps r].
  injection Hrun as <- ->. specialize (Hloop eq_refl). simpl in Hloop.
  rewrite module_parameters_set.
  eapply Forall2_Forall_right; [|exact Hloop].
  intros p p' Hp. eapply reconcile_param_counter, Hp.
Qed.

(** *** Reconciliation and the iteration counter *)

Lemma preserves_after_memstats I :
  tracker_only I ->
  preserves I
    (self0 <- get ;;
     when (_require_backward_grad_sync self0) (reducer_flush reduce_scatter) ;;
     reducer_free ;;
     self1 <- get ;;
     when (shard_param self1) shard_unsharded ;;
     reconcile_params).
Proof.
  intros HI. pose proof (tracker_only_shard_blind _ HI) as HB.
  apply preserves_bind; [apply preserves_get|intros self0].
  apply preserves_bind; [apply preserves_when, preserves_flush, HB|intros _].
  apply preserves_bind; [apply preserves_free, HB|intros _].
  apply preserves_bind; [apply preserves_get|intros self'].
  apply preserves_bind; [apply preserves_when, preserves_shard_unsharded, HB|intros _].
  apply preserves_reconcile_params, HI.
Qed.

Lemma update_memstats_counts (s s1 : ShardedModelV2 F) :
  _update_memstats colo_cuda_memory_capacity s = (s1, Return tt) ->
  _iter_cnter s1 = _iter_cnter s + 1.
Proof.
  unfold _update_memstats, on_collector, collector_truthy. run.
  destruct (_memstats_collector s) as [c|] eqn:Hc; run;
    destruct (_iter_cnter s =? 0); run; rewrite ?Hc; run;
    try destruct (py_max _); run; intros [= <-]; reflexivity.
Qed.

(** X12: a reconciliation whose memory statistics can be updated (there is
    no tracker, or the tracker holds a reading) advances the iteration
    counter by exactly one, whether the steps after that return or raise. *)
Theorem reconciliation_counts_iterations (self : ShardedModelV2 F) :
  tracker_ready self ->
  _iter_cnter
    (fst (_post_backward_operations reduce_scatter colo_cuda_memory_capacity self))
  = _iter_cnter self + 1.
Proof.
  intros Htr. pose proof (update_memstats_returns self Htr) as Hret.
  unfold _post_backward_operations, bind at 1.
  destruct (_update_memstats colo_cuda_memory_capacity self) as [s1 r1] eqn:Hu.
  simpl in Hret. subst r1. pose proof (update_memstats_counts self s1 Hu) as Hcnt.
  apply (preserves_after_memstats
           (fun s' => _iter_cnter s' = _iter_cnter self + 1)); [|exact Hcnt].
  split; intros s x H; exact H.
Qed.

(** X13: with a memory tracker that holds no reading, the reconciliation
    fails with [ValueError] (the maximum of an empty sequence) before
    anything is flushed or reconciled: the parameters, the bucketer, the
    iteration counter and the margin are as before; only the tracker itself
    has been touched. *)
Theorem reconciliation_without_readings (self : ShardedModelV2 F)
    (c : MemStatsCollector) :
  _memstats_collector self = Some c ->
  overall_cuda c = [] ->
  exists c',
    _post_backward_operations reduce_scatter colo_cuda_memory_capacity self
    = (set_memstats_collector self (Some c'), Raise ValueError)
    /\ overall_cuda c' = [].
Proof.
  intros Hc Ho.
  unfold _post_backward_operations, _update_memstats, on_collector, collector_truthy.
  run. rewrite Hc.
  destruct (_iter_cnter self =? 0); run; rewrite ?Hc; run; rewrite ?Ho; run;
    eexists; (split; [reflexivity|]); simpl; exact Ho.
Qed.


(** X15: a synchronized reconciliation returns only if every trainable
    parameter came with a gradient tensor: when some trainable parameter has
    no gradient ([p.grad] is [None]), the routine raises. *)
Theorem reconciliation_needs_gradient_tensors (self s' : ShardedModelV2 F) :
  _require_backward_grad_sync self = true ->
  _post_backward_operations reduce_scatter colo_cuda_memory_capacity self
  = (s', Return tt) ->
  Forall (fun p => p_requires_grad p = true -> p_grad p <> None)
         (module_parameters self).
Proof.
  intros Hsync Hrun.
  destruct (reconciliation_needs_ready self s' Hsync Hrun) as (mid & Hmid & Hready).
  pose proof (before_reconcile_view self) as Hview. rewrite Hmid in Hview.
  cbn [fst] in Hview. symmetry in Hview.
  eapply Forall2_Forall_left; [|exact (map_eq_Forall2 _ _ _ Hview)|exact Hready].
  intros p q Hpq (a & _ & Hq) Hrg. unfold shard_view in Hpq.
  injection Hpq as _ Hr _ Hg _. rewrite Hg. apply Hq. congruence.
Qed.

(** *** Reconciliation in reuse mode *)

(** X16: after a synchronized reconciliation in reuse mode that returned,
    the gradient of every trainable parameter shares its storage, precision
    and placement with the payload of the sharded tensor of the parameter;
    when the record asks for offload, both are on the host. *)
Theorem reuse_gradient_is_payload (self s' : ShardedModelV2 F) :
  _require_backward_grad_sync self = true ->
  reuse_fp16_shard self = true ->
  _post_backward_operations reduce_scatter colo_cuda_memory_capacity self
  = (s', Return tt) ->
  Forall (fun p =>
            p_requires_grad p = true ->
            exists g a,
              p_grad p = Some g /\ col_attr p = Some a
              /\ Tensor_data g = Tensor_data (payload (sharded_data_tensor a))
              /\ (offload_grad a = true -> t_device g = cpu))
         (module_parameters s').
Proof.
  intros Hsync Hreuse Hrun. rewrite post_backward_split in Hrun. unfold bind in Hrun.
  destruct (before_reconcile_flags self) as [Hs Hr].
  destruct (before_reconcile reduce_scatter colo_cuda_memory_capacity self)
    as [mid [[]|e]]; [|discriminate].
  simpl in Hs, Hr. unfold reconcile_params in Hrun. rewrite Hs, Hr, Hsync, Hreuse in Hrun.
  pose proof (for_objects_returns (reconcile_param true true) (module_parameters mid))
    as Hloop.
  destruct (for_objects _ (module_parameters mid)) as [ps r].
  injection Hrun as <- ->. specialize (Hloop eq_refl). simpl in Hloop.
  rewrite module_parameters_set.
  eapply Forall2_Forall_right; [|exact Hloop].
  intros p p' Hp Hrg'.
  destruct (reconcile_param_frame true true p) as (Hrg & _ & _).
  rewrite Hp in Hrg. simpl in Hrg. rewrite Hrg' in Hrg. symmetry in Hrg.
  destruct (reconcile_param_returned true p p' Hp Hrg) as (a & g & t & Ha & Hg & Ht).
  pose proof (eq_trans (eq_sym Hp) (reconcile_param_publishes true p a g t Ha Hrg Hg Ht))
    as Heq.
  injection Heq as ->. simpl. do 2 eexists. split; [reflexivity|]. split; [reflexivity|].
  simpl. split; [reflexivity|].
  intros Hoff. unfold authoritative_gradient, selected_payload, relocated in Ht.
  rewrite Hoff in Ht. destruct (fp32_grad a); [discriminate|].
  injection Ht as <-. reflexivity.
Qed.

(** *** State dict: every exit path *)

Lemma check_col_attrs_missing (ps : list (nn_Parameter F)) :
  Exists (fun p => col_attr p = None) ps -> check_col_attrs ps = Raise AttributeError.
Proof.
  induction 1 as [p ps Hp|p ps _ IH]; simpl.
  - rewrite Hp. reflexivity.
  - destruct (col_attr p); [exact IH|reflexivity].
Qed.

Lemma check_col_attrs_cases (ps : list (nn_Parameter F)) :
  Forall (fun p => col_attr p <> None) ps \/ Exists (fun p => col_attr p = None) ps.
Proof.
  induction ps as [|p ps [IH|IH]]; [left; constructor| |right; constructor 2; exact IH].
  destruct (col_attr p) eqn:Ha.
  - left. constructor; [congruence|exact IH].
  - right. constructor. exact Ha.
Qed.

Lemma exposed_params (s : ShardedModelV2 F) (ps : list (nn_Parameter F)) :
  map (fun p => match col_attr p with
                | Some a => set_p_data p (payload (sharded_data_tensor a))
                | None => p
                end)
      (on_sharded_tensors (fun _ => true)
         (fun st => gather_tensor (shard_strategy s) st (process_group s)) ps)
  = map (gathered_param s) ps.
Proof.
  unfold on_sharded_tensors. rewrite map_map. apply map_ext. intros p.
  unfold gathered_param. destruct (col_attr p) as [a|] eqn:Ha; simpl; rewrite ?Ha; reflexivity.
Qed.

Lemma gathered_params_data (s : ShardedModelV2 F) :
  map p_data (map (gathered_param s) (module_parameters s)) = gathered_data s.
Proof.
  unfold gathered_data. rewrite map_map. apply map_ext. intros p.
  unfold gathered_param. destruct (col_attr p); reflexivity.
Qed.

Lemma resharded_params (s : ShardedModelV2 F) (ps : list (nn_Parameter F)) :
  restore_data
    (map p_data
       (on_sharded_tensors (fun _ => true)
          (fun st => gather_tensor (shard_strategy s) st (process_group s)) ps))
    (on_sharded_tensors (fun _ => true)
       (fun st => shard_tensor (shard_strategy s) st (process_group s))
       (map (gathered_param s) ps))
  = map (resharded_param s) ps.
Proof.
  induction ps as [|p ps IH]; simpl; [reflexivity|]. rewrite IH. f_equal.
  unfold gathered_param, resharded_param.
  destruct (col_attr p) as [a|] eqn:Ha; simpl; rewrite ?Ha; simpl.
  - destruct p; reflexivity.
  - destruct p as [rg d g c]. simpl in *. subst c. reflexivity.
Qed.

Lemma gathered_params_present (s : ShardedModelV2 F) (ps : list (nn_Parameter F)) :
  Forall (fun p => col_attr p <> None) ps ->
  Forall (fun p => col_attr p <> None) (map (gathered_param s) ps).
Proof.
  induction 1 as [|p ps Hp _ IH]; simpl; constructor; [|exact IH].
  unfold gathered_param. destruct (col_attr p) as [a|]; [simpl; congruence|congruence].
Qed.

(** [state_dict] on an orchestrator whose parameters all have their record:
    the export is given the gathered payloads; if it returns, every tensor is
    sharded again and every data restored; if it raises, the call stops
    there. *)
Lemma state_dict_run (s : ShardedModelV2 F) :
  Forall (fun p => col_attr p <> None) (module_parameters s) ->
  state_dict s
  = match module_state_dict (module s) (gathered_data s) with
    | Return sd =>
        (set_module_parameters s (map (resharded_param s) (module_parameters s)),
         Return sd)
    | Raise e =>
        (set_module_parameters s (map (gathered_param s) (module_parameters s)),
         Raise e)
    end.
Proof.
  intros Hpresent.
  unfold state_dict, bind at 1, get at 1.
  unfold bind at 1, lift at 1. rewrite (check_col_attrs_present _ Hpresent).
  unfold bind at 1, modify at 1.
  unfold bind at 1, get at 1.
  unfold bind at 1, for_parameters. rewrite module_parameters_set.
  rewrite data_from_payload_total by (apply on_sharded_tensors_present, Hpresent).
  unfold get at 1, bind at 1, lift at 1.
  rewrite !module_parameters_set. simpl module.
  simpl (shard_strategy _). simpl (process_group _). simpl (module_state_dict _).
  rewrite exposed_params, gathered_params_data.
  destruct (module_state_dict (module s) (gathered_data s)) as [sd|e]; [|reflexivity].
  unfold bind at 1, lift at 1.
  rewrite (check_col_attrs_present _ (gathered_params_present s _ Hpresent)).
  unfold bind, modify, ret. rewrite !module_parameters_set.
  simpl (shard_strategy _). simpl (process_group _).
  rewrite resharded_params. reflexivity.
Qed.

Lemma state_dict_stops (s : ShardedModelV2 F) :
  Exists (fun p => col_attr p = None) (module_parameters s) ->
  state_dict s = (s, Raise AttributeError).
Proof.
  intros Hex. unfold state_dict, bind, get, lift.
  rewrite (check_col_attrs_missing _ Hex). reflexivity.
Qed.

(** X17: when some parameter lacks its record, [state_dict] fails with
    [AttributeError] before anything is gathered: the orchestrator is left
    exactly as it was. *)
Theorem state_dict_needs_records (self : ShardedModelV2 F) (p : nn_Parameter F) :
  In p (module_parameters self) ->
  col_attr p = None ->
  state_dict self = (self, Raise AttributeError).
Proof.
  intros Hin Hp. apply state_dict_stops. apply Exists_exists. eauto.
Qed.

Lemma gathered_param_gradient (s : ShardedModelV2 F) (p : nn_Parameter F) :
  gradient_view (gathered_param s p) = gradient_view p.
Proof.
  unfold gathered_param, gradient_view.
  destruct (col_attr p) as [a|] eqn:Ha; simpl; rewrite ?Ha; reflexivity.
Qed.

Lemma resharded_param_gradient (s : ShardedModelV2 F) (p : nn_Parameter F) :
  gradient_view (resharded_param s p) = gradient_view p.
Proof.
  unfold resharded_param, gradient_view.
  destruct (col_attr p) as [a|] eqn:Ha; simpl; rewrite ?Ha; reflexivity.
Qed.

Lemma resharded_param_data (s : ShardedModelV2 F) (p : nn_Parameter F) :
  p_data (resharded_param s p) = p_data p
  /\ shard_of (resharded_param s p)
     = option_map (fun st => shard_tensor (shard_strategy s)
                               (gather_tensor (shard_strategy s) st (process_group s))
                               (process_group s))
         (shard_of p).
Proof.
  unfold resharded_param, shard_of.
  destruct (col_attr p) as [a|] eqn:Ha; simpl; rewrite ?Ha; split; reflexivity.
Qed.

(** X18: on every exit path, [state_dict] writes nothing but the data of the
    parameters and the sharded tensors of their records: the gradient,
    [fp16_grad], [fp32_grad], the counter and the offload flag of every
    parameter are unchanged, and so is everything of the orchestrator
    outside the parameters.  The precision of every parameter, which is that
    of its data, is as before too, unless the wrapped export raised. *)
Theorem state_dict_keeps_gradients (self : ShardedModelV2 F) :
  map gradient_view (module_parameters (fst (state_dict self)))
  = map gradient_view (module_parameters self)
  /\ set_module_parameters (fst (state_dict self)) (module_parameters self) = self
  /\ (map p_dtype (module_parameters (fst (state_dict self)))
      = map p_dtype (module_parameters self)
      \/ exists e, module_state_dict (module self) (gathered_data self) = Raise e
                   /\ snd (state_dict self) = Raise e).
Proof.
  destruct (check_col_attrs_cases (module_parameters self)) as [Hall|Hex].
  - rewrite (state_dict_run self Hall).
    destruct (module_state_dict (module self) (gathered_data self)) as [sd|e];
      cbn [fst snd]; rewrite module_parameters_set, map_map;
      (split; [apply map_ext; intros p|split]).
    + apply resharded_param_gradient.
    + exact (set_module_parameters_same self).
    + left. rewrite map_map. apply map_ext. intros p. unfold p_dtype.
      rewrite (proj1 (resharded_param_data self p)). reflexivity.
    + apply gathered_param_gradient.
    + exact (set_module_parameters_same self).
    + right. exists e. split; reflexivity.
  - rewrite (state_dict_stops self Hex). split; [reflexivity|].
    split; [apply set_module_parameters_same|left; reflexivity].
Qed.

(** X19: when [state_dict] returns, what it returns is what the wrapped
    export made of the gathered payloads, the data of every parameter is the
    data it had before the call, and the sharded tensor of every record is
    the former one gathered and then sharded again by the strategy. *)
Theorem state_dict_restores_data (self s' : ShardedModelV2 F) (sd : StateDict F) :
  state_dict self = (s', Return sd) ->
  module_state_dict (module self) (gathered_data self) = Return sd
  /\ map p_data (module_parameters s') = map p_data (module_parameters self)
  /\ map shard_of (module_parameters s')
     = map (fun p =>
              option_map (fun st => shard_tensor (shard_strategy self)
                                      (gather_tensor (shard_strategy self) st
                                         (process_group self))
                                      (process_group self))
                (shard_of p))
         (module_parameters self).
Proof.
  destruct (check_col_attrs_cases (module_parameters self)) as [Hall|Hex].
  - rewrite (state_dict_run self Hall).
    destruct (module_state_dict (module self) (gathered_data self)) as [sd'|e];
      [|discriminate].
    intros [= <- <-]. split; [reflexivity|].
    rewrite module_parameters_set, !map_map.
    split; apply map_ext; intros p; apply resharded_param_data.
  - rewrite (state_dict_stops self Hex). discriminate.
Qed.

Lemma gathered_param_shard (s : ShardedModelV2 F) (p : nn_Parameter F) :
  shard_of (gathered_param s p)
  = option_map (fun st => gather_tensor (shard_strategy s) st (process_group s))
      (shard_of p).
Proof.
  unfold gathered_param, shard_of.
  destruct (col_attr p) as [a|] eqn:Ha; simpl; rewrite ?Ha; reflexivity.
Qed.

(** X20: when the wrapped export raises, [state_dict] raises the same
    exception and nothing is restored: every record is left gathered and the
    data of every parameter is left pointing at the gathered payload. *)
Theorem state_dict_export_failure (self : ShardedModelV2 F) (e : exn) :
  Forall (fun p => col_attr p <> None) (module_parameters self) ->
  module_state_dict (module self) (gathered_data self) = Raise e ->
  snd (state_dict self) = Raise e
  /\ map p_data (module_parameters (fst (state_dict self))) = gathered_data self
  /\ map shard_of (module_parameters (fst (state_dict self)))
     = map (fun p =>
              option_map (fun st => gather_tensor (shard_strategy self) st
                                      (process_group self))
                (shard_of p))
         (module_parameters self).
Proof.
  intros Hall Hexp. rewrite (state_dict_run self Hall), Hexp. cbn [fst snd].
  split; [reflexivity|]. rewrite module_parameters_set.
  split; [apply gathered_params_data|].
  rewrite map_map. apply map_ext. intros p. apply gathered_param_shard.
Qed.

(** *** What holds across any sequence of calls *)

Lemma map_coarser {X Y} (fine : nn_Parameter F -> X) (coarse : nn_Parameter F -> Y)
    (ps qs : list (nn_Parameter F)) :
  (forall p q, fine p = fine q -> coarse p = coarse q) ->
  map fine ps = map fine qs -> map coarse ps = map coarse qs.
Proof.
  intros Hc. revert qs. induction ps as [|p ps IH]; intros [|q qs]; simpl;
    try discriminate; [reflexivity|].
  intros [= Hp Hps]. rewrite (Hc p q Hp), (IH qs Hps). reflexivity.
Qed.

Lemma resharded_param_view (s : ShardedModelV2 F) (p : nn_Parameter F) :
  shard_view (resharded_param s p) = shard_view p.
Proof.
  unfold resharded_param, shard_view.
  destruct (col_attr p) as [a|] eqn:Ha; simpl; rewrite ?Ha; reflexivity.
Qed.

Lemma gathered_param_view {X} (view : nn_Parameter F -> X) (s : ShardedModelV2 F)
    (p : nn_Parameter F) :
  lasting view -> view (gathered_param s p) = view p.
Proof.
  intros (Hshard & _ & Hdata). unfold gathered_param.
  destruct (col_attr p) as [a|] eqn:Ha; [|reflexivity].
  set (st := gather_tensor _ _ _).
  change (mkParameter (p_requires_grad p) (payload st) (p_grad p)
            (Some (set_sharded_data_tensor a st)))
    with (set_p_data (set_col_attr p (set_sharded_data_tensor a st)) (payload st)).
  rewrite Hdata. apply Hshard. unfold shard_view. simpl. rewrite Ha. reflexivity.
Qed.

Lemma carried_shard_blind {X} (view : nn_Parameter F -> X) I :
  carried colo_cuda_memory_capacity view I -> shard_blind I.
Proof.
  intros (Hview & Hps & Hr & _). split; [|exact Hr]. intros s ps Heq. apply Hps.
  apply (map_coarser shard_view view); [|exact Heq]. apply Hview.
Qed.

Lemma carried_reconcile_params {X} (view : nn_Parameter F -> X) I :
  carried colo_cuda_memory_capacity view I -> preserves I reconcile_params.
Proof.
  intros (Hview & Hps & _) s H. unfold reconcile_params.
  pose proof (for_objects_view view
                (reconcile_param (_require_backward_grad_sync s) (reuse_fp16_shard s))
                (module_parameters s)) as Hfo.
  destruct (for_objects _ (module_parameters s)) as [ps r]. cbn [fst] in *.
  apply Hps; [|exact H]. apply Hfo.
  apply Forall_forall. intros p _. apply Hview.
Qed.

Lemma carried_post_backward {X} (view : nn_Parameter F -> X) I :
  carried colo_cuda_memory_capacity view I ->
  preserves I (_post_backward_operations reduce_scatter colo_cuda_memory_capacity).
Proof.
  intros Hk. pose proof (carried_shard_blind view I Hk) as HB.
  unfold _post_backward_operations.
  apply preserves_bind; [apply Hk|intros _].
  apply preserves_bind; [apply preserves_get|intros self0].
  apply preserves_bind; [apply preserves_when, preserves_flush, HB|intros _].
  apply preserves_bind; [apply preserves_free, HB|intros _].
  apply preserves_bind; [apply preserves_get|intros self'].
  apply preserves_bind; [apply preserves_when, preserves_shard_unsharded, HB|intros _].
  apply (carried_reconcile_params view I Hk).
Qed.

Lemma carried_forward {X} (view : nn_Parameter F -> X) I readings :
  carried colo_cuda_memory_capacity view I -> preserves I (forward readings).
Proof.
  intros (_ & _ & _ & Hc & _). unfold forward.
  apply preserves_bind; [apply preserves_get|intros self0].
  apply preserves_bind; [apply preserves_when, Hc|intros _].
  apply preserves_for_each. intros r. apply Hc.
Qed.

Lemma carried_trace {X} (view : nn_Parameter F -> X) I trace :
  carried colo_cuda_memory_capacity view I ->
  preserves I (for_each trace (run_autodiff_event reduce_scatter)).
Proof.
  intros Hk. apply preserves_for_each. intros [m o|i g]; simpl.
  - apply Hk.
  - apply preserves_bind; [|intros _; apply preserves_ret].
    apply preserves_hook, (carried_shard_blind view I Hk).
Qed.

Lemma carried_state_dict {X} (view : nn_Parameter F -> X) I :
  carried colo_cuda_memory_capacity view I -> preserves I state_dict.
Proof.
  intros (Hview & Hps & _) s H.
  destruct (check_col_attrs_cases (module_parameters s)) as [Hall|Hex].
  - rewrite (state_dict_run s Hall).
    destruct (module_state_dict (module s) (gathered_data s)) as [sd|e]; cbn [fst];
      (apply Hps; [|exact H]); rewrite map_map; apply map_ext; intros p.
    + apply Hview, resharded_param_view.
    + apply gathered_param_view, Hview.
  - rewrite (state_dict_stops s Hex). exact H.
Qed.

Lemma carried_run_method {X} (view : nn_Parameter F -> X) I (m : method_call F) :
  carried colo_cuda_memory_capacity view I ->
  preserves I (run_method reduce_scatter colo_cuda_memory_capacity m).
Proof.
  intros Hk. pose proof (carried_shard_blind view I Hk) as HB.
  destruct m; simpl.
  - apply (carried_forward view I _ Hk).
  - unfold backward. apply preserves_bind;
      [apply (carried_trace view I _ Hk)|intros _; apply (carried_post_backward view I Hk)].
  - unfold backward_by_grad. apply preserves_bind;
      [apply (carried_trace view I _ Hk)|intros _; apply (carried_post_backward view I Hk)].
  - apply Hk.
  - apply (carried_post_backward view I Hk).
  - unfold discard. apply preserves_bind; [|intros _; apply preserves_ret].
    apply preserves_hook, HB.
  - apply preserves_callback, HB.
  - unfold discard. apply preserves_bind; [|intros _; apply preserves_ret].
    apply (carried_state_dict view I Hk).
  - apply preserves_raise.
  - intros s H. unfold discard, __getitem__, assert_ModuleList. run.
    destruct (is_ModuleList (module s)); simpl; [|exact H].
    destruct (ModuleList_getitem (module s) idx); exact H.
  - intros s H. unfold discard, __len__, assert_ModuleList. run.
    destruct (is_ModuleList (module s)); exact H.
  - intros s H. unfold discard, __iter__, assert_ModuleList. run.
    destruct (is_ModuleList (module s)); exact H.
Qed.

Lemma carried_after_methods {X} (view : nn_Parameter F -> X) I
    (ms : list (method_call F)) (s : ShardedModelV2 F) :
  carried colo_cuda_memory_capacity view I ->
  I s -> I (after_methods reduce_scatter colo_cuda_memory_capacity ms s).
Proof.
  intros Hk. revert s. induction ms as [|m ms IH]; simpl; intros s H; [exact H|].
  apply IH, (carried_run_method view I m Hk), H.
Qed.

Lemma carried_blind {X} (view : nn_Parameter F -> X) I :
  lasting view ->
  (forall s ps, map view ps = map view (module_parameters s) ->
                I s -> I (set_module_parameters s ps)) ->
  (forall s r, I s -> I (set_reducer s r)) ->
  tracker_blind I ->
  carried colo_cuda_memory_capacity view I.
Proof.
  intros Hview Hps Hr HI. repeat split; try assumption; try apply Hview.
  - intros f. apply preserves_modify. intros s H. apply HI, H.
  - apply preserves_update_memstats_blind, HI.
Qed.


Lemma lasting_nothing : lasting (fun _ : nn_Parameter F => tt).
Proof. repeat split. Qed.

Lemma lasting_identity : lasting (identity_view (F:=F)).
Proof.
  split; [|split].
  - intros p q H. unfold shard_view in H. injection H as _ Hr _ _ Ha.
    unfold identity_view. rewrite Hr.
    destruct (col_attr p), (col_attr q); simpl in *; congruence.
  - intros sync reuse p. destruct_param p; cbn.
    + destruct sync, reuse, rg, off, f16 as [g16|], f32 as [acc|], g as [g|];
        crush_reconcile.
    + crush_reconcile.
  - reflexivity.
Qed.

Lemma lasting_frozen : lasting (frozen_view (F:=F)).
Proof.
  split; [|split].
  - intros p q H. unfold shard_view in H. injection H as _ Hr _ Hg Ha.
    unfold frozen_view. rewrite Hr, Hg. destruct (p_requires_grad q); [reflexivity|].
    destruct (col_attr p), (col_attr q); simpl in *; congruence.
  - intros sync reuse p. destruct_param p; cbn.
    + destruct sync, reuse, rg, off, f16 as [g16|], f32 as [acc|], g as [g|];
        crush_reconcile.
    + crush_reconcile.
  - reflexivity.
Qed.

(** X21: no method of the class writes the configuration of the
    orchestrator.  After any sequence of calls (forward, backward, the two
    callbacks, the reconciliation, the state-dict methods, the sequence
    pass-through), whatever each returned or raised, the sharding mode, the
    groups with their size and rank, the strategy, the two gradient factors,
    the offload and reuse settings, the wrapped module's kind, and the
    synchronization flag are those the object was in before. *)
Theorem configuration_is_fixed (self : ShardedModelV2 F) (ms : list (method_call F)) :
  configuration (after_methods reduce_scatter colo_cuda_memory_capacity ms self)
  = configuration self.
Proof.
  apply (carried_after_methods (fun _ => tt)
           (fun s => configuration s = configuration self)); [|reflexivity].
  apply carried_blind.
  - apply lasting_nothing.
  - intros s ps _ H. exact H.
  - intros s r H. exact H.
  - split; [|split]; intros s x H; exact H.
Qed.

(** X22: across any sequence of calls the module has as many parameters as
    before, in the same order, each trainable or frozen as it was, each with
    or without a record as before, and each record with the offload flag it
    had.  (The precision of a parameter is that of its data, which
    [state_dict] reassigns: it is not part of what is kept.) *)
Theorem parameters_keep_their_identity (self : ShardedModelV2 F)
    (ms : list (method_call F)) :
  map identity_view
    (module_parameters (after_methods reduce_scatter colo_cuda_memory_capacity ms self))
  = map identity_view (module_parameters self).
Proof.
  apply (carried_after_methods identity_view
           (fun s => map identity_view (module_parameters s)
                     = map identity_view (module_parameters self))); [|reflexivity].
  apply carried_blind.
  - apply lasting_identity.
  - intros s ps Hps H. rewrite module_parameters_set. congruence.
  - intros s r H. exact H.
  - split; [|split]; intros s x H; exact H.
Qed.

(** X23: no method writes the gradient of a frozen parameter: across any
    sequence of calls, a parameter that does not require a gradient stays
    frozen and keeps the gradient tensor and the accumulator [fp32_grad] it
    had. *)
Theorem frozen_gradients_are_never_written (self : ShardedModelV2 F)
    (ms : list (method_call F)) :
  map frozen_view
    (module_parameters (after_methods reduce_scatter colo_cuda_memory_capacity ms self))
  = map frozen_view (module_parameters self).
Proof.
  apply (carried_after_methods frozen_view
           (fun s => map frozen_view (module_parameters s)
                     = map frozen_view (module_parameters self))); [|reflexivity].
  apply carried_blind.
  - apply lasting_frozen.
  - intros s ps Hps H. rewrite module_parameters_set. congruence.
  - intros s r H. exact H.
  - split; [|split]; intros s x H; exact H.
Qed.

(** X24: without a memory tracker the margin is never computed: across any
    sequence of calls [cuda_margin_space] keeps its value (0 from the
    constructor) and no tracker appears. *)
Theorem margin_without_tracker (self : ShardedModelV2 F) (ms : list (method_call F)) :
  _memstats_collector self = None ->
  cuda_margin_space (after_methods reduce_scatter colo_cuda_memory_capacity ms self)
  = cuda_margin_space self
  /\ _memstats_collector (after_methods reduce_scatter colo_cuda_memory_capacity ms self)
     = None.
Proof.
  intros Hnone.
  apply (carried_after_methods (fun _ => tt)
           (fun s => cuda_margin_space s = cuda_margin_space self
                     /\ _memstats_collector s = None)); [|auto].
  split; [apply lasting_nothing|]. split; [|split; [|split]].
  - intros s ps _ H. exact H.
  - intros s r H. exact H.
  - intros f s [Hm Hc]. unfold on_collector, modify. simpl. rewrite Hc. auto.
  - intros s [Hm Hc]. unfold _update_memstats, on_collector, collector_truthy. run.
    rewrite Hc. rewrite andb_false_r. run. rewrite Hc. run. auto.
Qed.

(** *** From the callback to the published gradient *)

Lemma Forall2_nth_error {A B} (R : A -> B -> Prop) l l' i x :
  Forall2 R l l' -> nth_error l i = Some x ->
  exists y, nth_error l' i = Some y /\ R x y.
Proof.
  intros H. revert i. induction H as [|a b l l' Hab _ IH]; intros [|i]; simpl;
    try discriminate.
  - intros [= <-]. eauto.
  - apply IH.
Qed.

Lemma before_reconcile_quiet (s mid : ShardedModelV2 F) r :
  pending s = [] ->
  before_reconcile reduce_scatter colo_cuda_memory_capacity s = (mid, r) ->
  module_parameters mid = module_parameters s
  \/ module_parameters mid
     = on_sharded_tensors (fun a => negb (param_is_sharded a))
         (fun st => shard_tensor (shard_strategy s) st (process_group s))
         (module_parameters s).
Proof.
  intros Hp.
  pose proof (preserves_update_memstats_blind
                (fun s' => module s' = module s /\ reducer s' = reducer s
                           /\ shard_strategy s' = shard_strategy s
                           /\ process_group s' = process_group s)) as Hmem.
  unfold before_reconcile, bind at 1.
  destruct (_update_memstats colo_cuda_memory_capacity s) as [s1 r1] eqn:Hu.
  assert (H1 : module s1 = module s /\ reducer s1 = reducer s
               /\ shard_strategy s1 = shard_strategy s
               /\ process_group s1 = process_group s).
  { change s1 with (fst (s1, r1)). rewrite <- Hu. apply Hmem; [|auto].
    split; [|split]; intros s0 x H; exact H. }
  destruct H1 as (Hm & Hr & Hst & Hpg).
  destruct r1 as [[]|e];
    [|intros [= <- _]; left; unfold module_parameters; rewrite Hm; reflexivity].
  unfold pending in Hp.
  unfold bind, get.
  assert (Hflush : forall b, exists r,
             when b (reducer_flush reduce_scatter) s1 = (set_reducer s1 r, Return tt)).
  { intros [|]; simpl.
    - unfold reducer_flush, pending, bind, get, modify. rewrite Hr, Hp. simpl.
      eexists. reflexivity.
    - exists (reducer s1). unfold ret. f_equal.
      destruct s1; reflexivity. }
  destruct (Hflush (_require_backward_grad_sync s1)) as [r' ->].
  unfold reducer_free, modify, when.
  destruct (shard_param _).
  - unfold shard_unsharded, bind, get, lift, modify.
    destruct (check_col_attrs _) as [[]|e].
    + intros [= <- _]. right. rewrite module_parameters_set. simpl.
      rewrite Hst, Hpg. unfold module_parameters. simpl. rewrite Hm. reflexivity.
    + intros [= <- _]. left. unfold module_parameters. simpl. rewrite Hm. reflexivity.
  - intros [= <- _]. left. unfold module_parameters. simpl. rewrite Hm. reflexivity.
Qed.

(** X25: from the callback to the published gradient, on one worker.  In a
    synchronized pass over a group of one worker with nothing queued, let
    the gradient-completion callback fire for a trainable parameter without
    accumulator, and let the reconciliation that follows return: the
    gradient of the parameter then holds the values of the incoming gradient,
    each converted to the precision of the data of the parameter when
    [fp32_reduce_scatter] is set (which rounds it, or overflows) and then
    divided by the predivide and by the postdivide factor (each only when it
    exceeds 1); it is on the host when the record asks for offload and where
    the incoming gradient was otherwise; it is in full precision, or in reuse
    mode in the precision the callback stored. *)
Theorem single_worker_gradient_round (self s2 : ShardedModelV2 F) (i : nat)
    (g : Tensor F) (p : nn_Parameter F) (a : ShardedParamV2 F) :
  _require_backward_grad_sync self = true ->
  world_size self <= 1 ->
  pending self = [] ->
  t_requires_grad g = false ->
  nth_error (module_parameters self) i = Some p ->
  col_attr p = Some a ->
  p_requires_grad p = true ->
  fp32_grad a = None ->
  _post_backward_operations reduce_scatter colo_cuda_memory_capacity
    (fst (_grad_post_backward_hook reduce_scatter i (Some g) self))
  = (s2, Return tt) ->
  exists p2 g2,
    nth_error (module_parameters s2) i = Some p2
    /\ p_grad p2 = Some g2
    /\ t_values g2
       = map (fun x => divided_if_above_one (gradient_postdivide_factor self)
                         (divided_if_above_one (gradient_predivide_factor self)
                            (if fp32_reduce_scatter self then fcast (p_dtype p) x else x)))
           (t_values g)
    /\ t_device g2 = (if offload_grad a then cpu else t_device g)
    /\ t_dtype g2
       = (if reuse_fp16_shard self
          then if fp32_reduce_scatter self then p_dtype p else t_dtype g
          else float32).
Proof.
  intros Hs Hw Hq Hg Hn Ha Hrg Hacc.
  rewrite (hook_single_worker_effect self i g p a Hs Hw Hg Hn Ha). cbn [fst]. cbv zeta.
  set (stored := mkTensor _ _ false _).
  set (a1 := if reuse_fp16_shard self then _ else _).
  set (s1 := set_module_parameters self _).
  intros Hrun. rewrite post_backward_split in Hrun. unfold bind in Hrun.
  destruct (before_reconcile_flags s1) as [Hsy Hre].
  destruct (before_reconcile reduce_scatter colo_cuda_memory_capacity s1)
    as [mid [[]|e]] eqn:Hmid; [|discriminate].
  simpl in Hsy, Hre.
  assert (Hpm : exists am,
             nth_error (module_parameters mid) i
             = Some (set_col_attr p am)
             /\ fp16_grad am = fp16_grad a1 /\ fp32_grad am = None
             /\ offload_grad am = offload_grad a
             /\ (reuse_fp16_shard self = true ->
                 sharded_data_tensor am = sharded_data_tensor a1)).
  { assert (Hn1 : nth_error (module_parameters s1) i = Some (set_col_attr p a1)).
    { unfold s1. rewrite module_parameters_set. apply (nth_error_list_set_same _ _ p), Hn. }
    assert (Ha1 : fp32_grad a1 = None /\ offload_grad a1 = offload_grad a
                  /\ (reuse_fp16_shard self = true -> param_is_sharded a1 = true)).
    { unfold a1. destruct (reuse_fp16_shard self); simpl; auto. split; auto. split; auto.
      discriminate. }
    destruct Ha1 as (Hf1 & Ho1 & Hsh1).
    destruct (before_reconcile_quiet s1 mid _ Hq Hmid) as [-> | ->].
    - exists a1. rewrite Hn1. auto.
    - unfold on_sharded_tensors. rewrite nth_error_map, Hn1. simpl.
      destruct (param_is_sharded a1) eqn:Hsa; simpl.
      + exists a1. auto.
      + eexists. split; [reflexivity|]. simpl. repeat split; auto.
        intros Hr. discriminate (Hsh1 Hr). }
  destruct Hpm as (am & Hnm & Hf16 & Hf32 & Hoff & Hsdt).
  unfold reconcile_params in Hrun. rewrite Hsy, Hre in Hrun.
  change (_require_backward_grad_sync s1) with (_require_backward_grad_sync self) in Hrun.
  change (reuse_fp16_shard s1) with (reuse_fp16_shard self) in Hrun.
  rewrite Hs in Hrun.
  pose proof (for_objects_returns (reconcile_param true (reuse_fp16_shard self))
                (module_parameters mid)) as Hloop.
  destruct (for_objects _ (module_parameters mid)) as [ps r].
  injection Hrun as <- ->. specialize (Hloop eq_refl). cbn [fst] in Hloop.
  destruct (Forall2_nth_error _ _ _ _ _ Hloop Hnm) as (p2 & Hn2 & Hp2).
  rewrite module_parameters_set. exists p2.
  destruct (reconcile_param_returned _ _ p2 Hp2 Hrg) as (a' & g' & t & Ha' & Hg' & Ht).
  simpl in Ha'. injection Ha' as <-.
  pose proof (eq_trans (eq_sym Hp2)
                (reconcile_param_publishes (reuse_fp16_shard self) (set_col_attr p am) am g' t
                   eq_refl Hrg Hg' Ht)) as Heq.
  injection Heq as ->. eexists. split; [exact Hn2|]. simpl. split; [reflexivity|].
  unfold authoritative_gradient, selected_payload, relocated in Ht.
  rewrite Hf32, Hf16, Hoff in Ht. unfold a1 in *.
  destruct (reuse_fp16_shard self) eqn:Hreuse.
  - rewrite (Hsdt eq_refl) in Ht. simpl in Ht.
    destruct (offload_grad a); injection Ht as <-; simpl; auto.
  - simpl in Ht. destruct (offload_grad a); injection Ht as <-; simpl; auto.
Qed.

End Properties.

(** * The two gradient factors *)

(** The constructor computes [world_size / gradient_predivide_factor] in
    binary64.  The product of the two factors is the worker count whenever
    that quotient needs no rounding; the lemmas below follow the rounding of
    the quotient and of the product on the mantissas. *)

(** ** The digits of a mantissa *)

Lemma digits2_pos_bounds (m : positive) :
  2 ^ (Zpos (digits2_pos m) - 1) <= Zpos m < 2 ^ Zpos (digits2_pos m).
Proof.
  induction m as [m IH|m IH|]; simpl digits2_pos.
  - rewrite Pos2Z.inj_succ, (Pos2Z.inj_xI m).
    replace (Z.succ (Zpos (digits2_pos m)) - 1) with (Z.succ (Zpos (digits2_pos m) - 1)) by lia.
    rewrite !Z.pow_succ_r by lia.
    generalize dependent (2 ^ (Zpos (digits2_pos m) - 1)).
    generalize (2 ^ Zpos (digits2_pos m)). intros; lia.
  - rewrite Pos2Z.inj_succ, (Pos2Z.inj_xO m).
    replace (Z.succ (Zpos (digits2_pos m)) - 1) with (Z.succ (Zpos (digits2_pos m) - 1)) by lia.
    rewrite !Z.pow_succ_r by lia.
    generalize dependent (2 ^ (Zpos (digits2_pos m) - 1)).
    generalize (2 ^ Zpos (digits2_pos m)). intros; lia.
  - simpl. lia.
Qed.

Lemma digits2_pos_unique (m : positive) (d : Z) :
  2 ^ (d - 1) <= Zpos m < 2 ^ d -> Zpos (digits2_pos m) = d.
Proof.
  intros [Hl Hu]. destruct (digits2_pos_bounds m) as [Hl' Hu'].
  assert (Hd : 0 < d).
  { destruct (Z_lt_le_dec 0 d) as [|Hn]; [assumption|].
    assert (2 ^ d <= 1); [|lia].
    destruct (Z.eq_dec d 0) as [->|]; [simpl; lia|].
    rewrite Z.pow_neg_r by lia. lia. }
  destruct (Z_lt_le_dec (Zpos (digits2_pos m)) d) as [Hlt|Hge].
  - assert (2 ^ Zpos (digits2_pos m) <= 2 ^ (d - 1)) by (apply Z.pow_le_mono_r; lia). lia.
  - destruct (Z_lt_le_dec d (Zpos (digits2_pos m))) as [Hlt|Hle]; [|lia].
    assert (2 ^ d <= 2 ^ (Zpos (digits2_pos m) - 1)) by (apply Z.pow_le_mono_r; lia). lia.
Qed.

Lemma digits2_pos_shift (m mm : positive) (k : Z) :
  0 <= k -> Zpos mm = Zpos m * 2 ^ k ->
  Zpos (digits2_pos mm) = Zpos (digits2_pos m) + k.
Proof.
  intros Hk Hm. apply digits2_pos_unique. rewrite Hm.
  destruct (digits2_pos_bounds m) as [Hl Hu].
  assert (Hp : 0 < 2 ^ k) by (apply Z.pow_pos_nonneg; lia).
  replace (Zpos (digits2_pos m) + k - 1) with ((Zpos (digits2_pos m) - 1) + k) by lia.
  rewrite !Z.pow_add_r by lia. split.
  - apply Z.mul_le_mono_nonneg_r; lia.
  - apply Z.mul_lt_mono_pos_r; lia.
Qed.

Lemma digits2_pos_mul (a b : positive) :
  Zpos (digits2_pos a) + Zpos (digits2_pos b) - 1 <= Zpos (digits2_pos (a * b))
  <= Zpos (digits2_pos a) + Zpos (digits2_pos b).
Proof.
  destruct (digits2_pos_bounds a) as [Hla Hua], (digits2_pos_bounds b) as [Hlb Hub],
    (digits2_pos_bounds (a * b)) as [Hl Hu].
  rewrite Pos2Z.inj_mul in Hl, Hu.
  set (da := Zpos (digits2_pos a)) in *. set (db := Zpos (digits2_pos b)) in *.
  set (d := Zpos (digits2_pos (a * b))) in *.
  assert (0 < da /\ 0 < db /\ 0 < d) as (Ha & Hb & Hd) by (unfold da, db, d; lia).
  assert (Hlow : 2 ^ (da - 1 + (db - 1)) <= Zpos a * Zpos b).
  { rewrite Z.pow_add_r by lia. apply Z.mul_le_mono_nonneg; try lia;
      apply Z.pow_nonneg; lia. }
  assert (Hup : Zpos a * Zpos b < 2 ^ (da + db)).
  { rewrite Z.pow_add_r by lia. apply Z.mul_lt_mono_nonneg; lia. }
  split.
  - destruct (Z_lt_le_dec d (da + db - 1)) as [Hlt|]; [|lia].
    assert (2 ^ d <= 2 ^ (da - 1 + (db - 1))) by (apply Z.pow_le_mono_r; lia). lia.
  - destruct (Z_lt_le_dec (da + db) d) as [Hlt|]; [|lia].
    assert (2 ^ (da + db) <= 2 ^ (d - 1)) by (apply Z.pow_le_mono_r; lia). lia.
Qed.

(** ** Shifting a mantissa that ends in zeros *)

Lemma shr_1_double (k : Z) :
  shr_1 (Build_shr_record (2 * k) false false) = Build_shr_record k false false.
Proof. destruct k; reflexivity. Qed.

Lemma iter_shr_1_exact (p : positive) : forall m : Z,
  iter_pos shr_1 p (Build_shr_record (m * 2 ^ Zpos p) false false)
  = Build_shr_record m false false.
Proof.
  induction p as [p IH|p IH|]; intros m.
  - rewrite (Pos2Z.inj_xI p).
    replace (m * 2 ^ (2 * Zpos p + 1)) with (2 * ((m * 2 ^ Zpos p) * 2 ^ Zpos p)).
    + cbn [iter_pos]. rewrite shr_1_double, IH, IH. reflexivity.
    + rewrite Z.pow_add_r, Z.pow_mul_r by lia. change (2 ^ 2) with 4.
      rewrite Z.pow_1_r.
      replace (4 ^ Zpos p) with (2 ^ Zpos p * 2 ^ Zpos p).
      * ring.
      * rewrite <- Z.pow_mul_l. reflexivity.
  - rewrite (Pos2Z.inj_xO p).
    replace (m * 2 ^ (2 * Zpos p)) with ((m * 2 ^ Zpos p) * 2 ^ Zpos p).
    + cbn [iter_pos]. rewrite IH, IH. reflexivity.
    + rewrite Z.pow_mul_r by lia. change (2 ^ 2) with 4.
      replace (4 ^ Zpos p) with (2 ^ Zpos p * 2 ^ Zpos p).
      * ring.
      * rewrite <- Z.pow_mul_l. reflexivity.
  - change (2 ^ 1) with 2. rewrite Z.mul_comm. cbn [iter_pos]. apply shr_1_double.
Qed.

(** ** Rounding a number that needs none *)

Lemma bounded_canonical (m : positive) (e : Z) :
  bounded prec emax m e = true ->
  fexp prec emax (Zpos (digits2_pos m) + e) = e /\ e <= emax - prec.
Proof.
  unfold bounded, canonical_mantissa. intros H.
  apply andb_true_iff in H as [Hc He].
  apply Z.eqb_eq in Hc. apply Z.leb_le in He. auto.
Qed.

Lemma binary_round_aux_exact (s : bool) (mm mz : positive) (e ez : Z) :
  bounded prec emax mz ez = true -> e <= ez -> Zpos mm = Zpos mz * 2 ^ (ez - e) ->
  binary_round_aux prec emax s (Zpos mm) e loc_Exact = S754_finite s mz ez.
Proof.
  intros Hb He Hm. destruct (bounded_canonical _ _ Hb) as [Hc Hmax].
  assert (Hd : Zpos (digits2_pos mm) + e = Zpos (digits2_pos mz) + ez).
  { rewrite (digits2_pos_shift mz mm (ez - e)); lia. }
  unfold binary_round_aux.
  assert (H1 : shr_fexp prec emax (Zpos mm) e loc_Exact
               = (Build_shr_record (Zpos mz) false false, ez)).
  { unfold shr_fexp. simpl Zdigits2. rewrite Hd, Hc. simpl shr_record_of_loc.
    unfold shr. destruct (ez - e) as [|p|p] eqn:Hk.
    - rewrite Z.pow_0_r, Z.mul_1_r in Hm. rewrite Hm. f_equal. lia.
    - rewrite Hm, iter_shr_1_exact. f_equal. lia.
    - lia. }
  rewrite H1. simpl shr_m. simpl loc_of_shr_record. simpl round_nearest_even.
  assert (H2 : shr_fexp prec emax (Zpos mz) ez loc_Exact
               = (Build_shr_record (Zpos mz) false false, ez)).
  { unfold shr_fexp. simpl Zdigits2. rewrite Hc, Z.sub_diag. reflexivity. }
  rewrite H2. simpl shr_m. apply Z.leb_le in Hmax. rewrite Hmax. reflexivity.
Qed.

(** ** Products and quotients that need no rounding *)

Lemma SFmul_exact (sx sy : bool) (mx my mz : positive) (ex ey ez : Z) :
  bounded prec emax mx ex = true -> bounded prec emax my ey = true ->
  bounded prec emax mz ez = true ->
  (forall c, c <= ex + ey -> c <= ez ->
     Zpos mx * Zpos my * 2 ^ (ex + ey - c) = Zpos mz * 2 ^ (ez - c)) ->
  SFmul prec emax (S754_finite sx mx ex) (S754_finite sy my ey)
  = S754_finite (xorb sx sy) mz ez.
Proof.
  intros Hbx Hby Hbz Hv.
  destruct (bounded_canonical _ _ Hbx) as [Hcx _], (bounded_canonical _ _ Hby) as [Hcy _],
    (bounded_canonical _ _ Hbz) as [Hcz _].
  pose proof (digits2_pos_mul mx my) as Hd.
  assert (Hle : ex + ey <= ez).
  { destruct (Z_le_gt_dec (ex + ey) ez) as [|Hgt]; [assumption|].
    specialize (Hv ez ltac:(lia) ltac:(lia)).
    rewrite Z.sub_diag, Z.pow_0_r, Z.mul_1_r, <- Pos2Z.inj_mul in Hv.
    pose proof (digits2_pos_shift (mx * my) mz (ex + ey - ez) ltac:(lia) (eq_sym Hv)) as Hs.
    unfold fexp, emin, prec, emax in *. lia. }
  unfold SFmul. apply binary_round_aux_exact; [assumption|lia|].
  specialize (Hv (ex + ey) ltac:(lia) ltac:(lia)).
  rewrite Z.sub_diag, Z.pow_0_r, Z.mul_1_r in Hv. rewrite Pos2Z.inj_mul. exact Hv.
Qed.

Lemma SFdiv_exact (sz sx : bool) (mz mx mq : positive) (ez ex eq : Z) :
  bounded prec emax mz ez = true -> bounded prec emax mx ex = true ->
  bounded prec emax mq eq = true ->
  (forall c, c <= ex + eq -> c <= ez ->
     Zpos mx * Zpos mq * 2 ^ (ex + eq - c) = Zpos mz * 2 ^ (ez - c)) ->
  SFdiv prec emax (S754_finite sz mz ez) (S754_finite sx mx ex)
  = S754_finite (xorb sz sx) mq eq.
Proof.
  intros Hbz Hbx Hbq Hv.
  destruct (bounded_canonical _ _ Hbx) as [Hcx _], (bounded_canonical _ _ Hbz) as [Hcz _],
    (bounded_canonical _ _ Hbq) as [Hcq _].
  pose proof (digits2_pos_mul mx mq) as Hd.
  unfold SFdiv, SFdiv_core_binary. simpl Zdigits2.
  set (e' := Z.min (fexp prec emax (Zpos (digits2_pos mz) + ez - (Zpos (digits2_pos mx) + ex)))
               (ez - ex)).
  assert (He' : e' <= eq).
  { destruct (Z_le_gt_dec (ez - ex) eq) as [|Hgt]; [unfold e'; lia|].
    specialize (Hv (ex + eq) ltac:(lia) ltac:(lia)).
    rewrite Z.sub_diag, Z.pow_0_r, Z.mul_1_r, <- Pos2Z.inj_mul in Hv.
    pose proof (digits2_pos_shift mz (mx * mq) (ez - (ex + eq)) ltac:(lia) Hv) as Hs.
    unfold e', fexp, emin, prec, emax in *. lia. }
  assert (Hle : e' <= ez - ex) by (unfold e'; lia).
  specialize (Hv (ex + e') ltac:(lia) ltac:(lia)).
  replace (ex + eq - (ex + e')) with (eq - e') in Hv by lia.
  replace (ez - (ex + e')) with (ez - ex - e') in Hv by lia.
  assert (Hm : match ez - ex - e' with
               | Zpos _ => Z.shiftl (Zpos mz) (ez - ex - e')
               | Z0 => Zpos mz
               | Zneg _ => 0
               end = Zpos mq * 2 ^ (eq - e') * Zpos mx).
  { destruct (ez - ex - e') as [|p|p] eqn:Hs.
    - rewrite Z.pow_0_r, Z.mul_1_r in Hv. lia.
    - rewrite Z.shiftl_mul_pow2 by lia. lia.
    - lia. }
  rewrite Hm.
  assert (Hk : 0 < Zpos mq * 2 ^ (eq - e')).
  { apply Z.mul_pos_pos; [lia|]. apply Z.pow_pos_nonneg; lia. }
  pose proof (Z.div_mul (Zpos mq * 2 ^ (eq - e')) (Zpos mx) ltac:(lia)) as Hq.
  pose proof (Z.mod_mul (Zpos mq * 2 ^ (eq - e')) (Zpos mx) ltac:(lia)) as Hr.
  unfold Z.div, Z.modulo in Hq, Hr.
  destruct (Z.div_eucl (Zpos mq * 2 ^ (eq - e') * Zpos mx) (Zpos mx)) as [q0 r].
  subst q0 r.
  assert (Hloc : new_location (Zpos mx) 0 = loc_Exact).
  { unfold new_location, new_location_even, new_location_odd.
    destruct (Z.even (Zpos mx)); reflexivity. }
  rewrite Hloc.
  destruct (Zpos mq * 2 ^ (eq - e')) as [|k|k] eqn:Hkk; try lia.
  apply binary_round_aux_exact; [assumption|lia|lia].
Qed.

Lemma SFeqb_finite_refl (s : bool) (m : positive) (e : Z) :
  SFeqb (S754_finite s m e) (S754_finite s m e) = true.
Proof.
  unfold SFeqb, SFcompare.
  destruct s; rewrite Z.compare_refl, Pos.compare_cont_refl; reflexivity.
Qed.

(** ** From the values to the mantissas *)

Lemma Qpower2_shift (a b ea eb c : Z) :
  (inject_Z a * 2 ^ ea == inject_Z b * 2 ^ eb)%Q -> c <= ea -> c <= eb ->
  a * 2 ^ (ea - c) = b * 2 ^ (eb - c).
Proof.
  intros H Ha Hb. apply inject_Z_injective.
  rewrite !inject_Z_mult, !Zpower_Qpower by lia.
  change (inject_Z 2) with 2%Q.
  assert (H2 : ~ (2 == 0)%Q) by discriminate.
  apply (Qmult_inj_r _ _ (2 ^ c)%Q); [apply Qpower_not_0, H2|].
  rewrite <- !Qmult_assoc, <- !Qpower_plus by exact H2.
  replace (ea - c + c) with ea by lia. replace (eb - c + c) with eb by lia.
  exact H.
Qed.

Lemma signed_product (sx sq sz : bool) (mx mq mz : positive) (p r : Z) :
  0 < p -> 0 < r ->
  cond_Zopp sx (Zpos mx) * cond_Zopp sq (Zpos mq) * p = cond_Zopp sz (Zpos mz) * r ->
  sz = xorb sx sq /\ Zpos mx * Zpos mq * p = Zpos mz * r.
Proof.
  intros Hp Hr H.
  assert (H1 : 0 < Zpos mx * Zpos mq * p) by (apply Z.mul_pos_pos; lia).
  assert (H2 : 0 < Zpos mz * r) by (apply Z.mul_pos_pos; lia).
  destruct sx, sq, sz; simpl cond_Zopp in H;
    rewrite <- ?Pos2Z.opp_pos, ?Z.mul_opp_l, ?Z.mul_opp_r, ?Z.opp_involutive,
      ?Z.mul_opp_l in H;
    simpl xorb; split; try reflexivity; lia.
Qed.

Lemma finite_value_nonzero (s : bool) (m : positive) (e : Z) :
  ~ (inject_Z (cond_Zopp s (Zpos m)) * 2 ^ e == 0)%Q.
Proof.
  intros H. apply Qmult_integral in H as [H|H].
  - change 0%Q with (inject_Z 0) in H. apply inject_Z_injective in H.
    destruct s; discriminate H.
  - revert H. apply Qpower_not_0. discriminate.
Qed.

(** ** The product of a factor and an exact quotient *)

Lemma exact_quotient_multiplies_back (z x : float) :
  exact_quotient z x -> PrimFloat.eqb x (binary64_of_int 0) = false ->
  PrimFloat.eqb (x * (z / x)) z = true.
Proof.
  intros [q H] Hx0. unfold binary64_value in H.
  rewrite FloatAxioms.eqb_spec in Hx0 |- *.
  rewrite FloatAxioms.mul_spec, FloatAxioms.div_spec.
  pose proof (Prim2SF_valid x) as Vx. pose proof (Prim2SF_valid q) as Vq.
  pose proof (Prim2SF_valid z) as Vz.
  change (Prim2SF (binary64_of_int 0)) with (S754_zero false) in Hx0.
  destruct (Prim2SF x) as [sx|sx| |sx mx ex]; try contradiction;
    [destruct sx; discriminate Hx0|].
  destruct (Prim2SF q) as [sq|sq| |sq mq eq]; try contradiction;
    destruct (Prim2SF z) as [sz|sz| |sz mz ez]; try contradiction.
  - reflexivity.
  - exfalso. rewrite Qmult_0_r in H. symmetry in H. revert H. apply finite_value_nonzero.
  - exfalso. apply Qmult_integral in H as [H|H]; revert H; apply finite_value_nonzero.
  - simpl in Vx, Vq, Vz.
    assert (H2 : ~ (2 == 0)%Q) by discriminate.
    assert (Hq : (inject_Z (cond_Zopp sx (Zpos mx) * cond_Zopp sq (Zpos mq)) * 2 ^ (ex + eq)
                  == inject_Z (cond_Zopp sz (Zpos mz)) * 2 ^ ez)%Q).
    { rewrite <- H, inject_Z_mult, Qpower_plus by exact H2.
      generalize (2 ^ ex)%Q (2 ^ eq)%Q. intros; ring. }
    assert (Hall : forall c, c <= ex + eq -> c <= ez ->
              sz = xorb sx sq
              /\ Zpos mx * Zpos mq * 2 ^ (ex + eq - c) = Zpos mz * 2 ^ (ez - c)).
    { intros c H1 H3. apply signed_product; try (apply Z.pow_pos_nonneg; lia).
      rewrite <- Z.mul_assoc.
      rewrite (Z.mul_assoc (cond_Zopp sx (Zpos mx))).
      apply Qpower2_shift; assumption. }
    assert (Hs : sz = xorb sx sq).
    { apply (Hall (Z.min (ex + eq) ez)); lia. }
    unfold SF64div, SF64mul.
    rewrite (SFdiv_exact sz sx mz mx mq ez ex eq Vz Vx Vq (fun c H1 H3 => proj2 (Hall c H1 H3))).
    rewrite (SFmul_exact sx (xorb sz sx) mx mq mz ex eq ez Vx Vq Vz
               (fun c H1 H3 => proj2 (Hall c H1 H3))).
    replace (xorb sx (xorb sz sx)) with sz by (destruct sx, sz; reflexivity).
    apply SFeqb_finite_refl.
Qed.

(** ** Integers below 2^53 *)

Lemma iter_xO_shift (p k : positive) :
  Zpos (Pos.iter xO p k) = Zpos p * 2 ^ Zpos k.
Proof.
  induction k as [|k IH] using Pos.peano_ind.
  - simpl. lia.
  - rewrite Pos.iter_succ, Pos2Z.inj_xO, IH, Pos2Z.inj_succ, Z.pow_succ_r by lia. ring.
Qed.

Lemma binary64_value_of_int (n : Z) :
  0 < n < 2 ^ 53 ->
  exists v, binary64_value (binary64_of_int n) = Some v /\ (v == inject_Z n)%Q.
Proof.
  intros [Hn0 Hn]. destruct n as [|p|p]; try lia.
  destruct (digits2_pos_bounds p) as [Hl Hu].
  set (d := Zpos (digits2_pos p)) in *.
  assert (Hd : 0 < d <= 53).
  { split; [unfold d; lia|].
    destruct (Z_le_gt_dec d 53) as [|Hgt]; [assumption|].
    assert (2 ^ 53 <= 2 ^ (d - 1)) by (apply Z.pow_le_mono_r; lia). lia. }
  assert (Hsh : exists mz,
             shl_align p 0 (fexp prec emax (d + 0)) = (mz, d - 53)
             /\ Zpos mz = Zpos p * 2 ^ (53 - d)).
  { unfold shl_align, fexp, emin, prec, emax.
    replace (Z.max (d + 0 - 53) (3 - 1024 - 53) - 0) with (d - 53) by lia.
    destruct (d - 53) as [|k|k] eqn:Hk; try lia.
    - exists p. replace (53 - d) with 0 by lia. split; [f_equal; lia|lia].
    - exists (Pos.iter xO p k). split; [f_equal; lia|].
      rewrite iter_xO_shift. f_equal. f_equal. lia. }
  destruct Hsh as (mz & Hsh & Hmz).
  assert (Hb : bounded prec emax mz (d - 53) = true).
  { unfold bounded, canonical_mantissa.
    rewrite (digits2_pos_shift p mz (53 - d)) by (lia || assumption).
    fold d. apply andb_true_iff. split; [apply Z.eqb_eq|apply Z.leb_le];
      unfold fexp, emin, prec, emax; lia. }
  assert (Hr : binary_normalize prec emax (Zpos p) 0 false = S754_finite false mz (d - 53)).
  { unfold binary_normalize, binary_round. fold d. rewrite Hsh.
    apply binary_round_aux_exact; [assumption|lia|].
    rewrite Z.sub_diag, Z.pow_0_r. lia. }
  unfold binary64_value, binary64_of_int. rewrite Hr, Prim2SF_SF2Prim by exact Hb.
  eexists. split; [reflexivity|].
  simpl cond_Zopp. rewrite Hmz, inject_Z_mult, Zpower_Qpower by lia.
  change (inject_Z 2) with 2%Q.
  rewrite <- Qmult_assoc, <- Qpower_plus by discriminate.
  replace (53 - d + (d - 53)) with 0 by lia. rewrite Qpower_0_r. apply Qmult_1_r.
Qed.

Lemma exact_quotient_of_divisor (n d : Z) :
  0 < n < 2 ^ 53 -> 0 < d -> (d | n) ->
  exact_quotient (binary64_of_int n) (binary64_of_int d).
Proof.
  intros Hn Hd [k Hk].
  assert (Hkn : 0 < k <= n) by nia.
  assert (Hdn : d <= n) by nia.
  destruct (binary64_value_of_int n Hn) as (vn & Hvn & Hen).
  destruct (binary64_value_of_int d ltac:(lia)) as (vd & Hvd & Hed).
  destruct (binary64_value_of_int k ltac:(lia)) as (vk & Hvk & Hek).
  exists (binary64_of_int k). rewrite Hvn, Hvd, Hvk, Hen, Hed, Hek.
  rewrite <- inject_Z_mult. apply inject_Z_injective. lia.
Qed.

(** The conversions round: to float16, 100000 overflows, 2049 is not a
    number of the format and the binary64 number nearest to 0.1 keeps eleven
    bits; to float32, it keeps twenty-four. *)
Example binary64_cast_rounds :
  fcast float16 100000%float = infinity
  /\ fcast float16 2049%float = 2048%float
  /\ fcast float16 0x1.999999999999ap-4%float = 0.0999755859375%float
  /\ fcast float32 0x1.999999999999ap-4%float = 0.100000001490116119384765625%float
  /\ fcast float32 100000%float = 100000%float.
Proof. repeat split; vm_compute; reflexivity. Qed.

(** The derived factor is a divisor of the worker count, and at least 1. *)
Lemma largest_factor_upto_divides (n : Z) (k : nat) :
  1 <= largest_factor_upto n k /\ (largest_factor_upto n k | n).
Proof.
  induction k as [|k IH]; [split; [simpl; lia|apply Z.divide_1_l]|].
  change (largest_factor_upto n (S k))
    with (if n mod Z.of_nat (S k) =? 0 then Z.of_nat (S k)
          else largest_factor_upto n k).
  destruct (n mod Z.of_nat (S k) =? 0) eqn:Hm; [|exact IH].
  split; [lia|]. apply Z.eqb_eq in Hm. apply Z.mod_divide; [lia|exact Hm].
Qed.

Example derived_factor_of_12_workers :
  largest_factor_upto 12 (Z.to_nat (Z.sqrt 12)) = 3.
Proof. reflexivity. Qed.

(** C2 (amended): for every orchestrator the constructor returns, in the
    binary64 arithmetic of the interpreter, the two factors multiply back to
    the worker count whenever the quotient of the worker count by the
    predivide factor is itself a binary64 number; and it is one, for every
    worker count below 2^53, when the predivide factor is the default 1.0 or
    is derived from the worker count. *)
Theorem factors_multiply_to_world_size
    (gpc_data_group : ProcessGroup) (m : nn_Module float)
    (strategy : BaseShardStrategy float)
    (pg rs_pg : option ProcessGroup) (mb : Z) (fp32 : bool)
    (offload_config : option (list (string * string))) (pre : option float)
    (tracer reuse : bool) (self : ShardedModelV2 float) :
  __init__ gpc_data_group m strategy pg rs_pg mb fp32 offload_config pre tracer reuse
  = Return self ->
  (exact_quotient (float_of_int (world_size self)) (gradient_predivide_factor self) ->
   feqb (fmul (gradient_predivide_factor self) (gradient_postdivide_factor self))
        (float_of_int (world_size self))
   = true)
  /\ (pre = Some 1%float \/ pre = None ->
      0 < world_size self < 2 ^ 53 ->
      feqb (fmul (gradient_predivide_factor self) (gradient_postdivide_factor self))
           (float_of_int (world_size self))
      = true).
Proof.
  intros Hinit.
  destruct (init_factors gpc_data_group m strategy pg rs_pg mb fp32 offload_config
              pre tracer reuse self Hinit) as [Hpre Hdiv].
  unfold py_truediv in Hdiv.
  destruct (feqb (gradient_predivide_factor self) (float_of_int 0)) eqn:Hz; [discriminate|].
  injection Hdiv as Hpost.
  assert (Hmain : exact_quotient (float_of_int (world_size self))
                    (gradient_predivide_factor self) ->
                  feqb (fmul (gradient_predivide_factor self)
                          (gradient_postdivide_factor self))
                       (float_of_int (world_size self))
                  = true).
  { intros Hq. rewrite <- Hpost. apply exact_quotient_multiplies_back; assumption. }
  split; [exact Hmain|].
  intros Hp Hn. apply Hmain. rewrite Hpre. destruct Hp as [-> | ->].
  - change 1%float with (binary64_of_int 1).
    apply exact_quotient_of_divisor; [exact Hn|lia|apply Z.divide_1_l].
  - unfold get_gradient_predivide_factor.
    destruct (largest_factor_upto_divides (world_size self)
                (Z.to_nat (Z.sqrt (world_size self)))) as [Hd1 Hd].
    apply exact_quotient_of_divisor; [exact Hn|lia|exact Hd].
Qed.

(** C2, the claim as stated: in binary64 the quotient is rounded; with 15
    workers and a supplied predivide factor of 11.0 the constructor returns
    an orchestrator whose two factors do not multiply back to 15. *)
Lemma factors_of_15_workers_and_11 :
  exists self : ShardedModelV2 float,
    __init__ two_workers (plain_module []) marking_strategy
      (Some (mkProcessGroup 0 15)) None 25 false None (Some 11%float) false false
    = Return self
    /\ feqb (fmul (gradient_predivide_factor self) (gradient_postdivide_factor self))
            (float_of_int (world_size self))
       = false.
Proof. eexists. split; [vm_compute; reflexivity|vm_compute; reflexivity]. Qed.

(** * The theorems at concrete orchestrators *)


(** On that orchestrator the gradient published for the second parameter is
    its accumulator with the reduced gradient added into it. *)
Example accumulated_gradient_is_published :
  nth_error
    (map p_grad
       (module_parameters
          (fst (_post_backward_operations lone_reduce_scatter 1000 accumulating_model))))
    1
  = Some (Some (tensor_of float32 cuda [13; 24])).
Proof. vm_compute. reflexivity. Qed.


Lemma factors_multiply_to_world_size_witness :
  exists self : ShardedModelV2 float,
    __init__ two_workers (plain_module []) marking_strategy
      (Some (mkProcessGroup 0 12)) None 25 false None (Some 3%float) false false
    = Return self
    /\ gradient_postdivide_factor self = 4%float
    /\ feqb (fmul (gradient_predivide_factor self) (gradient_postdivide_factor self))
            (float_of_int (world_size self))
       = true.
Proof.
  eexists. split; [vm_compute; reflexivity|]. split; [vm_compute; reflexivity|].
  refine (proj1 (factors_multiply_to_world_size two_workers (plain_module [])
                   marking_strategy (Some (mkProcessGroup 0 12)) None 25 false None
                   (Some 3%float) false false _ _) _).
  - vm_compute. reflexivity.
  - exists 4%float. vm_compute. reflexivity.
Defined.

Lemma hook_without_sync_witness :
  fst (_grad_post_backward_hook lone_reduce_scatter 0
         (Some (tensor_of float16 cuda [7; 9])) nosync_model)
  = nosync_model
  /\ snd (_grad_post_backward_hook lone_reduce_scatter 0
            (Some (tensor_of float16 cuda [7; 9])) nosync_model)
     = Return None.
Proof.
  destruct (hook_without_sync lone_reduce_scatter nosync_model 0
              (Some (tensor_of float16 cuda [7; 9])) eq_refl)
    as (Hframe & _ & _ & Hret).
  split; [exact Hframe|exact (Hret eq_refl)].
Defined.


Lemma reconciliation_twice_witness :
  map p_grad
    (module_parameters
       (fst (_post_backward_operations lone_reduce_scatter 1000
               (fst (_post_backward_operations lone_reduce_scatter 1000 pending_model)))))
  = map p_grad
      (module_parameters
         (fst (_post_backward_operations lone_reduce_scatter 1000 pending_model))).
Proof.
  apply (reconciliation_twice lone_reduce_scatter 1000 pending_model).
  - intros st g. reflexivity.
  - vm_compute. reflexivity.
Defined.

Lemma init_refuses_mixed_or_missing_witness :
  exists msg,
    __init__ two_workers (plain_module [ready_param; unsharded_param]) marking_strategy
      None None 25 false None (Some (inject_Z 1)) false false
    = Raise (AssertionError msg).
Proof.
  apply init_refuses_mixed_or_missing. right.
  exists ready_param, unsharded_param.
  do 2 eexists. simpl. repeat split; auto.
Defined.

Lemma reuse_excludes_accumulation_witness :
  exists msg,
    snd (_post_backward_operations lone_reduce_scatter 1000 reuse_model)
    = Raise (AssertionError msg).
Proof.
  apply (reuse_excludes_accumulation lone_reduce_scatter 1000 reuse_model
           accumulating_param
           (record_of true [1; 2] (Some (tensor_of float16 cuda [3; 4]))
              (Some (tensor_of float32 cuda [10; 20])))
           (tensor_of float32 cuda [10; 20])).
  - reflexivity.
  - reflexivity.
  - exact I.
  - constructor.
  - simpl. constructor; [|constructor; [|constructor]];
      (split; [discriminate|intros _; discriminate]).
  - simpl. auto.
  - reflexivity.
  - reflexivity.
  - reflexivity.
Defined.

Lemma state_dict_restores_witness :
  state_dict sync_model
  = (sync_model,
     Return [("weight"%string, tensor_of float16 cuda [1; 2]);
             ("weight"%string, tensor_of float16 cuda [5])]).
Proof.
  apply state_dict_restores.
  - repeat constructor; eexists; split; reflexivity.
  - reflexivity.
Defined.

(** C9, the claim as stated: when the wrapped export raises, [state_dict]
    stops there; the record of the parameter, sharded before the call, is
    left gathered, and its data is the gathered payload. *)
Lemma state_dict_failure_leaves_gathered :
  snd (state_dict failing_export_model) = Raise (UserError "state_dict hook failed")
  /\ map (fun p => option_map param_is_sharded (col_attr p))
         (module_parameters failing_export_model)
     = [Some true]
  /\ map (fun p => option_map param_is_sharded (col_attr p))
         (module_parameters (fst (state_dict failing_export_model)))
     = [Some false]
  /\ map p_data (module_parameters (fst (state_dict failing_export_model)))
     <> map p_data (module_parameters failing_export_model).
Proof. repeat split; try reflexivity. vm_compute. discriminate. Qed.

(** * The further properties at concrete orchestrators *)

Lemma init_accepts_uniform_module_witness :
  exists self,
    __init__ two_workers (plain_module [ready_param; frozen_param]) marking_strategy
      None None 25 false None (Some (inject_Z 1)) false false
    = Return self
    /\ shard_param self = true
    /\ process_group self = two_workers
    /\ _require_backward_grad_sync self = true.
Proof.
  destruct (init_accepts_uniform_module two_workers
              (plain_module [ready_param; frozen_param]) marking_strategy
              None None 25 false None (inject_Z 1) false false true)
    as (self & Hinit & Hshard & Hpg & _ & _ & _ & _ & _ & _ & Hsync & _).
  - repeat constructor; eexists; split; reflexivity.
  - reflexivity.
  - exists self. auto.
Defined.

Lemma init_refuses_zero_predivide_factor_witness :
  __init__ two_workers (plain_module [ready_param; frozen_param]) marking_strategy
    None None 25 false None (Some (inject_Z 0)) false false
  = Raise ZeroDivisionError.
Proof.
  apply (init_refuses_zero_predivide_factor two_workers
           (plain_module [ready_param; frozen_param]) marking_strategy
           None None 25 false None (inject_Z 0) false false true).
  - repeat constructor; eexists; split; reflexivity.
  - reflexivity.
Defined.


Lemma callback_writes_one_record_witness :
  exists a' stored,
    _reduce_scatter_callback 0 (tensor_of float16 cuda [6; 8]) sync_model
    = (set_module_parameters sync_model
         (list_set 0 (set_col_attr ready_param a') (module_parameters sync_model)),
       Return tt)
    /\ stored = mkTensor float16 cuda false [6 / 2; 8 / 2]%Q
    /\ fp16_grad a' = Some stored.
Proof.
  destruct (callback_writes_one_record sync_model 0 (tensor_of float16 cuda [6; 8])
              ready_param
              (record_of true [1; 2] (Some (tensor_of float16 cuda [3; 4])) None)
              eq_refl eq_refl)
    as (a' & stored & Hrun & Hstored & _ & _ & Hf16).
  exists a', stored. split; [exact Hrun|]. split; [exact Hstored|exact Hf16].
Defined.

Lemma callbacks_commute_witness :
  fst (_reduce_scatter_callback 1 (tensor_of float16 cuda [2])
         (fst (_reduce_scatter_callback 0 (tensor_of float16 cuda [6; 8]) sync_model)))
  = fst (_reduce_scatter_callback 0 (tensor_of float16 cuda [6; 8])
           (fst (_reduce_scatter_callback 1 (tensor_of float16 cuda [2]) sync_model))).
Proof.
  apply (callbacks_commute sync_model 0 1). discriminate.
Defined.

Lemma hook_single_worker_witness :
  exists a' stored,
    _grad_post_backward_hook lone_reduce_scatter 0 (Some wide_gradient) casting_model
    = (set_module_parameters casting_model
         (list_set 0 (set_col_attr half_param a') (module_parameters casting_model)),
       Return (Some (mkTensor float32 cuda false [])))
    /\ stored
       = mkTensor float16 cuda false [infinity; 0.04998779296875%float; 3%float]
    /\ fp16_grad a' = Some stored.
Proof.
  destruct (hook_single_worker lone_reduce_scatter casting_model 0
              wide_gradient half_param (record_of true [1; 2] None None)
              eq_refl)
    as (a' & stored & Hrun & Hstored & _ & _ & Hf16);
    [simpl; lia|reflexivity|reflexivity|reflexivity|].
  exists a', stored. split; [exact Hrun|]. split; [|exact Hf16].
  rewrite Hstored. vm_compute. reflexivity.
Defined.

Lemma nosync_reconciliation_keeps_gradients_witness :
  map accumulation_view
    (module_parameters (fst (_post_backward_operations lone_reduce_scatter 1000 nosync_model)))
  = map accumulation_view (module_parameters nosync_model).
Proof.
  apply (nosync_reconciliation_keeps_gradients lone_reduce_scatter 1000 nosync_model).
  reflexivity.
Defined.

Lemma reconciliation_resets_counters_witness :
  Forall (fun p => exists a, col_attr p = Some a /\ bwd_count a = 0)
         (module_parameters
            (fst (_post_backward_operations lone_reduce_scatter 1000 sync_model))).
Proof.
  apply (reconciliation_resets_counters lone_reduce_scatter 1000 sync_model).
  vm_compute. reflexivity.
Defined.

Lemma reconciliation_counts_iterations_witness :
  _iter_cnter (fst (_post_backward_operations lone_reduce_scatter 1000 sync_model))
  = _iter_cnter sync_model + 1.
Proof.
  apply (reconciliation_counts_iterations lone_reduce_scatter 1000 sync_model).
  exact I.
Defined.

Lemma reconciliation_without_readings_witness :
  exists c',
    _post_backward_operations lone_reduce_scatter 1000 unsampled_model
    = (set_memstats_collector unsampled_model (Some c'), Raise ValueError)
    /\ overall_cuda c' = [].
Proof.
  apply (reconciliation_without_readings lone_reduce_scatter 1000 unsampled_model
           new_MemStatsCollector); reflexivity.
Defined.


Lemma reuse_gradient_is_payload_witness :
  Forall (fun p =>
            p_requires_grad p = true ->
            exists g a,
              p_grad p = Some g /\ col_attr p = Some a
              /\ Tensor_data g = Tensor_data (payload (sharded_data_tensor a))
              /\ (offload_grad a = true -> t_device g = cpu))
         (module_parameters
            (fst (_post_backward_operations lone_reduce_scatter 1000 reusing_model))).
Proof.
  apply (reuse_gradient_is_payload lone_reduce_scatter 1000 reusing_model).
  - reflexivity.
  - reflexivity.
  - vm_compute. reflexivity.
Defined.

Lemma state_dict_needs_records_witness :
  state_dict incomplete_model = (incomplete_model, Raise AttributeError).
Proof.
  apply (state_dict_needs_records incomplete_model bare_param).
  - simpl. auto.
  - reflexivity.
Defined.

Lemma state_dict_restores_data_witness :
  map p_data (module_parameters (fst (state_dict sync_model)))
  = map p_data (module_parameters sync_model).
Proof.
  destruct (state_dict_restores_data sync_model (fst (state_dict sync_model))
              [("weight"%string, tensor_of float16 cuda [1; 2]);
               ("weight"%string, tensor_of float16 cuda [5])])
    as (_ & Hdata & _).
  - vm_compute. reflexivity.
  - exact Hdata.
Defined.

Lemma state_dict_export_failure_witness :
  snd (state_dict failing_export_model) = Raise (UserError "state_dict hook failed")
  /\ map p_data (module_parameters (fst (state_dict failing_export_model)))
     = gathered_data failing_export_model.
Proof.
  destruct (state_dict_export_failure failing_export_model
              (UserError "state_dict hook failed"))
    as (Hraise & Hdata & _).
  - repeat constructor; discriminate.
  - reflexivity.
  - split; [exact Hraise|exact Hdata].
Defined.

Lemma margin_without_tracker_witness :
  cuda_margin_space (after_methods lone_reduce_scatter 1000 training_stretch sync_model)
  = 0.
Proof.
  destruct (margin_without_tracker lone_reduce_scatter 1000 sync_model training_stretch
              eq_refl) as [Hm _].
  exact Hm.
Defined.

Lemma single_worker_gradient_round_witness :
  exists p2 g2,
    nth_error
      (module_parameters
         (fst (_post_backward_operations lone_reduce_scatter 1000
                 (fst (_grad_post_backward_hook lone_reduce_scatter 0
                         (Some wide_gradient) casting_model)))))
      0
    = Some p2
    /\ p_grad p2 = Some g2
    /\ t_values g2 = [infinity; 0.04998779296875%float; 3%float]
    /\ t_device g2 = cuda
    /\ t_dtype g2 = float32.
Proof.
  destruct (single_worker_gradient_round lone_reduce_scatter 1000 casting_model
              (fst (_post_backward_operations lone_reduce_scatter 1000
                      (fst (_grad_post_backward_hook lone_reduce_scatter 0
                              (Some wide_gradient) casting_model))))
              0 wide_gradient half_param (record_of true [1; 2] None None))
    as (p2 & g2 & Hn & Hg & Hv & Hd & Ht);
    [reflexivity|simpl; lia|reflexivity|reflexivity|reflexivity|reflexivity
    |reflexivity|reflexivity|vm_compute; reflexivity|].
  exists p2, g2. split; [exact Hn|]. split; [exact Hg|].
  split; [rewrite Hv; vm_compute; reflexivity|]. split; [exact Hd|exact Ht].
Defined.

Lemma init_assertion_messages_witness :
  __init__ two_workers (plain_module [ready_param; bare_param]) marking_strategy
    None None 25 false None (Some (inject_Z 1)) false false
  = Raise (AssertionError "You must use ZeroInitContext to init your module first.").
Proof.
  apply (proj1 (init_assertion_messages two_workers
                  (plain_module [ready_param; bare_param]) marking_strategy
                  None None 25 false None (Some (inject_Z 1)) false false)).
  exists bare_param. simpl. auto.
Defined.

Lemma reconciliation_needs_gradient_tensors_witness :
  Forall (fun p => p_requires_grad p = true -> p_grad p <> None)
         (module_parameters sync_model).
Proof.
  apply (reconciliation_needs_gradient_tensors lone_reduce_scatter 1000 sync_model
           (fst (_post_backward_operations lone_reduce_scatter 1000 sync_model))).
  - reflexivity.
  - vm_compute. reflexivity.
Defined.
